(** * tester-agent: utilities, statement parsing, test-file synthesis and
      the generation pipeline, embedded from the Python sources.

    Python [str] values are lists of Unicode code points ([N]); a file is
    the text written to it; exceptions are values of an error type. *)

From Stdlib Require Import NArith ZArith Ascii String List Lia Bool.
From Stdlib Require Import DecimalN DecimalFacts.
From stdpp Require Import base option list gmap pretty.

Set Warnings "-register-all".
Local Open Scope N_scope.

(** ** Python strings *)

Module PyStr.

Abbreviation str := (list N).

(** Code points of a Rocq string literal (all below 256). *)
Fixpoint pystr (s : string) : str :=
match s with
| EmptyString => []
| String a t => N_of_ascii a :: pystr t
end.

Definition NL : N := 10.
Definition UNDERSCORE : N := 95.
Definition HYPHEN : N := 45.

Definition is_ascii (c : N) : bool := c <? 128.

(** [str.isspace] on the ASCII range: TAB..CR, FS..US and SPACE. *)
Definition ascii_isspace (c : N) : bool :=
((9 <=? c) && (c <=? 13)) || ((28 <=? c) && (c <=? 32)).

Definition ascii_isdigit (c : N) : bool := (48 <=? c) && (c <=? 57).
Definition ascii_isupper (c : N) : bool := (65 <=? c) && (c <=? 90).
Definition ascii_islower (c : N) : bool := (97 <=? c) && (c <=? 122).

Definition ascii_isalnum (c : N) : bool :=
ascii_isdigit c || ascii_isupper c || ascii_islower c.

Definition ascii_lower (c : N) : N := if ascii_isupper c then c + 32 else c.

Fixpoint dropwhile (p : N -> bool) (s : str) : str :=
match s with
| [] => []
| c :: t => if p c then dropwhile p t else s
end.

Definition lstrip (p : N -> bool) (s : str) : str := dropwhile p s.
Definition rstrip (p : N -> bool) (s : str) : str := rev (dropwhile p (rev s)).

(** [s.strip(chars)]: both ends. *)
Definition strip (p : N -> bool) (s : str) : str := rstrip p (lstrip p s).

(** [re.sub(r"[cls]+", repl, s)]: every maximal run of characters of the
  class is replaced by one copy of [repl]; [in_run] records that the
  previous character belonged to the run being replaced. *)
Fixpoint sub_runs (cls : N -> bool) (repl : str) (in_run : bool) (s : str) : str :=
match s with
| [] => []
| c :: t =>
    if cls c then
      (if in_run then sub_runs cls repl true t
       else repl ++ sub_runs cls repl true t)
    else c :: sub_runs cls repl false t
end.

(** [re.sub(r"[cls]", "", s)]: every character of the class is deleted. *)
Definition sub_delete (cls : N -> bool) (s : str) : str :=
filter (fun c => cls c = false) s.

End PyStr.
Import PyStr.

(** ** utils.py: slugify *)

(** The Unicode character database of the interpreter, outside the ASCII
    range: [str.isspace], [str.isalnum], [str.lower] (on whole strings,
    since it is context sensitive) and, for [re.IGNORECASE],
    [uni_ignorecase p c]: does the non-ASCII character [c] match the
    lowercase ASCII pattern letter [p]. *)
Class UnicodeDB := {
  uni_isspace : N -> bool;
  uni_isalnum : N -> bool;
  uni_lower : str -> str;
  uni_ignorecase : N -> N -> bool
}.

Section Slugify.
Context {udb : UnicodeDB}.

(** [\s] *)
Definition re_space (c : N) : bool :=
  if is_ascii c then ascii_isspace c else uni_isspace c.

(** [\w] *)
Definition re_word (c : N) : bool :=
  if is_ascii c then ascii_isalnum c || (c =? UNDERSCORE) else uni_isalnum c.

(** [str.lower]: byte-wise on ASCII-only strings, full case mapping
    otherwise. *)
Definition lower (s : str) : str :=
  if forallb is_ascii s then map ascii_lower s else uni_lower s.

(** [value.encode("ascii", "ignore").decode("ascii")] *)
Definition ascii_ignore (s : str) : str := filter (fun c => is_ascii c = true) s.

(** [[\s\-]] *)
Definition space_or_hyphen (c : N) : bool := re_space c || (c =? HYPHEN).

(** [[^\w_]] *)
Definition not_word (c : N) : bool := negb (re_word c || (c =? UNDERSCORE)).

Definition is_underscore (c : N) : bool := c =? UNDERSCORE.

Definition slugify (value : str) (allow_unicode : bool) : str :=
  let value := if negb allow_unicode then ascii_ignore value else value in
  let value := sub_runs space_or_hyphen [UNDERSCORE] false value in
  let value := sub_delete not_word value in
  strip is_underscore (lower value).

End Slugify.

(** Lowercase ASCII letter, digit or underscore. *)
Definition slug_char (c : N) : bool :=
  ascii_islower c || ascii_isdigit c || (c =? UNDERSCORE).

(** A character database for the Latin-1 supplement: NEL and NBSP are
    white space, the letters of U+00C0..U+00FF are alphanumeric, and the
    capitals U+00C0..U+00DE (except the multiplication sign) have their
    lowercase 32 places up. *)
Module Latin1.

Definition isspace (c : N) : bool := (c =? 133) || (c =? 160).

Definition isalnum (c : N) : bool :=
  (192 <=? c) && (c <=? 255) && negb (c =? 215) && negb (c =? 247).

Definition lower_char (c : N) : N :=
  if (192 <=? c) && (c <=? 222) && negb (c =? 215) then c + 32
  else ascii_lower c.

Definition db : UnicodeDB :=
  {| uni_isspace := isspace; uni_isalnum := isalnum;
     uni_lower := map lower_char; uni_ignorecase := fun _ _ => false |}.

End Latin1.


(** ** extractor.py: section patterns and parse_problem_text *)

(** The fragment of [re] syntax the section patterns are written in. *)
Inductive regex : Type :=
| Eps
| Bol
| Chr (p : N)
| Seq (r1 r2 : regex)
| Alt (r1 r2 : regex)
| Opt (r : regex)
| WordB.

(** A literal word. *)
Fixpoint lit (s : str) : regex :=
  match s with
  | [] => Eps
  | c :: t => Seq (Chr c) (lit t)
  end.

(** [str.splitlines] boundaries: LF, VT, FF, CR, FS, GS, RS, NEL, LS, PS. *)
Definition is_linebreak (c : N) : bool :=
  ((10 <=? c) && (c <=? 13)) || ((28 <=? c) && (c <=? 30))
  || (c =? 133) || (c =? 8232) || (c =? 8233).

(** [text.splitlines()]: [cur] is the line being read; a LF right after a
    CR belongs to the same boundary; no empty last line. *)
Fixpoint splitlines_from (after_cr : bool) (cur : str) (s : str) : list str :=
  match s with
  | [] => match cur with [] => [] | _ => [cur] end
  | c :: t =>
      if (c =? 10) && after_cr then splitlines_from false cur t
      else if is_linebreak c then cur :: splitlines_from (c =? 13) [] t
      else splitlines_from false (cur ++ [c]) t
  end.

Definition splitlines (text : str) : list str := splitlines_from false [] text.

(** [sep.join(parts)] *)
Fixpoint join (sep : str) (parts : list str) : str :=
  match parts with
  | [] => []
  | [x] => x
  | x :: rest => x ++ sep ++ join sep rest
  end.

(** [sections[key].append(line)] on a dict kept in insertion order. *)
Fixpoint dict_append (key : str) (line : str) (d : list (str * list str))
  : list (str * list str) :=
  match d with
  | [] => []
  | (k, v) :: rest =>
      if decide (k = key) then (k, v ++ [line]) :: rest
      else (k, v) :: dict_append key line rest
  end.

Section Extractor.
Context {udb : UnicodeDB}.

(** A pattern letter against a subject character under [re.IGNORECASE]. *)
Definition ci_eq (p c : N) : bool :=
  if is_ascii c then ascii_lower c =? ascii_lower p
  else uni_ignorecase (ascii_lower p) c.

Definition word_at (c : option N) : bool :=
  match c with Some c => re_word c | None => false end.

(** Backtracking matcher: [prev] is the character before the position,
    [pos] the position, [k] what remains to be matched; the result is the
    end of the match. *)
Fixpoint rmatch (r : regex) (prev : option N) (s : str) (pos : nat)
    (k : option N -> str -> nat -> option nat) : option nat :=
  match r with
  | Eps => k prev s pos
  | Bol => if Nat.eqb pos 0 then k prev s pos else None
  | Chr p =>
      match s with
      | c :: t => if ci_eq p c then k (Some c) t (S pos) else None
      | [] => None
      end
  | Seq a b => rmatch a prev s pos (fun prev' s' pos' => rmatch b prev' s' pos' k)
  | Alt a b =>
      match rmatch a prev s pos k with
      | Some n => Some n
      | None => rmatch b prev s pos k
      end
  | Opt a =>
      match rmatch a prev s pos k with
      | Some n => Some n
      | None => k prev s pos
      end
  | WordB => if xorb (word_at prev) (word_at (head s)) then k prev s pos else None
  end.

(** [pattern.match(line)]: length of [group(0)], if the pattern matches at
    the start of the line. *)
Definition re_match (r : regex) (line : str) : option nat :=
  rmatch r None line 0%nat (fun _ _ n => Some n).

Definition SECTION_PATTERNS : list (str * regex) :=
  [ (pystr "statement",
      Seq Bol (Seq (Alt (lit (pystr "statement"))
                   (Alt (lit (pystr "problem"))
                        (Seq (lit (pystr "instruction")) (Opt (Chr 115)))))
                   WordB));
    (pystr "input", Seq Bol (Seq (lit (pystr "input")) WordB));
    (pystr "output", Seq Bol (Seq (lit (pystr "output")) WordB));
    (pystr "constraints",
      Seq Bol (Seq (Alt (Seq (lit (pystr "constraint")) (Opt (Chr 115)))
                        (Seq (lit (pystr "limit")) (Opt (Chr 115))))
                   WordB));
    (pystr "examples",
      Seq Bol (Seq (Seq (lit (pystr "example")) (Opt (Chr 115))) WordB)) ].

(** The inner loop: the first pattern that matches gives the new section
    and the line without its header, stripped. *)
Fixpoint first_match (patterns : list (str * regex)) (line : str)
  : option (str * str) :=
  match patterns with
  | [] => None
  | (name, pattern) :: rest =>
      match re_match pattern line with
      | Some n => Some (name, strip re_space (drop n line))
      | None => first_match rest line
      end
  end.

(** One iteration of the loop over the lines; the state is
    [current_section] and [sections]. *)
Definition parse_line (st : str * list (str * list str)) (raw_line : str)
  : str * list (str * list str) :=
  let '(current_section, sections) := st in
  let line := strip re_space raw_line in
  match line with
  | [] => st
  | _ =>
      let '(current_section, line) :=
        match first_match SECTION_PATTERNS line with
        | Some (name, rest) => (name, rest)
        | None => (current_section, line)
        end in
      (current_section, dict_append current_section line sections)
  end.

(** [sections] when the loop is over. *)
Definition accumulate (text : str) : list (str * list str) :=
  let sections := map (fun kp => (fst kp, [])) SECTION_PATTERNS in
  snd (fold_left parse_line (splitlines text) (pystr "statement", sections)).

(** [{k: "\n".join(v).strip() for k, v in sections.items() if v}] *)
Fixpoint normalize (sections : list (str * list str)) : list (str * str) :=
  match sections with
  | [] => []
  | (k, []) :: rest => normalize rest
  | (k, v) :: rest => (k, strip re_space (join [NL] v)) :: normalize rest
  end.

Definition parse_problem_text (text : str) : list (str * str) :=
  normalize (accumulate text).

End Extractor.

(** ** Python values, exceptions and the json module *)

(** The values the programs handle; floats are outside the model. A dict
    is its items in insertion order; [PObject] is any other object
    (a module, a function, a match). *)
Inductive pyval : Type :=
| PNone
| PBool (b : bool)
| PInt (z : Z)
| PStr (s : str)
| PList (items : list pyval)
| PTuple (items : list pyval)
| PDict (items : list (pyval * pyval))
| PObject (what : str).

Inductive exc : Type :=
| TypeError
| JSONDecodeError
| FloatNotModelled
| SyntaxError
| NameError (name : str)
| IndexError
| KeyError
| AttributeError
| FileNotFoundError
| PermissionError
| UnicodeEncodeError
| UnicodeDecodeError
| RecursionError
| ExternalError (what : str).

Inductive result (A : Type) : Type :=
| Ok (a : A)
| Raise (e : exc).
Arguments Ok {A} a.
Arguments Raise {A} e.

(** What a generator has yielded, and the exception that stopped it. *)
Definition emit : Type := str * option exc.

Definition emit_str (s : str) : emit := (s, None).
Definition emit_raise (e : exc) : emit := ([], Some e).
Definition emit_seq (a b : emit) : emit :=
  match a with
  | (s, None) => (s ++ fst b, snd b)
  | (s, Some e) => (s, Some e)
  end.

Module Json.

Fixpoint digits_of_uint (d : Decimal.uint) : str :=
  match d with
  | Decimal.Nil => []
  | Decimal.D0 r => 48 :: digits_of_uint r
  | Decimal.D1 r => 49 :: digits_of_uint r
  | Decimal.D2 r => 50 :: digits_of_uint r
  | Decimal.D3 r => 51 :: digits_of_uint r
  | Decimal.D4 r => 52 :: digits_of_uint r
  | Decimal.D5 r => 53 :: digits_of_uint r
  | Decimal.D6 r => 54 :: digits_of_uint r
  | Decimal.D7 r => 55 :: digits_of_uint r
  | Decimal.D8 r => 56 :: digits_of_uint r
  | Decimal.D9 r => 57 :: digits_of_uint r
  end.

(** [str(n)] for a natural number. *)
Definition nat_str (n : N) : str := digits_of_uint (N.to_uint n).

(** [int.__repr__] *)
Definition int_str (z : Z) : str :=
  match z with
  | Zneg p => 45 :: nat_str (Npos p)
  | _ => nat_str (Z.to_N z)
  end.

Definition hex_digit (d : N) : N := if d <? 10 then 48 + d else 87 + d.

(** ['\\u{0:04x}'.format(n)] for [n < 0x10000]. *)
Definition escape_u (n : N) : str :=
  [92; 117; hex_digit (n / 4096 mod 16); hex_digit (n / 256 mod 16);
   hex_digit (n / 16 mod 16); hex_digit (n mod 16)].

(** [ESCAPE_DCT] *)
Definition escape_dct (c : N) : option str :=
  if c =? 92 then Some [92; 92]
  else if c =? 34 then Some [92; 34]
  else if c =? 8 then Some [92; 98]
  else if c =? 12 then Some [92; 102]
  else if c =? 10 then Some [92; 110]
  else if c =? 13 then Some [92; 114]
  else if c =? 9 then Some [92; 116]
  else if c <? 32 then Some (escape_u c)
  else None.

(** One character under [py_encode_basestring]. *)
Definition escape_char (c : N) : str :=
  match escape_dct c with Some e => e | None => [c] end.

(** One character under [py_encode_basestring_ascii]: everything outside
    [' '..'~'] is escaped, beyond the BMP as a surrogate pair. *)
Definition escape_char_ascii (c : N) : str :=
  match escape_dct c with
  | Some e => e
  | None =>
      if (32 <=? c) && (c <=? 126) then [c]
      else if c <? 65536 then escape_u c
      else
        let n := c - 65536 in
        escape_u (N.lor 55296 (N.land (N.shiftr n 10) 1023))
        ++ escape_u (N.lor 56320 (N.land n 1023))
  end.

Definition encode_basestring (ensure_ascii : bool) (s : str) : str :=
  [34] ++ concat (map (if ensure_ascii then escape_char_ascii else escape_char) s)
  ++ [34].

(** ['\n' + _indent * level] with [indent=2]. *)
Definition newline_indent (level : nat) : str := NL :: repeat 32 (2 * level)%nat.

(** The key of a dict item as [_iterencode_dict] coerces it. *)
Definition encode_key (ensure_ascii : bool) (k : pyval) : result str :=
  match k with
  | PStr s => Ok (encode_basestring ensure_ascii s)
  | PBool true => Ok (encode_basestring ensure_ascii (pystr "true"))
  | PBool false => Ok (encode_basestring ensure_ascii (pystr "false"))
  | PNone => Ok (encode_basestring ensure_ascii (pystr "null"))
  | PInt z => Ok (encode_basestring ensure_ascii (int_str z))
  | _ => Raise TypeError
  end.

(** [_iterencode(o, level)] of [JSONEncoder(indent=2)]: item separator
    [","], key separator [": "]. *)
Fixpoint iterencode (ensure_ascii : bool) (level : nat) (o : pyval) {struct o}
  : emit :=
  let encode_items :=
    fix encode_items (first : bool) (l : list pyval) {struct l} : emit :=
      match l with
      | [] => emit_str []
      | v :: rest =>
          emit_seq
            (emit_str (if first then [] else 44 :: newline_indent (S level)))
            (emit_seq (iterencode ensure_ascii (S level) v)
                      (encode_items false rest))
      end in
  let encode_pairs :=
    fix encode_pairs (first : bool) (l : list (pyval * pyval)) {struct l}
      : emit :=
      match l with
      | [] => emit_str []
      | (k, v) :: rest =>
          match encode_key ensure_ascii k with
          | Raise e => emit_raise e
          | Ok key =>
              emit_seq
                (emit_str ((if first then [] else 44 :: newline_indent (S level))
                           ++ key ++ [58; 32]))
                (emit_seq (iterencode ensure_ascii (S level) v)
                          (encode_pairs false rest))
          end
      end in
  match o with
  | PNone => emit_str (pystr "null")
  | PBool true => emit_str (pystr "true")
  | PBool false => emit_str (pystr "false")
  | PInt z => emit_str (int_str z)
  | PStr s => emit_str (encode_basestring ensure_ascii s)
  | PList [] | PTuple [] => emit_str (pystr "[]")
  | PList l | PTuple l =>
      emit_seq (emit_str (91 :: newline_indent (S level)))
        (emit_seq (encode_items true l)
                  (emit_str (newline_indent level ++ [93])))
  | PDict [] => emit_str (pystr "{}")
  | PDict d =>
      emit_seq (emit_str (123 :: newline_indent (S level)))
        (emit_seq (encode_pairs true d)
                  (emit_str (newline_indent level ++ [125])))
  | PObject _ => emit_raise TypeError
  end.

(** *** Decoding *)

Definition bind {A B : Type} (r : result A) (f : A -> result B) : result B :=
  match r with
  | Ok a => f a
  | Raise e => Raise e
  end.

(** The two readers of the text [json.dumps] writes: the json decoder,
    and the Python interpreter when the text stands in a source file as
    an expression. They differ in the names they know, in surrogate
    pairs of [\u] escapes and in the escape [\/]. *)
Record dialect : Type := {
  python_source : bool;
  resolve_name : str -> result pyval
}.

(** [WHITESPACE]: space, tab, line feed, carriage return. *)
Definition is_ws (c : N) : bool :=
  (c =? 32) || (c =? 9) || (c =? 10) || (c =? 13).

Definition skip_ws (s : str) : str := dropwhile is_ws s.

Definition is_digit (c : N) : bool := (48 <=? c) && (c <=? 57).

Definition hex_value (c : N) : option N :=
  if (48 <=? c) && (c <=? 57) then Some (c - 48)
  else if (97 <=? c) && (c <=? 102) then Some (c - 87)
  else if (65 <=? c) && (c <=? 70) then Some (c - 55)
  else None.

(** [_decode_uXXXX] *)
Definition decode_u (h1 h2 h3 h4 : N) : option N :=
  match hex_value h1, hex_value h2, hex_value h3, hex_value h4 with
  | Some a, Some b, Some c, Some d => Some (a * 4096 + b * 256 + c * 16 + d)
  | _, _, _, _ => None
  end.

(** [BACKSLASH] *)
Definition backslash (e : N) : option N :=
  if e =? 34 then Some 34
  else if e =? 92 then Some 92
  else if e =? 47 then Some 47
  else if e =? 98 then Some 8
  else if e =? 102 then Some 12
  else if e =? 110 then Some 10
  else if e =? 114 then Some 13
  else if e =? 116 then Some 9
  else None.

Definition is_high_surrogate (n : N) : bool := (55296 <=? n) && (n <=? 56319).
Definition is_low_surrogate (n : N) : bool := (56320 <=? n) && (n <=? 57343).

Definition cons_char (c : N) (r : result (str * str)) : result (str * str) :=
  bind r (fun p => Ok (c :: fst p, snd p)).

(** [scanstring] from just after the opening quote: the decoded string
    and the text after the closing quote. *)
Fixpoint scanstring (python : bool) (s : str) {struct s} : result (str * str) :=
  let bad := if python then SyntaxError else JSONDecodeError in
  match s with
  | [] => Raise bad
  | c :: t =>
      if c =? 34 then Ok ([], t)
      else if c =? 92 then
        match t with
        | [] => Raise bad
        | e :: t1 =>
            if e =? 117 then
              match t1 with
              | h1 :: h2 :: h3 :: h4 :: t2 =>
                  match decode_u h1 h2 h3 h4 with
                  | None => Raise bad
                  | Some uni =>
                      match t2 with
                      | 92 :: 117 :: g1 :: g2 :: g3 :: g4 :: t3 =>
                          if is_high_surrogate uni && negb python then
                            match decode_u g1 g2 g3 g4 with
                            | None => Raise bad
                            | Some uni2 =>
                                if is_low_surrogate uni2 then
                                  cons_char
                                    (65536 + N.lor (N.shiftl (uni - 55296) 10)
                                                   (uni2 - 56320))
                                    (scanstring python t3)
                                else cons_char uni (scanstring python t2)
                            end
                          else cons_char uni (scanstring python t2)
                      | _ => cons_char uni (scanstring python t2)
                      end
                  end
              | _ => Raise bad
              end
            else if (e =? 47) && python then
              cons_char 92 (cons_char 47 (scanstring python t1))
            else
              match backslash e with
              | Some ch => cons_char ch (scanstring python t1)
              | None => Raise bad
              end
        end
      else if c <? 32 then Raise bad
      else cons_char c (scanstring python t)
  end.

(** The longest prefix of digits, and what follows. *)
Fixpoint read_digits (s : str) : str * str :=
  match s with
  | c :: t =>
      if is_digit c then
        let '(ds, rest) := read_digits t in (c :: ds, rest)
      else ([], s)
  | [] => ([], [])
  end.

Fixpoint value_of_digits (acc : N) (ds : str) : N :=
  match ds with
  | [] => acc
  | c :: t => value_of_digits (10 * acc + (c - 48)) t
  end.

(** Is a fraction or an exponent next?  [(\.\d+)?([eE][-+]?\d+)?] *)
Definition float_tail (s : str) : bool :=
  match s with
  | 46 :: d :: _ => is_digit d
  | e :: rest =>
      ((e =? 101) || (e =? 69))
      && match rest with
         | d :: rest' =>
             is_digit d
             || (((d =? 43) || (d =? 45))
                 && match rest' with d' :: _ => is_digit d' | [] => false end)
         | [] => false
         end
  | [] => false
  end.

(** [NUMBER_RE]: the integer part is [0] or a run of digits not starting
    with [0]. [s] starts after the sign. *)
Definition scan_number (python negative : bool) (s : str) : result (pyval * str) :=
  let bad := if python then SyntaxError else JSONDecodeError in
  let '(ds, rest) :=
    match s with
    | 48 :: t => ([48], t)
    | _ => read_digits s
    end in
  match ds with
  | [] => Raise bad
  | _ =>
      if float_tail rest then Raise FloatNotModelled
      else
        let n := Z.of_N (value_of_digits 0 ds) in
        Ok (PInt (if negative then (- n)%Z else n), rest)
  end.

Definition is_name_start (c : N) : bool :=
  ascii_isupper c || ascii_islower c || (c =? UNDERSCORE).
Definition is_name_char (c : N) : bool := is_name_start c || is_digit c.

Fixpoint read_name (s : str) : str * str :=
  match s with
  | c :: t =>
      if is_name_char c then
        let '(n, rest) := read_name t in (c :: n, rest)
      else ([], s)
  | [] => ([], [])
  end.

(** [dict(pairs)]: a later item with the same key replaces the value of
    the earlier one, in its place. *)
Fixpoint dict_set (k : str) (v : pyval) (d : list (str * pyval))
  : list (str * pyval) :=
  match d with
  | [] => [(k, v)]
  | (k', v') :: rest =>
      if decide (k' = k) then (k', v) :: rest else (k', v') :: dict_set k v rest
  end.

Definition dict_of_pairs (pairs : list (str * pyval)) : pyval :=
  PDict (map (fun kv => (PStr (fst kv), snd kv))
             (fold_left (fun d kv => dict_set (fst kv) (snd kv) d) pairs [])).

(** [scan_once], [JSONArray] and [JSONObject]; [fuel] bounds the depth of
    the calls, as the interpreter's recursion limit does. *)
Fixpoint scan_once (dl : dialect) (fuel : nat) (s : str) {struct fuel}
  : result (pyval * str) :=
  let bad := if python_source dl then SyntaxError else JSONDecodeError in
  match fuel with
  | O => Raise RecursionError
  | S fuel =>
      match s with
      | [] => Raise bad
      | c :: t =>
          if c =? 34 then
            bind (scanstring (python_source dl) t)
                 (fun p => Ok (PStr (fst p), snd p))
          else if c =? 91 then
            match skip_ws t with
            | 93 :: rest => Ok (PList [], rest)
            | t' => bind (scan_array dl fuel t')
                         (fun p => Ok (PList (fst p), snd p))
            end
          else if c =? 123 then
            match skip_ws t with
            | 125 :: rest => Ok (PDict [], rest)
            | t' => bind (scan_object dl fuel t')
                         (fun p => Ok (dict_of_pairs (fst p), snd p))
            end
          else if c =? 45 then scan_number (python_source dl) true t
          else if is_digit c then scan_number (python_source dl) false s
          else if is_name_start c then
            let '(name, rest) := read_name s in
            bind (resolve_name dl name) (fun v => Ok (v, rest))
          else Raise bad
      end
  end
with scan_array (dl : dialect) (fuel : nat) (s : str) {struct fuel}
  : result (list pyval * str) :=
  let bad := if python_source dl then SyntaxError else JSONDecodeError in
  match fuel with
  | O => Raise RecursionError
  | S fuel =>
      bind (scan_once dl fuel s) (fun p =>
        match skip_ws (snd p) with
        | 93 :: rest => Ok ([fst p], rest)
        | 44 :: rest =>
            bind (scan_array dl fuel (skip_ws rest))
                 (fun q => Ok (fst p :: fst q, snd q))
        | _ => Raise bad
        end)
  end
with scan_object (dl : dialect) (fuel : nat) (s : str) {struct fuel}
  : result (list (str * pyval) * str) :=
  let bad := if python_source dl then SyntaxError else JSONDecodeError in
  match fuel with
  | O => Raise RecursionError
  | S fuel =>
      match s with
      | 34 :: t =>
          bind (scanstring (python_source dl) t) (fun k =>
            match skip_ws (snd k) with
            | 58 :: t1 =>
                bind (scan_once dl fuel (skip_ws t1)) (fun p =>
                  match skip_ws (snd p) with
                  | 125 :: rest => Ok ([(fst k, fst p)], rest)
                  | 44 :: rest =>
                      bind (scan_object dl fuel (skip_ws rest))
                           (fun q => Ok ((fst k, fst p) :: fst q, snd q))
                  | _ => Raise bad
                  end)
            | _ => Raise bad
            end)
      | _ => Raise bad
      end
  end.

(** The names of a JSON document. *)
Definition json_names (name : str) : result pyval :=
  if decide (name = pystr "null") then Ok PNone
  else if decide (name = pystr "true") then Ok (PBool true)
  else if decide (name = pystr "false") then Ok (PBool false)
  else if decide (name = pystr "NaN") then Raise FloatNotModelled
  else if decide (name = pystr "Infinity") then Raise FloatNotModelled
  else Raise JSONDecodeError.

Definition json_dialect : dialect :=
  {| python_source := false; resolve_name := json_names |}.

(** [json.dumps(obj, indent=2, ensure_ascii=...)] *)
Definition dumps (ensure_ascii : bool) (obj : pyval) : result str :=
  match iterencode ensure_ascii 0 obj with
  | (s, None) => Ok s
  | (_, Some e) => Raise e
  end.

(** [json.loads(s)] *)
Definition loads (s : str) : result pyval :=
  bind (scan_once json_dialect (S (length s)) (skip_ws s)) (fun p =>
    match skip_ws (snd p) with
    | [] => Ok (fst p)
    | _ => Raise JSONDecodeError
    end).

End Json.

(** ** The Python reader of a literal in a source file *)

(** The keyword constants, then the names bound in the module; any other
    name raises NameError. *)
Fixpoint lookup_name (env : list (str * pyval)) (name : str) : result pyval :=
  match env with
  | [] => Raise (NameError name)
  | (n, v) :: rest => if decide (n = name) then Ok v else lookup_name rest name
  end.

Definition python_names (env : list (str * pyval)) (name : str) : result pyval :=
  if decide (name = pystr "None") then Ok PNone
  else if decide (name = pystr "True") then Ok (PBool true)
  else if decide (name = pystr "False") then Ok (PBool false)
  else lookup_name env name.

Definition python_dialect (env : list (str * pyval)) : Json.dialect :=
  {| Json.python_source := true; Json.resolve_name := python_names env |}.

(** Evaluation of an expression made of list and dict displays, string
    and integer literals and names, as the interpreter does when it runs
    the assignment [TEST_CASES = <text>]. *)
Definition py_eval_literal (env : list (str * pyval)) (text : str) : result pyval :=
  Json.bind (Json.scan_once (python_dialect env) (S (length text))
               (Json.skip_ws text))
    (fun p =>
       match Json.skip_ws (snd p) with
       | [] => Ok (fst p)
       | _ => Raise SyntaxError
       end).

(** ** Files *)

(** What a path holds: text (or bytes, one number per byte), or a ZIP
    archive as its entries in order. *)
Inductive file : Type :=
| Text (content : str)
| Archive (entries : list (str * file)).

(** The platform under the program: which paths can be opened for
    writing, which directories can be made, the temporary directory, the
    PDF reader (the text of each
    page, or its error) and the UTF-8 decoder. *)
Class Platform := {
  can_write : str -> bool;
  can_mkdir : str -> bool;
  gettempdir : str;
  pdf_get_text : file -> result (list str);
  utf8_decode : str -> result str
}.

Abbreviation filesystem := (gmap str file).

(** A lone surrogate cannot be encoded in UTF-8. *)
Definition is_surrogate (c : N) : bool := (55296 <=? c) && (c <=? 57343).

Fixpoint encodable_prefix (s : str) : str :=
  match s with
  | [] => []
  | c :: t => if is_surrogate c then [] else c :: encodable_prefix t
  end.

Section TextFiles.
Context {os : Platform}.

(** [with open(path, "w", encoding="utf-8") as f: f.write(s)]: the file
    is truncated when it is opened; an encoding error leaves what was
    written before it. *)
Definition write_text (path : str) (s : str) (fs : filesystem)
  : result unit * filesystem :=
  if can_write path then
    (if existsb is_surrogate s then Raise UnicodeEncodeError else Ok tt,
     <[path := Text (encodable_prefix s)]> fs)
  else (Raise PermissionError, fs).

(** [with open(path, "wb") as f: f.write(data)] *)
Definition write_bytes (path : str) (data : str) (fs : filesystem)
  : result unit * filesystem :=
  if can_write path then (Ok tt, <[path := Text data]> fs)
  else (Raise PermissionError, fs).

End TextFiles.

(** Universal newlines on reading: CR LF and CR become LF. *)
Fixpoint universal_newlines (s : str) : str :=
  match s with
  | [] => []
  | 13 :: t =>
      match t with
      | 10 :: t' => 10 :: universal_newlines t'
      | _ => 10 :: universal_newlines t
      end
  | c :: t => c :: universal_newlines t
  end.

(** [with open(path, "r", encoding="utf-8") as f: f.read()] *)
Definition read_text (path : str) (fs : filesystem) : result str :=
  match fs !! path with
  | None => Raise FileNotFoundError
  | Some (Text s) => Ok (universal_newlines s)
  | Some (Archive _) => Raise UnicodeDecodeError
  end.

(** ** test_builder.py *)

(** [d.get(key)] with a string key. *)
Fixpoint dict_get (key : str) (items : list (pyval * pyval)) : pyval :=
  match items with
  | [] => PNone
  | (PStr k, v) :: rest => if decide (k = key) then v else dict_get key rest
  | _ :: rest => dict_get key rest
  end.

(** [case.get(key)]: only a dict has [get]. *)
Definition case_get (case : pyval) (key : str) : result pyval :=
  match case with
  | PDict items => Ok (dict_get key items)
  | _ => Raise AttributeError
  end.

(** The loop that fills [param_lines]. *)
Fixpoint param_lines (test_cases : list pyval) : result (list pyval) :=
  match test_cases with
  | [] => Ok []
  | case :: rest =>
      Json.bind (case_get case (pystr "input")) (fun input_data =>
      Json.bind (case_get case (pystr "expected")) (fun expected =>
      Json.bind (param_lines rest) (fun lines =>
      Ok (PTuple [input_data; expected] :: lines))))
  end.

(** What is written before and after the table. *)
Definition test_file_header (module_name func_name : str) : str :=
  pystr "import pytest" ++ [NL]
  ++ pystr "from " ++ module_name ++ pystr " import " ++ func_name ++ [NL; NL]
  ++ pystr "TEST_CASES = ".

Definition test_file_footer (func_name : str) : str :=
  [NL; NL]
  ++ pystr "@pytest.mark.parametrize(" ++ [34] ++ pystr "inp, expected" ++ [34]
  ++ pystr ", TEST_CASES)" ++ [NL]
  ++ pystr "def test_" ++ func_name ++ pystr "(inp, expected):" ++ [NL]
  ++ pystr "    if isinstance(inp, list):" ++ [NL]
  ++ pystr "        result = " ++ func_name ++ pystr "(*inp)" ++ [NL]
  ++ pystr "    elif inp is None:" ++ [NL]
  ++ pystr "        result = " ++ func_name ++ pystr "()" ++ [NL]
  ++ pystr "    else:" ++ [NL]
  ++ pystr "        result = " ++ func_name ++ pystr "(inp)" ++ [NL]
  ++ pystr "    assert result == expected" ++ [NL].

Section TestBuilder.
Context {os : Platform}.

(** The file is opened, then written piece by piece: when [json.dumps]
    raises, the file keeps what was written before. *)
Definition build_pytest_file (test_cases : list pyval)
    (module_name output_path func_name : str) (fs : filesystem)
  : result unit * filesystem :=
  match param_lines test_cases with
  | Raise e => (Raise e, fs)
  | Ok lines =>
      let header := test_file_header module_name func_name in
      match write_text output_path header fs with
      | (Raise e, fs') => (Raise e, fs')
      | (Ok _, fs') =>
          match Json.dumps true (PList lines) with
          | Raise e => (Raise e, fs')
          | Ok json_str =>
              write_text output_path
                (header ++ json_str ++ test_file_footer func_name) fs
          end
      end
  end.

End TestBuilder.

(** *** What the generated file does when the test runner loads it *)

Fixpoint strip_prefix (p s : str) : option str :=
  match p, s with
  | [], _ => Some s
  | a :: p', b :: s' => if a =? b then strip_prefix p' s' else None
  | _ :: _, [] => None
  end.

Definition strip_suffix (p s : str) : option str :=
  match strip_prefix (rev p) (rev s) with
  | Some r => Some (rev r)
  | None => None
  end.

(** Loading a file of the shape [build_pytest_file] writes: the imports
    bind [pytest] and the callable, the assignment evaluates the table,
    and [parametrize] takes its rows. *)
Definition load_test_module (module_name func_name : str) (content : str)
  : result (list pyval) :=
  match strip_prefix (test_file_header module_name func_name) content with
  | None => Raise SyntaxError
  | Some rest =>
      match strip_suffix (test_file_footer func_name) rest with
      | None => Raise SyntaxError
      | Some table =>
          let env := [ (pystr "pytest", PObject (pystr "module"));
                       (func_name, PObject (pystr "function")) ] in
          Json.bind (py_eval_literal env table) (fun v =>
            match v with
            | PList rows => Ok rows
            | _ => Raise TypeError
            end)
      end
  end.

(** How the body of the generated test calls the callable for one row. *)
Inductive call : Type :=
| CallUnpacked (args : list pyval)
| CallNoArgs
| CallSingle (arg : pyval).

Definition call_for (inp : pyval) : call :=
  match inp with
  | PList args => CallUnpacked args
  | PNone => CallNoArgs
  | other => CallSingle other
  end.

(** A platform for running the definitions: every path can be written,
    the temporary directory is [/tmp], a "PDF" is a text file with its
    pages separated by form feeds, and bytes below 128 decode to
    themselves. *)
Module Posix.

Fixpoint split_pages (cur : str) (s : str) : list str :=
  match s with
  | [] => [cur]
  | c :: t => if c =? 12 then cur :: split_pages [] t else split_pages (cur ++ [c]) t
  end.

Definition os : Platform :=
  {| can_write := fun _ => true;
     can_mkdir := fun _ => true;
     gettempdir := pystr "/tmp";
     pdf_get_text := fun f =>
       match f with
       | Text s => Ok (split_pages [] s)
       | Archive _ => Raise (ExternalError (pystr "not a PDF"))
       end;
     utf8_decode := fun b =>
       if forallb is_ascii b then Ok b else Raise UnicodeDecodeError |}.

End Posix.

(** ** pathlib and posixpath *)

(** [s.split(sep)]; [cur] is the part being read. *)
Fixpoint split_on (sep : N) (cur : str) (s : str) : list str :=
  match s with
  | [] => [cur]
  | c :: t =>
      if c =? sep then cur :: split_on sep [] t
      else split_on sep (cur ++ [c]) t
  end.

Definition SLASH : N := 47.
Definition DOT : N := 46.

(** The components pathlib keeps: not empty, not ["."]. *)
Definition kept_part (p : str) : bool :=
  negb (bool_decide (p = [])) && negb (bool_decide (p = [DOT])).

Definition path_parts (s : str) : list str :=
  List.filter kept_part (split_on SLASH [] s).

Definition is_absolute (s : str) : bool :=
  match s with c :: _ => c =? SLASH | [] => false end.

(** A [PurePosixPath]. *)
Record path : Type := { anchored : bool; parts : list str }.

(** [Path(s)] *)
Definition Path (s : str) : path :=
  {| anchored := is_absolute s; parts := path_parts s |}.

(** [str(p)] *)
Definition path_str (p : path) : str :=
  if anchored p then SLASH :: join [SLASH] (parts p)
  else match parts p with [] => [DOT] | ps => join [SLASH] ps end.

(** [p / name] *)
Definition path_div (p : path) (name : str) : path :=
  if is_absolute name then Path name
  else {| anchored := anchored p; parts := parts p ++ path_parts name |}.

(** [p.name] *)
Definition path_name (p : path) : str := List.last (parts p) [].

(** The text before the last [c] of a string and the text after it, from
    the reversed string. *)
Fixpoint rsplit_rev (c : N) (after : str) (rev_s : str) : option (str * str) :=
  match rev_s with
  | [] => None
  | d :: t => if d =? c then Some (rev t, after) else rsplit_rev c (d :: after) t
  end.

(** [p.stem]: the name without its last suffix, when the dot is neither
    first nor last. *)
Definition path_stem (p : path) : str :=
  let name := path_name p in
  match rsplit_rev DOT [] (rev name) with
  | Some (before, after) =>
      match before, after with
      | _ :: _, _ :: _ => before
      | _, _ => name
      end
  | None => name
  end.

(** One step of the loop of [posixpath.normpath]. *)
Definition normpath_step (initial_slashes : bool) (new_comps : list str)
    (comp : str) : list str :=
  if bool_decide (comp = []) || bool_decide (comp = [DOT]) then new_comps
  else if negb (bool_decide (comp = [DOT; DOT]))
          || (negb initial_slashes && bool_decide (new_comps = []))
          || bool_decide (List.last new_comps [] = [DOT; DOT])
       then new_comps ++ [comp]
       else removelast new_comps.

(** [ZipInfo.from_file]: the arcname is normalised with [normpath] and
    loses its leading slashes. *)
Definition zip_arcname (arcname : str) : str :=
  let comps :=
    fold_left (normpath_step (is_absolute arcname))
              (split_on SLASH [] arcname) [] in
  match comps with
  | [] => if is_absolute arcname then [] else [DOT]
  | _ => join [SLASH] comps
  end.

(** ** utils.py: JSON files and ZIP packaging *)

Section Utils.
Context {os : Platform}.

(** [json.dump] writes the chunks as they are encoded: an exception
    leaves the chunks before it in the file. *)
Definition write_json (data : pyval) (path : str) (fs : filesystem)
  : result unit * filesystem :=
  match Json.iterencode false 0 data with
  | (s, None) => write_text path s fs
  | (s, Some e) =>
      match write_text path s fs with
      | (Ok _, fs') => (Raise e, fs')
      | failed => failed
      end
  end.

Definition read_json (path : str) (fs : filesystem) : result pyval :=
  Json.bind (read_text path fs) Json.loads.

(** The loop of [make_zipfile]: [zf.write(filename, arcname)]. *)
Fixpoint zip_write_all (fs : filesystem) (files : list (str * str))
    (entries : list (str * file)) : result unit * list (str * file) :=
  match files with
  | [] => (Ok tt, entries)
  | (arcname, filename) :: rest =>
      match fs !! filename with
      | None => (Raise FileNotFoundError, entries)
      | Some f => zip_write_all fs rest (entries ++ [(zip_arcname arcname, f)])
      end
  end.

Definition make_zipfile (files : list (str * str)) (output_path : str)
    (fs : filesystem) : result unit * filesystem :=
  if can_write output_path then
    let '(r, entries) := zip_write_all fs files [] in
    (r, <[output_path := Archive entries]> fs)
  else (Raise PermissionError, fs).

(** ** test_builder.py: create_test_suite_for_solutions *)

(** The loop over the solution files: the paths written so far, and the
    file system. *)
Fixpoint build_test_files (test_cases : list pyval) (solution_files : list str)
    (output_dir_path : path) (func_name : str) (fs : filesystem)
  : result (list str) * filesystem :=
  match solution_files with
  | [] => (Ok [], fs)
  | sol_path :: rest =>
      let sol_name := path_stem (Path sol_path) in
      let test_filename := pystr "test_" ++ sol_name ++ pystr ".py" in
      let test_path := path_div output_dir_path test_filename in
      match build_pytest_file test_cases sol_name (path_str test_path)
              func_name fs with
      | (Raise e, fs') => (Raise e, fs')
      | (Ok _, fs') =>
          match build_test_files test_cases rest output_dir_path func_name fs' with
          | (Raise e, fs'') => (Raise e, fs'')
          | (Ok test_paths, fs'') => (Ok (path_str test_path :: test_paths), fs'')
          end
      end
  end.

Definition create_test_suite_for_solutions (test_cases : list pyval)
    (solution_files : list str) (output_dir func_name : str) (fs : filesystem)
  : result (list str) * filesystem :=
  let output_dir_path := Path output_dir in
  if can_mkdir (path_str output_dir_path) then
    build_test_files test_cases solution_files output_dir_path func_name fs
  else (Raise PermissionError, fs).

End Utils.

(** ** extractor.py: reading the PDF *)

Section ExtractPdf.
Context {udb : UnicodeDB} {os : Platform}.

(** [fitz.open] and the loop over the pages. *)
Definition extract_pdf_to_text (pdf_path : str) (fs : filesystem) : result str :=
  match fs !! pdf_path with
  | None => Raise FileNotFoundError
  | Some f => Json.bind (pdf_get_text f) (fun texts => Ok (join [NL] texts))
  end.

Definition extract_and_parse (pdf_path : str) (fs : filesystem)
  : result (list (str * str)) :=
  Json.bind (extract_pdf_to_text pdf_path fs)
            (fun text => Ok (parse_problem_text text)).

End ExtractPdf.

(** ** app.py *)

(** The modules app.py imports that are not among these sources:
    [core.generator] and [core.validator]. Each function returns or
    raises. *)
Class CoreModules := {
  client : Type;
  LLMClient : str -> bool -> client;
  generate_solutions :
    list (str * str) -> str -> Z -> client -> result (list str);
  generate_test_cases :
    list (str * str) -> str -> Z -> client -> result (list pyval);
  validate_solutions : list str -> list pyval -> result (list (str * pyval))
}.

Inductive external_call : Type :=
| CallGenerateSolutions (n : Z)
| CallGenerateTestCases (solution : str) (max_tests : Z)
| CallValidateSolutions (solutions : list str) (test_cases : list pyval).

(** What a run shows and does, in order. A formatted string is kept as
    its parts, literal text and values. *)
Inductive event : Type :=
| StPageConfig
| StTitle (msg : str)
| StInfo (msg : str)
| StError (msg : str)
| StSpinner (msg : str)
| StSubheader (msg : str)
| StWarning (msg : str)
| StMarkdown (parts : list pyval)
| StCode (body language : str)
| StJson (v : pyval)
| StWrite (parts : list pyval)
| StExpander (label : str)
| StDownloadButton (label : str) (data : file) (file_name mime : str)
| Called (c : external_call).

Record world : Type := { w_fs : filesystem; w_events : list event }.

(** A step of the script: a result or an exception, and the world after. *)
Definition prog (A : Type) : Type := world -> result A * world.

Definition ret {A : Type} (a : A) : prog A := fun w => (Ok a, w).
Definition raise {A : Type} (e : exc) : prog A := fun w => (Raise e, w).
Definition seq {A B : Type} (m : prog A) (k : A -> prog B) : prog B :=
  fun w =>
    match m w with
    | (Ok a, w') => k a w'
    | (Raise e, w') => (Raise e, w')
    end.

Declare Scope prog_scope.
Delimit Scope prog_scope with prog.
Notation "x <- m ;; k" := (seq m (fun x => k))
  (at level 100, m at next level, k at level 200, right associativity)
  : prog_scope.
Notation "m ;; k" := (seq m (fun _ => k))
  (at level 100, k at level 200, right associativity) : prog_scope.
Local Open Scope prog_scope.

Definition show (e : event) : prog unit :=
  fun w => (Ok tt, {| w_fs := w_fs w; w_events := w_events w ++ [e] |}).

Definition on_files {A : Type} (f : filesystem -> result A * filesystem)
  : prog A :=
  fun w =>
    let '(r, fs') := f (w_fs w) in
    (r, {| w_fs := fs'; w_events := w_events w |}).

Definition read_files {A : Type} (f : filesystem -> result A) : prog A :=
  fun w => (f (w_fs w), w).

Definition of_result {A : Type} (r : result A) : prog A := fun w => (r, w).

(** [for x in l: body(x)] *)
Fixpoint for_each {A : Type} (l : list A) (body : A -> prog unit) : prog unit :=
  match l with
  | [] => ret tt
  | x :: rest => body x ;; for_each rest body
  end.

(** [for idx, x in enumerate(l): body(idx, x)], counting from [idx]. *)
Fixpoint for_enumerate {A : Type} (idx : nat) (l : list A)
    (body : nat -> A -> prog unit) : prog unit :=
  match l with
  | [] => ret tt
  | x :: rest => body idx x ;; for_enumerate (S idx) rest body
  end.

Fixpoint dict_find (key : str) (items : list (pyval * pyval)) : option pyval :=
  match items with
  | [] => None
  | (PStr k, v) :: rest => if decide (k = key) then Some v else dict_find key rest
  | _ :: rest => dict_find key rest
  end.

(** [d[key]] *)
Definition subscript (d : pyval) (key : str) : result pyval :=
  match d with
  | PDict items =>
      match dict_find key items with
      | Some v => Ok v
      | None => Raise KeyError
      end
  | _ => Raise TypeError
  end.

(** The items a [for] loop takes from a value. *)
Definition py_iter (v : pyval) : result (list pyval) :=
  match v with
  | PList l | PTuple l => Ok l
  | PDict d => Ok (map fst d)
  | PStr s => Ok (map (fun c => PStr [c]) s)
  | _ => Raise TypeError
  end.

Definition ascii_upper (c : N) : N := if ascii_islower c then c - 32 else c.

(** [key.capitalize()] on the section names, which are ASCII. *)
Definition capitalize (s : str) : str :=
  match s with
  | [] => []
  | c :: t => ascii_upper c :: map ascii_lower t
  end.

Definition ELLIPSIS : N := 8230.

(** The emoji of the title and of the demo-mode notice. *)
Definition TEST_TUBE : N := 129514.
Definition WARNING_SIGN : str := [9888; 65039].

(** [f"solution_{idx+1}.py"] *)
Definition solution_file_name (idx : nat) : str :=
  pystr "solution_" ++ Json.nat_str (N.of_nat (S idx)) ++ pystr ".py".

Section App.
Context {udb : UnicodeDB} {os : Platform} {core : CoreModules}.

Record upload : Type := { up_name : str; up_data : str }.

(** The widgets of the page. *)
Record inputs : Type := {
  pdf_file : option upload;
  template_file : option upload;
  num_solutions : Z;
  max_tests : Z;
  api_key : str;
  generate_button : bool
}.

(** The validation block: one heading, count line and detail list for
    each solution key, then the differential notices. *)
Definition show_validation (results : list (str * pyval)) : prog unit :=
  show (StSubheader (pystr "Validation Results")) ;;
  for_each results (fun kv =>
    if bool_decide (fst kv = pystr "differential") then ret tt
    else
      show (StMarkdown [PStr (pystr "#### "); PStr (fst kv)]) ;;
      passes <- of_result (subscript (snd kv) (pystr "passes")) ;;
      fails <- of_result (subscript (snd kv) (pystr "fails")) ;;
      show (StWrite [PStr (pystr "Passed: "); passes;
                     PStr (pystr " | Failed: "); fails]) ;;
      show (StExpander (pystr "Details")) ;;
      details <- of_result
        (Json.bind (subscript (snd kv) (pystr "details")) py_iter) ;;
      for_each details (fun detail => show (StWrite [detail]))) ;;
  match List.find (fun kv => bool_decide (fst kv = pystr "differential"))
                  results with
  | Some kv =>
      show (StSubheader (pystr "Consistency Between Solutions")) ;;
      diffs <- of_result (py_iter (snd kv)) ;;
      for_each diffs (fun diff => show (StWrite [diff]))
  | None => ret tt
  end.

(** The loop that writes the solution files and collects their paths. *)
Fixpoint write_solutions (work_dir : path) (idx : nat) (solutions : list str)
  : prog (list str) :=
  match solutions with
  | [] => ret []
  | sol :: rest =>
      let sol_path := path_div work_dir (solution_file_name idx) in
      on_files (write_text (path_str sol_path) sol) ;;
      paths <- write_solutions work_dir (S idx) rest ;;
      ret (path_str sol_path :: paths)
  end.

(** [files_to_zip] *)
Definition files_to_zip (solution_paths test_files : list str)
  : list (str * str) :=
  map (fun sol_path => (path_name (Path sol_path), sol_path)) solution_paths
  ++ map (fun test_path =>
            (pystr "tests/" ++ path_name (Path test_path), test_path))
         test_files.

(** The packaging block under [with st.spinner("Building test package")]:
    the name and the path of the archive. *)
Definition build_package (pdf_name : str) (solutions : list str)
    (test_cases : list pyval) : prog (str * path) :=
  show (StSpinner (pystr "Building test package" ++ [ELLIPSIS])) ;;
  let work_dir := Path gettempdir in
  solution_paths <- write_solutions work_dir 0 solutions ;;
  let tests_dir := path_div work_dir (pystr "tests") in
  test_files <- on_files
    (create_test_suite_for_solutions test_cases solution_paths
       (path_str tests_dir) (pystr "solve")) ;;
  let zip_name := slugify pdf_name false ++ pystr "_suite.zip" in
  let zip_path := path_div work_dir zip_name in
  on_files (make_zipfile (files_to_zip solution_paths test_files)
                         (path_str zip_path)) ;;
  ret (zip_name, zip_path).

(** [with open(zip_path, "rb") as f: st.download_button(...)] *)
Definition offer_download (zip_name : str) (zip_path : path) : prog unit :=
  show (StSubheader (pystr "Download Test Suite")) ;;
  data <- read_files (fun fs =>
    match fs !! path_str zip_path with
    | Some f => Ok f
    | None => Raise FileNotFoundError
    end) ;;
  show (StDownloadButton (pystr "Download ZIP") data zip_name
                         (pystr "application/zip")).

(** The body of [if st.button("Generate")] when both files are there. *)
Definition generate (inp : inputs) (mock_mode : bool) (pdf template : upload)
  : prog unit :=
  show (StSpinner (pystr "Extracting and analyzing the statement" ++ [ELLIPSIS])) ;;
  let pdf_path := path_div (Path gettempdir) (up_name pdf) in
  on_files (write_bytes (path_str pdf_path) (up_data pdf)) ;;
  problem_data <- read_files (extract_and_parse (path_str pdf_path)) ;;
  show (StSubheader (pystr "Extracted Statement")) ;;
  for_each problem_data (fun kv =>
    match snd kv with
    | [] => ret tt
    | value =>
        show (StMarkdown [PStr (pystr "**" ++ capitalize (fst kv) ++ pystr "**:"
                                ++ [NL] ++ value)])
    end) ;;
  template_code <- of_result (utf8_decode (up_data template)) ;;
  show (StSubheader (pystr "Code Template")) ;;
  show (StCode template_code (pystr "python")) ;;
  show (StSpinner (pystr "Generating solutions" ++ [ELLIPSIS])) ;;
  let client := LLMClient (api_key inp) mock_mode in
  show (Called (CallGenerateSolutions (num_solutions inp))) ;;
  solutions <- of_result
    (generate_solutions problem_data template_code (num_solutions inp) client) ;;
  show (StSubheader (pystr "Generated Solutions")) ;;
  for_enumerate 0 solutions (fun idx sol =>
    show (StMarkdown [PStr (pystr "### Solution "); PInt (Z.of_nat (S idx))]) ;;
    show (StCode sol (pystr "python"))) ;;
  show (StSpinner (pystr "Generating test cases" ++ [ELLIPSIS])) ;;
  first_solution <- match solutions with
                    | [] => raise IndexError
                    | sol :: _ => ret sol
                    end ;;
  show (Called (CallGenerateTestCases first_solution (max_tests inp))) ;;
  test_cases <- of_result
    (generate_test_cases problem_data first_solution (max_tests inp) client) ;;
  show (StSubheader (pystr "Proposed Test Cases")) ;;
  match test_cases with
  | [] => show (StWarning (pystr "Could not generate test cases automatically."))
  | _ => for_each test_cases (fun tc => show (StJson tc))
  end ;;
  match test_cases with
  | [] => ret tt
  | _ =>
      show (StSpinner (pystr "Validating solutions" ++ [ELLIPSIS])) ;;
      show (Called (CallValidateSolutions solutions test_cases)) ;;
      results <- of_result (validate_solutions solutions test_cases) ;;
      show_validation results
  end ;;
  match test_cases with
  | [] => ret tt
  | _ =>
      package <- build_package (up_name pdf) solutions test_cases ;;
      offer_download (fst package) (snd package)
  end.

(** The script, run once from top to bottom. *)
Definition app (inp : inputs) : prog unit :=
  show StPageConfig ;;
  show (StTitle ([TEST_TUBE; 32] ++ pystr "Automatic Solution and Test Generator")) ;;
  show (StMarkdown [PStr (pystr "Upload an exercise statement in PDF format and a Python code template with the function signature to implement.  The system will attempt to extract the text, generate candidate implementations using a language model and create a test suite.")]) ;;
  mock_mode <- match api_key inp with
               | [] =>
                   show (StInfo (WARNING_SIGN ++ pystr " No API key provided. Demo mode will be used with simulated responses.")) ;;
                   ret true
               | _ => ret false
               end ;;
  if generate_button inp then
    match pdf_file inp, template_file inp with
    | Some pdf, Some template => generate inp mock_mode pdf template
    | _, _ =>
        show (StError (pystr "You must select a PDF and a code template before continuing."))
    end
  else ret tt.

End App.

(** *** What the loops of a run show *)

Definition add_events (w : world) (es : list event) : world :=
  {| w_fs := w_fs w; w_events := w_events w ++ es |}.

(** The statement loop: one markdown block for each non-empty section. *)
Definition section_events (kv : str * str) : list event :=
  match snd kv with
  | [] => []
  | value =>
      [StMarkdown [PStr (pystr "**" ++ capitalize (fst kv) ++ pystr "**:"
                         ++ [NL] ++ value)]]
  end.

(** The solutions loop, counting from [idx]. *)
Fixpoint solution_events (idx : nat) (solutions : list str) : list event :=
  match solutions with
  | [] => []
  | sol :: rest =>
      [StMarkdown [PStr (pystr "### Solution "); PInt (Z.of_nat (S idx))];
       StCode sol (pystr "python")] ++ solution_events (S idx) rest
  end.

(** Everything shown up to the call of [generate_test_cases]. *)
Definition events_before_tests (problem_data : list (str * str))
    (template_code : str) (n : Z) (solutions : list str) : list event :=
  [StSpinner (pystr "Extracting and analyzing the statement" ++ [ELLIPSIS]);
   StSubheader (pystr "Extracted Statement")]
  ++ flat_map section_events problem_data
  ++ [StSubheader (pystr "Code Template");
      StCode template_code (pystr "python");
      StSpinner (pystr "Generating solutions" ++ [ELLIPSIS]);
      Called (CallGenerateSolutions n);
      StSubheader (pystr "Generated Solutions")]
  ++ solution_events 0 solutions
  ++ [StSpinner (pystr "Generating test cases" ++ [ELLIPSIS])].

(** A message that tells the user of a shortfall. *)
Definition is_notice (e : event) : bool :=
  match e with
  | StWarning _ | StError _ | StInfo _ => true
  | _ => false
  end.

(** Validation, a written solution or test file, an archive, a download. *)
Definition is_validation_or_packaging (e : event) : bool :=
  match e with
  | Called (CallValidateSolutions _ _) => true
  | StDownloadButton _ _ _ _ => true
  | StSpinner msg =>
      bool_decide (msg = pystr "Validating solutions" ++ [ELLIPSIS])
      || bool_decide (msg = pystr "Building test package" ++ [ELLIPSIS])
  | _ => false
  end.

(** A generator and validator for trying the script: [n] copies of a
    fixed solution, the given test cases, every solution passing. *)
Module Demo.

Definition solution_text : str :=
  pystr "def solve(a, b):" ++ [NL] ++ pystr "    return a + b" ++ [NL].

Definition core (n_solutions : nat) (test_cases : list pyval) : CoreModules :=
  {| client := unit;
     LLMClient := fun _ _ => tt;
     generate_solutions := fun _ _ _ _ => Ok (repeat solution_text n_solutions);
     generate_test_cases := fun _ _ _ _ => Ok test_cases;
     validate_solutions := fun _ _ => Ok [] |}.

Definition pdf : upload :=
  {| up_name := pystr "My Exercise #1.pdf";
     up_data := pystr "Statement" ++ [NL] ++ pystr "Add two numbers." |}.

Definition template : upload :=
  {| up_name := pystr "template.py";
     up_data := pystr "def solve(a, b): ..." |}.

Definition inp : inputs :=
  {| pdf_file := Some pdf; template_file := Some template;
     num_solutions := 2; max_tests := 10; api_key := [];
     generate_button := true |}.

Definition addition_case : pyval :=
  PDict [(PStr (pystr "input"), PList [PInt 2; PInt 3]);
         (PStr (pystr "expected"), PInt 5)].

Definition empty_world : world := {| w_fs := ∅; w_events := [] |}.

End Demo.

(** The names of the archive of [n] solutions. *)
Definition test_file_name (idx : nat) : str :=
  pystr "test_solution_" ++ Json.nat_str (N.of_nat (S idx)) ++ pystr ".py".

Definition archive_names (n : nat) : list str :=
  map solution_file_name (List.seq 0 n)
  ++ map (fun idx => pystr "tests/" ++ test_file_name idx) (List.seq 0 n).

(** A single path component that is a plain file name. *)
Definition plain_name (name : str) : Prop :=
  Forall (fun c => c <> SLASH) name /\ name <> [] /\ name <> [DOT]
  /\ name <> [DOT; DOT].

(** ** Sample inputs *)

Definition spec_example_text : str :=
  pystr "Problem" ++ [NL] ++ pystr "Do the thing." ++ [NL] ++ pystr "Input"
  ++ [NL] ++ pystr "An integer n." ++ [NL] ++ pystr "Output" ++ [NL]
  ++ pystr "n squared.".

Definition json_sample : pyval :=
  PDict [(PStr (pystr "name"), PStr (pystr "a" ++ [34; 233; 10; 128512; 0; 92]));
         (PStr (pystr "xs"), PList [PInt 0; PInt (-12); PInt 305; PNone;
                                    PBool false; PList []; PDict []]);
         (PStr [], PDict [(PStr (pystr "k"), PList [PList [PStr []]])])].

Definition null_input_cases : list pyval :=
  [PDict [(PStr (pystr "input"), PNone); (PStr (pystr "expected"), PInt 1)]].

Definition null_input_table : str :=
  pystr "[" ++ [NL] ++ pystr "  [" ++ [NL] ++ pystr "    null," ++ [NL]
  ++ pystr "    1" ++ [NL] ++ pystr "  ]" ++ [NL] ++ pystr "]".

Definition no_input_cases : list pyval :=
  [PDict [(PStr (pystr "expected"), PInt 1)]].

Definition no_expected_cases : list pyval :=
  [PDict [(PStr (pystr "input"), PList [PInt 2; PInt 3])]].

Definition no_expected_table : str :=
  pystr "[" ++ [NL] ++ pystr "  [" ++ [NL] ++ pystr "    [" ++ [NL]
  ++ pystr "      2," ++ [NL] ++ pystr "      3" ++ [NL] ++ pystr "    ],"
  ++ [NL] ++ pystr "    null" ++ [NL] ++ pystr "  ]" ++ [NL] ++ pystr "]".

(** ** The values that JSON has: what [json.load] can give back *)

(** [_iterencode_list] and [_iterencode_dict] after the opening bracket,
    as functions of their own. *)
Definition iterencode_list_items (ensure_ascii : bool) (level : nat)
  : bool -> list pyval -> emit :=
  fix encode_items (first : bool) (l : list pyval) {struct l} : emit :=
    match l with
    | [] => emit_str []
    | v :: rest =>
        emit_seq
          (emit_str (if first then [] else 44 :: Json.newline_indent (S level)))
          (emit_seq (Json.iterencode ensure_ascii (S level) v)
                    (encode_items false rest))
    end.

Definition iterencode_dict_items (ensure_ascii : bool) (level : nat)
  : bool -> list (pyval * pyval) -> emit :=
  fix encode_pairs (first : bool) (l : list (pyval * pyval)) {struct l} : emit :=
    match l with
    | [] => emit_str []
    | (k, v) :: rest =>
        match Json.encode_key ensure_ascii k with
        | Raise e => emit_raise e
        | Ok key =>
            emit_seq
              (emit_str ((if first then [] else 44 :: Json.newline_indent (S level))
                         ++ key ++ [58; 32]))
              (emit_seq (Json.iterencode ensure_ascii (S level) v)
                        (encode_pairs false rest))
        end
    end.

Definition str_key (kv : pyval * pyval) : option str :=
  match fst kv with PStr k => Some k | _ => None end.

(** None, booleans, integers, strings, lists, and dicts whose keys are
    strings that differ from one another; no tuple and no other object.
    Strings hold no lone surrogate, which a UTF-8 file cannot hold. *)
Fixpoint json_native (v : pyval) : bool :=
  match v with
  | PNone | PBool _ | PInt _ => true
  | PStr s => negb (existsb is_surrogate s)
  | PList l => forallb json_native l
  | PDict d =>
      forallb (fun kv =>
                 match fst kv with
                 | PStr k => negb (existsb is_surrogate k)
                 | _ => false
                 end && json_native (snd kv)) d
      && bool_decide (NoDup (map str_key d))
  | PTuple _ | PObject _ => false
  end.

(** Induction on a value, with the property for the items of a list, a
    tuple or a dict. *)
Section PyvalInduction.
Variable P : pyval -> Prop.
Hypothesis HNone : P PNone.
Hypothesis HBool : forall b, P (PBool b).
Hypothesis HInt : forall z, P (PInt z).
Hypothesis HStr : forall s, P (PStr s).
Hypothesis HList : forall l, Forall P l -> P (PList l).
Hypothesis HTuple : forall l, Forall P l -> P (PTuple l).
Hypothesis HDict :
  forall d, Forall (fun kv => P (fst kv) /\ P (snd kv)) d -> P (PDict d).
Hypothesis HObject : forall what, P (PObject what).

Fixpoint pyval_induction (v : pyval) : P v :=
  match v with
  | PNone => HNone
  | PBool b => HBool b
  | PInt z => HInt z
  | PStr s => HStr s
  | PList l =>
      HList l ((fix items (l : list pyval) : Forall P l :=
                  match l with
                  | [] => List.Forall_nil P
                  | x :: rest => @List.Forall_cons _ P x rest (pyval_induction x) (items rest)
                  end) l)
  | PTuple l =>
      HTuple l ((fix items (l : list pyval) : Forall P l :=
                   match l with
                   | [] => List.Forall_nil P
                   | x :: rest => @List.Forall_cons _ P x rest (pyval_induction x) (items rest)
                   end) l)
  | PDict d =>
      HDict d ((fix items (d : list (pyval * pyval))
                  : Forall (fun kv => P (fst kv) /\ P (snd kv)) d :=
                  match d with
                  | [] => List.Forall_nil _
                  | (k, v) :: rest =>
                      @List.Forall_cons _ _ (k, v) rest
                        (conj (pyval_induction k) (pyval_induction v))
                        (items rest)
                  end) d)
  | PObject what => HObject what
  end.

End PyvalInduction.

(** What may follow a value in a document: nothing, a comma or a line
    break. *)
Definition delimited (rest : str) : Prop :=
  match rest with
  | [] => True
  | c :: _ => c = 44 \/ c = 10
  end.

(** The first character of the text of a value: no white space and no
    closing bracket. *)
Definition starts_value (s : str) : Prop :=
  match s with
  | [] => False
  | c :: _ => Json.is_ws c = false /\ c <> 93 /\ c <> 125
  end.

(** A character that a UTF-8 text file gives back as it was written: no
    carriage return, no lone surrogate. *)
Definition clean_char (c : N) : Prop := c <> 13 /\ is_surrogate c = false.

(** The text of [d] at every level of nesting is read back as [d]. *)
Definition reads_back (d : pyval) : Prop :=
  json_native d = true ->
  forall level : nat, exists s : str,
    Json.iterencode false level d = (s, None)
    /\ starts_value s /\ Forall clean_char s
    /\ forall (fuel : nat) (rest : str),
         (length s <= fuel)%nat -> delimited rest ->
         Json.scan_once Json.json_dialect fuel (s ++ rest) = Ok (d, rest).

(** A document with every kind of value, nested. *)
Definition native_sample : pyval :=
  PDict [(PStr (pystr "title"), PStr (pystr "Sum of two"));
         (PStr (pystr "cases"),
          PList [PDict [(PStr (pystr "input"), PList [PInt 2; PInt (-3)]);
                        (PStr (pystr "expected"), PInt (-1))];
                 PDict [(PStr (pystr "input"), PNone);
                        (PStr (pystr "expected"), PBool true)]]);
         (PStr (pystr "tags"), PList [])].

(** Two values that [json.dump] accepts and that have no like in JSON:
    a tuple, and a dict with an integer key. *)
Definition tuple_sample : pyval :=
  PDict [(PStr (pystr "point"), PTuple [PInt 1; PInt 2])].

Definition int_key_sample : pyval := PDict [(PInt 1, PStr (pystr "a"))].

(** ** Further properties: auxiliary definitions *)

(** The names of the sections, in the order of [SECTION_PATTERNS]. *)
Definition section_names : list str := map fst SECTION_PATTERNS.

(** A slug: lowercase ASCII letters, digits and underscores, with no
    underscore at either end. *)
Definition is_slug (s : str) : Prop :=
  Forall (fun c => slug_char c = true) s
  /\ head s <> Some UNDERSCORE /\ last s <> Some UNDERSCORE.

(** The lines of a text that are not blank, stripped. *)
Definition content_lines {udb : UnicodeDB} (text : str) : list str :=
  List.filter (fun line => negb (bool_decide (line = [])))
              (map (strip re_space) (splitlines text)).

(** A platform on which only what lies under [/tmp/] can be written. *)
Definition tmp_only : Platform :=
  {| can_write := fun p =>
       match strip_prefix (pystr "/tmp/") p with Some _ => true | None => false end;
     can_mkdir := fun p =>
       match strip_prefix (pystr "/tmp/") p with Some _ => true | None => false end;
     gettempdir := pystr "/tmp";
     pdf_get_text := @pdf_get_text Posix.os;
     utf8_decode := @utf8_decode Posix.os |}.

(** [isinstance(v, dict)] *)
Definition is_dict (v : pyval) : bool :=
  match v with PDict _ => true | _ => false end.

(** A test case whose input is a function: nothing JSON can hold. *)
Definition function_case : pyval :=
  PDict [(PStr (pystr "input"), PObject (pystr "function"));
         (PStr (pystr "expected"), PInt 1)].

(** What every run shows first: the page, and the demo-mode notice when
    no key is given. *)
Definition page_events (key : str) : list event :=
  [StPageConfig;
   StTitle ([TEST_TUBE; 32] ++ pystr "Automatic Solution and Test Generator");
   StMarkdown [PStr (pystr "Upload an exercise statement in PDF format and a Python code template with the function signature to implement.  The system will attempt to extract the text, generate candidate implementations using a language model and create a test suite.")]]
  ++ match key with
     | [] => [StInfo (WARNING_SIGN ++ pystr " No API key provided. Demo mode will be used with simulated responses.")]
     | _ => []
     end.

(** Both files are there. *)
Definition uploads_complete {udb : UnicodeDB} {os : Platform}
    {core : CoreModules} (inp : inputs) : bool :=
  match pdf_file inp, template_file inp with
  | Some _, Some _ => true
  | _, _ => false
  end.

(** A platform whose PDF reader wants the signature [%PDF] at the start
    of the file. *)
Definition pdf_checking : Platform :=
  {| can_write := fun _ => true;
     can_mkdir := fun _ => true;
     gettempdir := pystr "/tmp";
     pdf_get_text := fun f =>
       match f with
       | Text s =>
           match strip_prefix (pystr "%PDF") s with
           | Some body => Ok (Posix.split_pages [] body)
           | None => Raise (ExternalError (pystr "not a PDF"))
           end
       | Archive _ => Raise (ExternalError (pystr "not a PDF"))
       end;
     utf8_decode := @utf8_decode Posix.os |}.

(** A generator that answers with what it is given, results or errors. *)
Definition failing_generator (solutions : result (list str))
    (test_cases : result (list pyval)) : CoreModules :=
  {| client := unit;
     LLMClient := fun _ _ => tt;
     generate_solutions := fun _ _ _ _ => solutions;
     generate_test_cases := fun _ _ _ _ => test_cases;
     validate_solutions := fun _ _ => Ok [] |}.

(** A character of the Basic Multilingual Plane: one [\uXXXX] escape. *)
Definition is_bmp (c : N) : bool := c <? 65536.

(** The values that mean the same in a Python source file as in JSON:
    integers, strings of BMP characters, lists and tuples, and dicts
    whose keys are such strings that differ from one another. *)
Fixpoint py_plain (v : pyval) : bool :=
  match v with
  | PInt _ => true
  | PStr s => forallb is_bmp s
  | PList l | PTuple l => forallb py_plain l
  | PDict d =>
      forallb (fun kv =>
                 match fst kv with
                 | PStr k => forallb is_bmp k
                 | _ => false
                 end && py_plain (snd kv)) d
      && bool_decide (NoDup (map str_key d))
  | PNone | PBool _ | PObject _ => false
  end.

(** A value as it comes back from its JSON text: every tuple has become
    a list. *)
Fixpoint as_lists (v : pyval) : pyval :=
  match v with
  | PList l | PTuple l => PList (map as_lists l)
  | PDict d => PDict (map (fun kv => (fst kv, as_lists (snd kv))) d)
  | other => other
  end.

(** The text of [v] with [ensure_ascii], at every level of nesting, is
    an expression that the interpreter evaluates to [as_lists v]. *)
Definition evaluates_back (env : list (str * pyval)) (v : pyval) : Prop :=
  py_plain v = true ->
  forall level : nat, exists s : str,
    Json.iterencode true level v = (s, None)
    /\ starts_value s /\ Forall clean_char s
    /\ forall (fuel : nat) (rest : str),
         (length s <= fuel)%nat -> delimited rest ->
         Json.scan_once (python_dialect env) fuel (s ++ rest)
         = Ok (as_lists v, rest).

(** A test case with both keys. *)
Definition case_of (input expected : pyval) : pyval :=
  PDict [(PStr (pystr "input"), input); (PStr (pystr "expected"), expected)].

(** [sections] before the first line. *)
Definition initial_sections : list (str * list str) :=
  map (fun kp => (fst kp, [])) SECTION_PATTERNS.

(** A step of the script after which every file that was there is still
    there, however the step ends. *)
Definition keeps_files {A : Type} (m : prog A) : Prop :=
  forall (w : world) (p : str),
    is_Some (w_fs w !! p) -> is_Some (w_fs (snd (m w)) !! p).

(** The same for a function on the file system. *)
Definition keeps_paths {A : Type} (f : filesystem -> result A * filesystem)
  : Prop :=
  forall (fs : filesystem) (p : str),
    is_Some (fs !! p) -> is_Some (snd (f fs) !! p).
(** ** Facts about stripping and run replacement *)

Section StripFacts.
Variable p : N -> bool.

Lemma dropwhile_split (s : str) :
  exists pre, s = pre ++ dropwhile p s /\ Forall (fun c => p c = true) pre.
Proof.
  induction s as [|c t [pre [E F]]]; simpl.
  - exists []. split; [reflexivity | constructor].
  - destruct (p c) eqn:Hc.
    + exists (c :: pre). split; [simpl; congruence | constructor; assumption].
    + exists []. split; [reflexivity | constructor].
Qed.

Lemma head_dropwhile (s : str) (c : N) :
  head (dropwhile p s) = Some c -> p c = false.
Proof.
  induction s as [|d t IH]; simpl; [discriminate |].
  destruct (p d) eqn:Hd; [exact IH |].
  simpl. intros [= <-]. exact Hd.
Qed.

Lemma dropwhile_id (s : str) :
  (forall c, head s = Some c -> p c = false) -> dropwhile p s = s.
Proof.
  destruct s as [|d t]; simpl; [reflexivity |].
  intros H. rewrite (H d eq_refl). reflexivity.
Qed.

Lemma Forall_dropwhile (P : N -> Prop) (s : str) :
  Forall P s -> Forall P (dropwhile p s).
Proof.
  induction 1 as [|c t Hc Ht IH]; simpl; [constructor |].
  destruct (p c); [exact IH | constructor; assumption].
Qed.

Lemma rstrip_split (s : str) :
  exists suf, s = rstrip p s ++ suf /\ Forall (fun c => p c = true) suf.
Proof.
  unfold rstrip.
  destruct (dropwhile_split (rev s)) as [pre [E F]].
  exists (rev pre). split.
  - rewrite <- rev_app_distr, <- E. symmetry. apply rev_involutive.
  - apply List.Forall_forall. intros x Hx. apply List.in_rev in Hx.
    rewrite List.Forall_forall in F. exact (F x Hx).
Qed.

Lemma last_rev_head (s : str) : last (rev s) = head s.
Proof.
  destruct s as [|c t]; simpl; [reflexivity |]. apply last_snoc.
Qed.

Lemma head_rev_last (s : str) : head (rev s) = last s.
Proof. rewrite <- (rev_involutive s) at 2. symmetry. apply last_rev_head. Qed.

Lemma last_rstrip (s : str) (c : N) :
  last (rstrip p s) = Some c -> p c = false.
Proof. unfold rstrip. rewrite last_rev_head. apply head_dropwhile. Qed.

Lemma head_rstrip (s : str) (c : N) :
  head (rstrip p s) = Some c -> head s = Some c.
Proof.
  destruct (rstrip_split s) as [suf [E _]]. intros H.
  rewrite E. destruct (rstrip p s); [discriminate | exact H].
Qed.

Lemma Forall_rstrip (P : N -> Prop) (s : str) :
  Forall P s -> Forall P (rstrip p s).
Proof.
  intros H. destruct (rstrip_split s) as [suf [E _]].
  rewrite E in H. apply Forall_app in H. tauto.
Qed.

Lemma head_strip (s : str) (c : N) :
  head (strip p s) = Some c -> p c = false.
Proof.
  unfold strip, lstrip. intros H. apply head_rstrip in H.
  exact (head_dropwhile _ _ H).
Qed.

Lemma last_strip (s : str) (c : N) :
  last (strip p s) = Some c -> p c = false.
Proof. apply last_rstrip. Qed.

Lemma Forall_strip (P : N -> Prop) (s : str) :
  Forall P s -> Forall P (strip p s).
Proof. intros H. apply Forall_rstrip, Forall_dropwhile, H. Qed.

Lemma strip_id (s : str) :
  (forall c, head s = Some c -> p c = false) ->
  (forall c, last s = Some c -> p c = false) ->
  strip p s = s.
Proof.
  intros Hh Hl. unfold strip, lstrip, rstrip.
  rewrite (dropwhile_id s Hh).
  rewrite dropwhile_id; [apply rev_involutive |].
  intros c. rewrite head_rev_last. apply Hl.
Qed.

(** A stripped string is a contiguous part of the original. *)
Lemma strip_infix (s : str) : exists l r, s = l ++ strip p s ++ r.
Proof.
  unfold strip, lstrip.
  destruct (dropwhile_split s) as [pre [E _]].
  destruct (rstrip_split (dropwhile p s)) as [suf [E' _]].
  exists pre, suf. rewrite <- E'. exact E.
Qed.

End StripFacts.

Section SubFacts.
Variable cls : N -> bool.

Lemma sub_runs_Forall (P : N -> Prop) (repl s : str) (b : bool) :
  Forall P repl -> Forall P s -> Forall P (sub_runs cls repl b s).
Proof.
  intros Hr Hs. revert b.
  induction Hs as [|c t Hc Ht IH]; intros b; simpl; [constructor |].
  destruct (cls c).
  - destruct b; [apply IH | apply Forall_app; split; [exact Hr | apply IH]].
  - constructor; [exact Hc | apply IH].
Qed.

(** Characters of the class survive only if the replacement has them. *)
Lemma sub_runs_class (repl s : str) (b : bool) (c : N) :
  In c (sub_runs cls repl b s) -> cls c = true -> In c repl.
Proof.
  revert b. induction s as [|d t IH]; intros b; simpl; [tauto |].
  destruct (cls d) eqn:Hd.
  - destruct b; [apply IH |].
    intros H Hc. apply in_app_or in H. destruct H; [assumption | eauto].
  - intros [<- | H] Hc; [congruence | eauto].
Qed.

Lemma sub_runs_id (repl s : str) (b : bool) :
  Forall (fun c => cls c = false) s -> sub_runs cls repl b s = s.
Proof.
  intros H. revert b. induction H as [|c t Hc Ht IH]; intros b; simpl;
    [reflexivity |].
  rewrite Hc, IH. reflexivity.
Qed.

Lemma sub_delete_Forall (P : N -> Prop) (s : str) :
  Forall P s -> Forall P (sub_delete cls s).
Proof.
  unfold sub_delete. induction 1 as [|c t Hc Ht IH]; [constructor |].
  rewrite filter_cons. case_decide; [constructor |]; assumption.
Qed.

Lemma sub_delete_class (s : str) :
  Forall (fun c => cls c = false) (sub_delete cls s).
Proof.
  unfold sub_delete. induction s as [|c t IH]; [constructor |].
  rewrite filter_cons. case_decide; [constructor |]; assumption.
Qed.

Lemma sub_delete_id (s : str) :
  Forall (fun c => cls c = false) s -> sub_delete cls s = s.
Proof.
  unfold sub_delete. induction 1 as [|c t Hc Ht IH]; [reflexivity |].
  rewrite filter_cons. case_decide; [f_equal; exact IH | contradiction].
Qed.

End SubFacts.

(** ** Properties of slugify *)

(** Decides the boolean comparisons on code points left in the goal. *)
Ltac code_point_cases :=
  repeat (match goal with
          | |- context [N.leb ?a ?b] => destruct (N.leb_spec a b)
          | |- context [N.ltb ?a ?b] => destruct (N.ltb_spec a b)
          | |- context [N.eqb ?a ?b] => destruct (N.eqb_spec a b)
          | H : context [N.leb ?a ?b] |- _ => destruct (N.leb_spec a b)
          | H : context [N.ltb ?a ?b] |- _ => destruct (N.ltb_spec a b)
          | H : context [N.eqb ?a ?b] |- _ => destruct (N.eqb_spec a b)
          end; try lia);
  simpl in *; try congruence; try lia.

Section SlugifyFacts.
Context {udb : UnicodeDB}.

Lemma slug_char_ascii (c : N) : slug_char c = true -> is_ascii c = true.
Proof.
  unfold slug_char, is_ascii, ascii_islower, ascii_isdigit, UNDERSCORE.
  code_point_cases.
Qed.

Lemma slug_char_no_space (c : N) :
  slug_char c = true -> space_or_hyphen c = false.
Proof.
  unfold slug_char, space_or_hyphen, re_space, is_ascii,
    ascii_isspace, ascii_islower, ascii_isdigit, UNDERSCORE, HYPHEN.
  code_point_cases.
Qed.

Lemma slug_char_word (c : N) : slug_char c = true -> not_word c = false.
Proof.
  unfold slug_char, not_word, re_word, is_ascii, ascii_isalnum,
    ascii_islower, ascii_isupper, ascii_isdigit, UNDERSCORE.
  code_point_cases.
Qed.

Lemma slug_char_lower (c : N) : slug_char c = true -> ascii_lower c = c.
Proof.
  unfold slug_char, ascii_lower, ascii_islower, ascii_isupper, ascii_isdigit,
    UNDERSCORE.
  code_point_cases.
Qed.

Lemma ascii_word_lower (c : N) :
  is_ascii c = true -> not_word c = false -> slug_char (ascii_lower c) = true.
Proof.
  unfold slug_char, not_word, re_word, is_ascii, ascii_isalnum,
    ascii_lower, ascii_islower, ascii_isupper, ascii_isdigit, UNDERSCORE.
  code_point_cases.
Qed.

Lemma forallb_Forall_true (f : N -> bool) (s : str) :
  Forall (fun c => f c = true) s -> forallb f s = true.
Proof.
  induction 1 as [|c t Hc _ IH]; simpl; [reflexivity |].
  rewrite Hc. exact IH.
Qed.

Lemma lower_ascii (s : str) :
  Forall (fun c => is_ascii c = true) s -> lower s = map ascii_lower s.
Proof.
  intros H. unfold lower. rewrite forallb_Forall_true; auto.
Qed.

Lemma ascii_ignore_ascii (s : str) :
  Forall (fun c => is_ascii c = true) (ascii_ignore s).
Proof.
  unfold ascii_ignore. induction s as [|c t IH]; [constructor |].
  rewrite filter_cons. case_decide; [constructor |]; assumption.
Qed.

Lemma ascii_ignore_id (s : str) :
  Forall (fun c => is_ascii c = true) s -> ascii_ignore s = s.
Proof.
  unfold ascii_ignore. induction 1 as [|c t Hc _ IH]; [reflexivity |].
  rewrite filter_cons. case_decide; [f_equal; exact IH | contradiction].
Qed.

Lemma map_fixed (f : N -> N) (s : str) :
  Forall (fun c => f c = c) s -> map f s = s.
Proof.
  induction 1 as [|c t Hc _ IH]; simpl; [reflexivity |]. congruence.
Qed.

(** Shape of every slug produced in ASCII mode. *)
Lemma slugify_ascii_shape (s : str) :
  Forall (fun c => slug_char c = true) (slugify s false)
  /\ head (slugify s false) <> Some UNDERSCORE
  /\ last (slugify s false) <> Some UNDERSCORE.
Proof.
  unfold slugify. simpl negb. cbv iota.
  set (v1 := sub_runs _ _ _ _).
  assert (A1 : Forall (fun c => is_ascii c = true) v1).
  { apply sub_runs_Forall; [repeat constructor | apply ascii_ignore_ascii]. }
  set (v2 := sub_delete _ v1).
  assert (A2 : Forall (fun c => is_ascii c = true) v2)
    by (apply sub_delete_Forall; exact A1).
  assert (W2 : Forall (fun c => not_word c = false) v2)
    by apply sub_delete_class.
  rewrite (lower_ascii v2 A2).
  split; [| split].
  - apply Forall_strip, List.Forall_forall. intros c Hc.
    apply List.in_map_iff in Hc. destruct Hc as [d [<- Hd]].
    rewrite List.Forall_forall in A2, W2.
    apply ascii_word_lower; auto.
  - intros H. apply head_strip in H. discriminate.
  - intros H. apply last_strip in H. discriminate.
Qed.

(** C4: in ASCII mode slugify is a total function whose result holds only
    lowercase ASCII letters, digits and underscores, with no underscore
    at either end; the empty string gives the empty string and
    slugify("My Exercise #1!") is "my_exercise_1". *)
Theorem slugify_ascii_safe (s : str) :
  Forall (fun c => slug_char c = true) (slugify s false)
  /\ head (slugify s false) <> Some UNDERSCORE
  /\ last (slugify s false) <> Some UNDERSCORE
  /\ slugify [] false = []
  /\ slugify (pystr "My Exercise #1!") false = pystr "my_exercise_1".
Proof.
  destruct (slugify_ascii_shape s) as [H1 [H2 H3]].
  repeat split; try assumption; reflexivity.
Qed.

(** A string of slug characters without underscores at its ends is left
    alone by every step. *)
Lemma slugify_fixed (r : str) :
  Forall (fun c => slug_char c = true) r ->
  head r <> Some UNDERSCORE -> last r <> Some UNDERSCORE ->
  slugify r false = r.
Proof.
  intros F Hh Hl. unfold slugify. simpl negb. cbv iota.
  assert (A : Forall (fun c => is_ascii c = true) r)
    by (eapply Forall_impl; [exact F | apply slug_char_ascii]).
  rewrite (ascii_ignore_id r A).
  rewrite sub_runs_id
    by (eapply Forall_impl; [exact F | apply slug_char_no_space]).
  rewrite sub_delete_id
    by (eapply Forall_impl; [exact F | apply slug_char_word]).
  rewrite (lower_ascii r A).
  rewrite map_fixed
    by (eapply Forall_impl; [exact F | apply slug_char_lower]).
  apply strip_id; intros c Hc; unfold is_underscore;
    destruct (N.eqb_spec c UNDERSCORE); congruence.
Qed.

(** C8: slugify is idempotent in ASCII mode. *)
Theorem slugify_idempotent (s : str) :
  slugify (slugify s false) false = slugify s false.
Proof.
  destruct (slugify_ascii_shape s) as [H1 [H2 H3]].
  apply slugify_fixed; assumption.
Qed.

End SlugifyFacts.

(** ** slugify with allow_unicode *)

Section SlugifyUnicode.
Context {udb : UnicodeDB}.

(** What the proofs use of the character database: white space is not
    alphanumeric, lowercasing brings in no white space or hyphen, and a
    lowercased text has nothing left to lowercase. *)
Hypothesis uni_space_not_alnum :
  forall c, uni_isspace c = true -> uni_isalnum c = false.
Hypothesis uni_lower_fresh :
  forall s c, In c (uni_lower s) -> space_or_hyphen c = true -> In c s.
Hypothesis uni_lower_stable :
  forall s l m r, uni_lower s = l ++ m ++ r -> lower m = m.

Lemma word_no_space (c : N) : not_word c = false -> space_or_hyphen c = false.
Proof.
  unfold not_word, space_or_hyphen, re_word, re_space.
  destruct (is_ascii c) eqn:A.
  - unfold is_ascii, ascii_isalnum, ascii_isspace, ascii_isdigit,
      ascii_isupper, ascii_islower, UNDERSCORE, HYPHEN in *.
    code_point_cases.
  - intros Hw. destruct (uni_isspace c) eqn:S.
    + rewrite (uni_space_not_alnum c S) in Hw.
      unfold is_ascii, UNDERSCORE in *. code_point_cases.
    + unfold is_ascii, HYPHEN in *. code_point_cases.
Qed.

Lemma ascii_lower_no_space (c : N) :
  is_ascii c = true -> space_or_hyphen c = false ->
  space_or_hyphen (ascii_lower c) = false.
Proof.
  unfold space_or_hyphen, re_space, is_ascii, ascii_lower, ascii_isupper,
    ascii_isspace, HYPHEN.
  code_point_cases.
Qed.

Lemma ascii_lower_ascii (c : N) :
  is_ascii c = true -> is_ascii (ascii_lower c) = true.
Proof. unfold is_ascii, ascii_lower, ascii_isupper. code_point_cases. Qed.

Lemma ascii_lower_twice (c : N) : ascii_lower (ascii_lower c) = ascii_lower c.
Proof. unfold ascii_lower, ascii_isupper. code_point_cases. Qed.

Lemma lower_no_space (v : str) :
  Forall (fun c => space_or_hyphen c = false) v ->
  Forall (fun c => space_or_hyphen c = false) (lower v).
Proof.
  intros F. unfold lower. destruct (forallb is_ascii v) eqn:A.
  - rewrite List.forallb_forall in A. rewrite List.Forall_forall in F.
    apply List.Forall_forall. intros c Hc.
    apply List.in_map_iff in Hc. destruct Hc as [d [<- Hd]].
    apply ascii_lower_no_space; auto.
  - apply List.Forall_forall. intros c Hc.
    destruct (space_or_hyphen c) eqn:S; [| reflexivity].
    rewrite List.Forall_forall in F.
    rewrite (F c (uni_lower_fresh v c Hc S)) in S. discriminate.
Qed.

Lemma lower_part_fixed (v l m r : str) : lower v = l ++ m ++ r -> lower m = m.
Proof.
  unfold lower at 1. destruct (forallb is_ascii v) eqn:A.
  - intros E.
    assert (F : Forall (fun c => is_ascii c = true /\ ascii_lower c = c) m).
    { apply List.Forall_forall. intros c Hc.
      assert (Hin : In c (map ascii_lower v))
        by (rewrite E; apply in_or_app; right; apply in_or_app; left; exact Hc).
      apply List.in_map_iff in Hin. destruct Hin as [d [<- Hd]].
      rewrite List.forallb_forall in A.
      split; [apply ascii_lower_ascii; auto | apply ascii_lower_twice]. }
    rewrite lower_ascii
      by (eapply Forall_impl; [exact F | intros c [Hc _]; exact Hc]).
    apply map_fixed.
    eapply Forall_impl; [exact F | intros c [_ Hc]; exact Hc].
  - apply uni_lower_stable.
Qed.

(** C10: with allow_unicode the slug has no white space and no hyphen, is
    left unchanged by lowercasing, and has no underscore at either end;
    runs of white space and hyphens become one underscore before the
    non-word characters go. *)
Theorem slugify_unicode_shape (s : str) :
  Forall (fun c => re_space c = false /\ c <> HYPHEN) (slugify s true)
  /\ lower (slugify s true) = slugify s true
  /\ head (slugify s true) <> Some UNDERSCORE
  /\ last (slugify s true) <> Some UNDERSCORE
  /\ slugify (pystr "Hello  - World") true = pystr "hello_world".
Proof.
  unfold slugify. simpl negb. cbv iota.
  set (v2 := sub_delete not_word _).
  assert (W : Forall (fun c => space_or_hyphen c = false) v2).
  { eapply Forall_impl; [apply sub_delete_class | apply word_no_space]. }
  split; [| split; [| split; [| split]]].
  - apply Forall_strip.
    eapply Forall_impl; [exact (lower_no_space v2 W) |].
    intros c. unfold space_or_hyphen, HYPHEN.
    destruct (re_space c); simpl; [discriminate |].
    destruct (N.eqb_spec c 45); [discriminate | auto].
  - destruct (strip_infix is_underscore (lower v2)) as [l [r E]].
    exact (lower_part_fixed v2 l _ r E).
  - intros Hh. apply head_strip in Hh. discriminate.
  - intros Hl. apply last_strip in Hl. discriminate.
  - reflexivity.
Qed.

End SlugifyUnicode.

Section Latin1Facts.
Import Latin1.

Lemma latin1_space_not_alnum (c : N) : isspace c = true -> isalnum c = false.
Proof. unfold isspace, isalnum. code_point_cases. Qed.

Lemma latin1_lower_fresh (s : str) (c : N) :
  In c (map lower_char s) -> @space_or_hyphen db c = true -> In c s.
Proof.
  intros Hc S. apply List.in_map_iff in Hc. destruct Hc as [d [E Hd]].
  assert (d = c); [| congruence].
  revert S. subst c.
  unfold space_or_hyphen, re_space, is_ascii, ascii_isspace, lower_char,
    ascii_lower, ascii_isupper, HYPHEN. simpl. unfold isspace.
  code_point_cases.
Qed.

Lemma latin1_lower_char_fixed (c : N) :
  lower_char (lower_char c) = lower_char c
  /\ ascii_lower (lower_char c) = lower_char c.
Proof. unfold lower_char, ascii_lower, ascii_isupper. code_point_cases. Qed.

Lemma latin1_lower_stable (s l m r : str) :
  map lower_char s = l ++ m ++ r -> @lower db m = m.
Proof.
  intros E.
  assert (F : Forall (fun c => lower_char c = c /\ ascii_lower c = c) m).
  { apply List.Forall_forall. intros c Hc.
    assert (Hin : In c (map lower_char s))
      by (rewrite E; apply in_or_app; right; apply in_or_app; left; exact Hc).
    apply List.in_map_iff in Hin. destruct Hin as [d [<- Hd]].
    apply latin1_lower_char_fixed. }
  unfold lower. simpl.
  destruct (forallb is_ascii m); apply map_fixed;
    (eapply Forall_impl; [exact F | intros c [? ?]; assumption]).
Qed.

End Latin1Facts.


(** The C10 statement at the Latin-1 database and the text
    " Été - À_LA  Carte " (with a no-break space in front). *)
Lemma slugify_unicode_shape_witness :
  let s := [160; 201; 116; 233; 32; 45; 32; 192; 95; 76; 65; 32; 32;
            67; 97; 114; 116; 101; 32] in
  @slugify Latin1.db s true
    = [233; 116; 233; 95; 224; 95; 108; 97; 95; 99; 97; 114; 116; 101]
  /\ Forall (fun c => @re_space Latin1.db c = false /\ c <> HYPHEN)
       (@slugify Latin1.db s true)
  /\ @lower Latin1.db (@slugify Latin1.db s true) = @slugify Latin1.db s true.
Proof.
  intros s.
  pose proof (@slugify_unicode_shape Latin1.db latin1_space_not_alnum
                latin1_lower_fresh latin1_lower_stable s) as [H1 [H2 _]].
  split; [vm_compute; reflexivity | split; assumption].
Defined.

(** ** parse_problem_text *)

Example parse_spec_example :
  @parse_problem_text Latin1.db spec_example_text
  = [ (pystr "statement", pystr "Do the thing.");
      (pystr "input", pystr "An integer n.");
      (pystr "output", pystr "n squared.") ].
Proof. vm_compute. reflexivity. Qed.

Example parse_header_only :
  @parse_problem_text Latin1.db (pystr "Input") = [ (pystr "input", []) ].
Proof. vm_compute. reflexivity. Qed.

Example parse_header_between :
  @parse_problem_text Latin1.db
    (pystr "a" ++ [NL] ++ pystr "Statement" ++ [NL] ++ pystr "b")
  = [ (pystr "statement", pystr "a" ++ [NL; NL] ++ pystr "b") ].
Proof. vm_compute. reflexivity. Qed.

Example parse_inputs_word :
  @parse_problem_text Latin1.db (pystr "Inputs are INPUT: x")
  = [ (pystr "statement", pystr "Inputs are INPUT: x") ].
Proof. vm_compute. reflexivity. Qed.

Section ParseFacts.
Context {udb : UnicodeDB}.

Lemma normalize_spec (sections : list (str * list str)) (k v : str) :
  In (k, v) (normalize sections) <->
  exists lines, In (k, lines) sections /\ lines <> []
                /\ v = strip re_space (join [NL] lines).
Proof.
  induction sections as [|[k' [|l ls]] rest IH]; simpl.
  - split; [tauto | intros [lines [[] _]]].
  - rewrite IH. split.
    + intros [lines [Hin Hl]]. exists lines. tauto.
    + intros [lines [[E | Hin] [Hne Hv]]].
      * inversion E; subst. congruence.
      * exists lines. tauto.
  - rewrite IH. split.
    + intros [E | [lines [Hin Hl]]].
      * inversion E; subst. exists (l :: ls).
        split; [left; reflexivity | split; [discriminate | reflexivity]].
      * exists lines. tauto.
    + intros [lines [[E | Hin] [Hne Hv]]].
      * inversion E; subst. left. reflexivity.
      * right. exists lines. tauto.
Qed.


End ParseFacts.



(** ** json *)

Example iterencode_sample :
  Json.iterencode true 0
    (PList [PTuple [PList [PInt 2; PInt (-3)]; PInt 5];
            PTuple [PNone; PStr (pystr "a" ++ [34; 233; 10; 128512])];
            PTuple [PDict [(PStr (pystr "k"), PBool true); (PInt 1, PList [])];
                    PDict []]])
  = (pystr "[" ++ [NL] ++ pystr "  [" ++ [NL] ++ pystr "    [" ++ [NL]
     ++ pystr "      2," ++ [NL] ++ pystr "      -3" ++ [NL]
     ++ pystr "    ]," ++ [NL] ++ pystr "    5" ++ [NL] ++ pystr "  ],"
     ++ [NL] ++ pystr "  [" ++ [NL] ++ pystr "    null," ++ [NL]
     ++ pystr "    " ++ [34] ++ pystr "a\" ++ [34] ++ pystr "\u00e9\n\ud83d\ude00"
     ++ [34; NL] ++ pystr "  ]," ++ [NL] ++ pystr "  [" ++ [NL]
     ++ pystr "    {" ++ [NL] ++ pystr "      " ++ [34; 107; 34]
     ++ pystr ": true," ++ [NL] ++ pystr "      " ++ [34; 49; 34]
     ++ pystr ": []" ++ [NL] ++ pystr "    }," ++ [NL] ++ pystr "    {}"
     ++ [NL] ++ pystr "  ]" ++ [NL] ++ pystr "]", None).
Proof. vm_compute. reflexivity. Qed.

Example loads_dumps_sample :
  Json.bind (Json.dumps false json_sample) Json.loads = Ok json_sample.
Proof. vm_compute. reflexivity. Qed.

Example loads_dumps_ascii_sample :
  Json.bind (Json.dumps true json_sample) Json.loads = Ok json_sample.
Proof. vm_compute. reflexivity. Qed.

Example loads_dumps_tuple :
  Json.bind (Json.dumps false (PDict [(PStr (pystr "a"), PTuple [PInt 1; PInt 2])]))
            Json.loads
  = Ok (PDict [(PStr (pystr "a"), PList [PInt 1; PInt 2])]).
Proof. vm_compute. reflexivity. Qed.

Example loads_dumps_int_key :
  Json.bind (Json.dumps false (PDict [(PInt 1, PStr (pystr "a"))])) Json.loads
  = Ok (PDict [(PStr (pystr "1"), PStr (pystr "a"))]).
Proof. vm_compute. reflexivity. Qed.

Example py_eval_null :
  Json.bind (Json.dumps true (PList [PTuple [PNone; PInt 1]]))
            (py_eval_literal [])
  = Raise (NameError (pystr "null")).
Proof. vm_compute. reflexivity. Qed.

Example py_eval_ok :
  Json.bind (Json.dumps true (PList [PTuple [PList [PInt 2; PInt 3]; PInt 5]]))
            (py_eval_literal [])
  = Ok (PList [PList [PList [PInt 2; PInt 3]; PInt 5]]).
Proof. vm_compute. reflexivity. Qed.

(** ** build_pytest_file *)

Section TestBuilderFacts.
Context {os : Platform}.

Lemma existsb_app_false (f : N -> bool) (a b : str) :
  existsb f (a ++ b) = false -> existsb f a = false.
Proof.
  rewrite existsb_app. destruct (existsb f a); [discriminate | reflexivity].
Qed.

Lemma encodable_prefix_id (s : str) :
  existsb is_surrogate s = false -> encodable_prefix s = s.
Proof.
  induction s as [|c t IH]; simpl; [reflexivity |].
  destruct (is_surrogate c); [discriminate |].
  intros H. rewrite IH; [reflexivity | exact H].
Qed.

Lemma write_text_ok (path s : str) (fs : filesystem) :
  can_write path = true -> existsb is_surrogate s = false ->
  write_text path s fs = (Ok tt, <[path := Text s]> fs).
Proof.
  intros Hw Hs. unfold write_text. rewrite Hw, Hs, encodable_prefix_id; auto.
Qed.

Lemma build_pytest_file_ok (test_cases lines : list pyval)
    (module_name output_path func_name json_str : str) (fs : filesystem) :
  param_lines test_cases = Ok lines ->
  can_write output_path = true ->
  Json.dumps true (PList lines) = Ok json_str ->
  existsb is_surrogate
    (test_file_header module_name func_name ++ json_str
     ++ test_file_footer func_name) = false ->
  build_pytest_file test_cases module_name output_path func_name fs
  = (Ok tt,
     <[output_path := Text (test_file_header module_name func_name ++ json_str
                            ++ test_file_footer func_name)]> fs).
Proof.
  intros Hp Hw Hj Hs. unfold build_pytest_file. rewrite Hp.
  rewrite (write_text_ok _ _ _ Hw (existsb_app_false _ _ _ Hs)), Hj.
  apply write_text_ok; assumption.
Qed.

End TestBuilderFacts.

(** The table of a case adding 2 and 3: the file loads and the row calls
    the callable with two arguments. *)
Example load_addition_table :
  let cases := [PDict [(PStr (pystr "input"), PList [PInt 2; PInt 3]);
                       (PStr (pystr "expected"), PInt 5)]] in
  exists table,
    Json.bind (param_lines cases) (fun l => Json.dumps true (PList l)) = Ok table
    /\ load_test_module (pystr "solution_1") (pystr "solve")
         (test_file_header (pystr "solution_1") (pystr "solve") ++ table
          ++ test_file_footer (pystr "solve"))
       = Ok [PList [PList [PInt 2; PInt 3]; PInt 5]]
    /\ call_for (PList [PInt 2; PInt 3]) = CallUnpacked [PInt 2; PInt 3].
Proof.
  eexists. split; [vm_compute; reflexivity |].
  split; [vm_compute; reflexivity | reflexivity].
Qed.

(** C2, failing input: one case with no input value. The file is written
    with the JSON word [null] in the table, which is no name of the
    Python module, so loading the file raises NameError and no test
    runs. *)
Theorem build_pytest_file_null_not_runnable :
  forall fs : filesystem,
    @build_pytest_file Posix.os null_input_cases (pystr "solution_1")
      (pystr "/tmp/tests/test_solution_1.py") (pystr "solve") fs
    = (Ok tt,
       <[pystr "/tmp/tests/test_solution_1.py" :=
           Text (test_file_header (pystr "solution_1") (pystr "solve")
                 ++ null_input_table ++ test_file_footer (pystr "solve"))]> fs)
    /\ load_test_module (pystr "solution_1") (pystr "solve")
         (test_file_header (pystr "solution_1") (pystr "solve")
          ++ null_input_table ++ test_file_footer (pystr "solve"))
       = Raise (NameError (pystr "null")).
Proof.
  intros fs. split.
  - eapply build_pytest_file_ok;
    [ vm_compute; reflexivity | reflexivity | vm_compute; reflexivity
    | vm_compute; reflexivity ].
  - vm_compute. reflexivity.
Qed.

(** C9, failing inputs: a record without "input" and a record without
    "expected". Nothing is raised and the missing field is None, written
    [null] in the table; but then the file does not load (NameError), so
    the callable is never invoked and nothing is asserted. *)
Theorem build_pytest_file_missing_key_not_runnable :
  param_lines no_input_cases = Ok [PTuple [PNone; PInt 1]]
  /\ param_lines no_expected_cases
     = Ok [PTuple [PList [PInt 2; PInt 3]; PNone]]
  /\ (forall fs : filesystem,
        @build_pytest_file Posix.os no_input_cases (pystr "solution_1")
          (pystr "/tmp/tests/test_solution_1.py") (pystr "solve") fs
        = (Ok tt,
           <[pystr "/tmp/tests/test_solution_1.py" :=
               Text (test_file_header (pystr "solution_1") (pystr "solve")
                     ++ null_input_table ++ test_file_footer (pystr "solve"))]>
             fs))
  /\ Json.dumps true (PList [PTuple [PList [PInt 2; PInt 3]; PNone]])
     = Ok no_expected_table
  /\ load_test_module (pystr "solution_1") (pystr "solve")
       (test_file_header (pystr "solution_1") (pystr "solve")
        ++ null_input_table ++ test_file_footer (pystr "solve"))
     = Raise (NameError (pystr "null"))
  /\ load_test_module (pystr "solution_1") (pystr "solve")
       (test_file_header (pystr "solution_1") (pystr "solve")
        ++ no_expected_table ++ test_file_footer (pystr "solve"))
     = Raise (NameError (pystr "null")).
Proof.
  split; [reflexivity |]. split; [reflexivity |].
  split; [intros fs; eapply build_pytest_file_ok;
    [ vm_compute; reflexivity | reflexivity | vm_compute; reflexivity
    | vm_compute; reflexivity ] |].
  repeat split; vm_compute; reflexivity.
Qed.

(** ** Paths *)

Example path_examples :
  path_str (path_div (Path (pystr "/tmp//x/./")) (pystr "solution_1.py"))
    = pystr "/tmp/x/solution_1.py"
  /\ path_name (Path (pystr "/tmp/x/solution_1.py")) = pystr "solution_1.py"
  /\ path_stem (Path (pystr "/tmp/x/solution_1.py")) = pystr "solution_1"
  /\ path_stem (Path (pystr "/tmp/.hidden")) = pystr ".hidden"
  /\ path_stem (Path (pystr "a.tar.gz")) = pystr "a.tar"
  /\ zip_arcname (pystr "tests/test_solution_1.py")
     = pystr "tests/test_solution_1.py"
  /\ zip_arcname (pystr "/a/../b//c/./d") = pystr "b/c/d"
  /\ zip_arcname (pystr "../x") = pystr "../x".
Proof. vm_compute. repeat split; reflexivity. Qed.

(** ** The pipeline of app.py *)

Example demo_no_solutions_raises :
  fst (@app Latin1.db Posix.os (Demo.core 0 []) Demo.inp Demo.empty_world)
  = Raise IndexError.
Proof. vm_compute. reflexivity. Qed.

Example demo_no_tests_events :
  let r := @app Latin1.db Posix.os (Demo.core 2 []) Demo.inp Demo.empty_world in
  fst r = Ok tt
  /\ existsb is_validation_or_packaging (w_events (snd r)) = false
  /\ existsb is_notice (w_events (snd r)) = true.
Proof. vm_compute. repeat split; reflexivity. Qed.

Example demo_package_names :
  let r := @build_package Latin1.db Posix.os (pystr "My Exercise #1.pdf")
             [Demo.solution_text; Demo.solution_text] [Demo.addition_case]
             Demo.empty_world in
  fst r = Ok (pystr "my_exercise_1pdf_suite.zip",
              Path (pystr "/tmp/my_exercise_1pdf_suite.zip"))
  /\ match w_fs (snd r) !! pystr "/tmp/my_exercise_1pdf_suite.zip" with
     | Some (Archive entries) =>
         map fst entries
         = [pystr "solution_1.py"; pystr "solution_2.py";
            pystr "tests/test_solution_1.py"; pystr "tests/test_solution_2.py"]
     | _ => False
     end.
Proof. vm_compute. split; reflexivity. Qed.

Lemma add_events_nil (w : world) : add_events w [] = w.
Proof. destruct w. unfold add_events. simpl. rewrite app_nil_r. reflexivity. Qed.

Lemma add_events_app (w : world) (a b : list event) :
  add_events (add_events w a) b = add_events w (a ++ b).
Proof. unfold add_events. simpl. rewrite app_assoc. reflexivity. Qed.

Lemma seq_show {B : Type} (e : event) (k : unit -> prog B) (w : world) :
  seq (show e) k w = k tt (add_events w [e]).
Proof. reflexivity. Qed.

Lemma seq_of_result_ok {A B : Type} (a : A) (k : A -> prog B) (w : world) :
  seq (of_result (Ok a)) k w = k a w.
Proof. reflexivity. Qed.

(** A loop whose body only shows things shows them in order. *)
Lemma for_each_shows {A : Type} (f : A -> list event) (body : A -> prog unit)
    (l : list A) :
  (forall x w, body x w = (Ok tt, add_events w (f x))) ->
  forall w, for_each l body w = (Ok tt, add_events w (flat_map f l)).
Proof.
  intros Hb. induction l as [|x rest IH]; intros w; simpl.
  - unfold ret. rewrite add_events_nil. reflexivity.
  - unfold seq. rewrite Hb, IH, add_events_app. reflexivity.
Qed.

Lemma show_eq (e : event) (w : world) : show e w = (Ok tt, add_events w [e]).
Proof. reflexivity. Qed.

Lemma solutions_loop_shows (solutions : list str) :
  forall idx w,
    for_enumerate idx solutions (fun idx sol =>
      seq (show (StMarkdown [PStr (pystr "### Solution ");
                             PInt (Z.of_nat (S idx))]))
          (fun _ => show (StCode sol (pystr "python")))) w
    = (Ok tt, add_events w (solution_events idx solutions)).
Proof.
  induction solutions as [|sol rest IH]; intros idx w.
  - unfold for_enumerate, ret, solution_events. rewrite add_events_nil.
    reflexivity.
  - cbn [for_enumerate solution_events]. unfold seq at 1.
    rewrite seq_show, show_eq, add_events_app. cbv beta iota.
    rewrite IH, add_events_app. reflexivity.
Qed.

Lemma section_loop_shows (problem_data : list (str * str)) (w : world) :
  for_each problem_data (fun kv =>
    match snd kv with
    | [] => ret tt
    | value =>
        show (StMarkdown [PStr (pystr "**" ++ capitalize (fst kv) ++ pystr "**:"
                                ++ [NL] ++ value)])
    end) w
  = (Ok tt, add_events w (flat_map section_events problem_data)).
Proof.
  apply for_each_shows. intros [k v] w'. unfold section_events. simpl.
  destruct v; [unfold ret; rewrite add_events_nil |]; reflexivity.
Qed.

Lemma existsb_flat_map_false {A : Type} (p : event -> bool) (f : A -> list event)
    (l : list A) :
  (forall x, existsb p (f x) = false) -> existsb p (flat_map f l) = false.
Proof.
  intros H. induction l as [|x rest IH]; simpl; [reflexivity |].
  rewrite existsb_app, H, IH. reflexivity.
Qed.

Lemma solution_events_quiet (p : event -> bool) (solutions : list str) :
  (forall parts, p (StMarkdown parts) = false) ->
  (forall body lang, p (StCode body lang) = false) ->
  forall idx, existsb p (solution_events idx solutions) = false.
Proof.
  intros Hm Hc. induction solutions as [|sol rest IH]; intros idx; simpl;
    [reflexivity |].
  rewrite Hm, Hc, IH. reflexivity.
Qed.

Lemma section_events_quiet (p : event -> bool) (kv : str * str) :
  (forall parts, p (StMarkdown parts) = false) ->
  existsb p (section_events kv) = false.
Proof.
  intros Hm. unfold section_events. destruct (snd kv); simpl;
    [reflexivity | rewrite Hm; reflexivity].
Qed.

Lemma events_before_tests_no_notice (problem_data : list (str * str))
    (template_code : str) (n : Z) (solutions : list str) :
  existsb is_notice (events_before_tests problem_data template_code n solutions)
  = false.
Proof.
  unfold events_before_tests. rewrite !existsb_app.
  rewrite existsb_flat_map_false
    by (intros x; apply section_events_quiet; reflexivity).
  rewrite solution_events_quiet by reflexivity. reflexivity.
Qed.

Lemma events_before_tests_no_packaging (problem_data : list (str * str))
    (template_code : str) (n : Z) (solutions : list str) :
  existsb is_validation_or_packaging
    (events_before_tests problem_data template_code n solutions) = false.
Proof.
  unfold events_before_tests. rewrite !existsb_app.
  rewrite existsb_flat_map_false
    by (intros x; apply section_events_quiet; reflexivity).
  rewrite solution_events_quiet by reflexivity. vm_compute. reflexivity.
Qed.

(** Runs the script up to the call of [generate_test_cases], given that
    the PDF can be stored ([Hw]) and read ([Hp]), the template decoded
    ([Hd]) and the solutions generated ([Hg]). *)
Ltac run_until_tests Hw Hp Hd Hg :=
  unfold generate; cbv zeta;
  rewrite seq_show;
  unfold seq at 1; unfold on_files, write_bytes; rewrite Hw;
  cbn [w_fs w_events add_events];
  unfold seq at 1; unfold read_files, extract_and_parse, extract_pdf_to_text;
  cbn [w_fs]; rewrite lookup_insert_eq; rewrite Hp; cbn [Json.bind];
  rewrite seq_show;
  unfold seq at 1; rewrite section_loop_shows;
  rewrite Hd, seq_of_result_ok;
  rewrite !seq_show;
  rewrite Hg, seq_of_result_ok;
  rewrite seq_show;
  unfold seq at 1; rewrite solutions_loop_shows;
  rewrite seq_show.

Section PipelineClaims.
Context {udb : UnicodeDB} {os : Platform} {core : CoreModules}.


(** C6: when [generate_test_cases] returns the empty list, the run ends
    normally; it has shown the warning, has not called
    [validate_solutions], has shown nothing of the validation, packaging
    or download steps, and the only file written is the uploaded PDF. *)
Theorem generate_no_test_cases_skips (inp : inputs) (mock_mode : bool)
    (pdf template : upload) (pages : list str) (template_code : str)
    (sol : str) (more : list str) (w : world) :
  let pdf_path := path_str (path_div (Path gettempdir) (up_name pdf)) in
  let problem_data := parse_problem_text (join [NL] pages) in
  let shown :=
    events_before_tests problem_data template_code (num_solutions inp)
      (sol :: more)
    ++ [Called (CallGenerateTestCases sol (max_tests inp));
        StSubheader (pystr "Proposed Test Cases");
        StWarning (pystr "Could not generate test cases automatically.")] in
  can_write pdf_path = true ->
  pdf_get_text (Text (up_data pdf)) = Ok pages ->
  utf8_decode (up_data template) = Ok template_code ->
  generate_solutions problem_data template_code (num_solutions inp)
    (LLMClient (api_key inp) mock_mode) = Ok (sol :: more) ->
  generate_test_cases problem_data sol (max_tests inp)
    (LLMClient (api_key inp) mock_mode) = Ok [] ->
  generate inp mock_mode pdf template w
  = (Ok tt,
     {| w_fs := <[pdf_path := Text (up_data pdf)]> (w_fs w);
        w_events := w_events w ++ shown |})
  /\ In (StWarning (pystr "Could not generate test cases automatically."))
        shown
  /\ existsb is_validation_or_packaging shown = false.
Proof.
  intros pdf_path problem_data shown Hw Hp Hd Hg Ht.
  subst pdf_path problem_data. split; [| split].
  - run_until_tests Hw Hp Hd Hg.
    unfold seq at 1. unfold ret at 1. cbv beta iota.
    rewrite seq_show. rewrite Ht, seq_of_result_ok.
    rewrite seq_show. unfold seq at 1. rewrite show_eq. cbv beta iota.
    unfold seq at 1. unfold ret at 1. cbv beta iota.
    unfold ret. rewrite !add_events_app.
    unfold add_events, shown, events_before_tests. cbn [w_fs w_events].
    rewrite <- !app_assoc. reflexivity.
  - unfold shown. apply in_or_app. right. simpl. tauto.
  - unfold shown. rewrite existsb_app, events_before_tests_no_packaging.
    reflexivity.
Qed.

End PipelineClaims.


(** The demo run with two solutions and no test case. *)
Lemma generate_no_test_cases_skips_witness :
  fst (@generate Latin1.db Posix.os (Demo.core 2 []) Demo.inp true
         Demo.pdf Demo.template Demo.empty_world)
  = Ok tt.
Proof.
  pose proof (@generate_no_test_cases_skips Latin1.db Posix.os (Demo.core 2 [])
                Demo.inp true Demo.pdf Demo.template
                [pystr "Statement" ++ [NL] ++ pystr "Add two numbers."]
                (pystr "def solve(a, b): ...") Demo.solution_text
                [Demo.solution_text] Demo.empty_world
                eq_refl eq_refl eq_refl eq_refl eq_refl) as [H _].
  rewrite H. reflexivity.
Defined.

(** ** Paths and archive names *)

Lemma split_on_plain (sep : N) (s cur : str) :
  Forall (fun c => c <> sep) s -> split_on sep cur s = [cur ++ s].
Proof.
  intros H. revert cur. induction H as [|c t Hc _ IH]; intros cur; simpl.
  - rewrite app_nil_r. reflexivity.
  - destruct (N.eqb_spec c sep); [contradiction |].
    rewrite IH, <- app_assoc. reflexivity.
Qed.

Lemma split_on_app (sep : N) (a b cur : str) :
  split_on sep cur (a ++ sep :: b) = split_on sep cur a ++ split_on sep [] b.
Proof.
  revert cur. induction a as [|c t IH]; intros cur; simpl.
  - rewrite N.eqb_refl. reflexivity.
  - destruct (c =? sep); [simpl; f_equal |]; apply IH.
Qed.

Lemma kept_plain (name : str) : plain_name name -> kept_part name = true.
Proof.
  intros (_ & Hn & Hd & _). unfold kept_part.
  rewrite !bool_decide_eq_false_2 by assumption. reflexivity.
Qed.

Lemma path_parts_plain (name : str) :
  plain_name name -> path_parts name = [name].
Proof.
  intros H. unfold path_parts. rewrite split_on_plain by apply H.
  simpl. rewrite kept_plain by exact H. reflexivity.
Qed.

Lemma path_parts_snoc (pre name : str) :
  plain_name name ->
  path_parts (pre ++ SLASH :: name) = path_parts pre ++ [name].
Proof.
  intros H. unfold path_parts. rewrite split_on_app, List.filter_app.
  f_equal. apply (path_parts_plain name H).
Qed.

Lemma plain_not_absolute (name : str) : plain_name name -> is_absolute name = false.
Proof.
  intros (Hs & Hn & _). destruct name as [|c t]; [reflexivity |].
  simpl. inversion Hs; subst. destruct (N.eqb_spec c SLASH); congruence.
Qed.

Lemma join_snoc (sep : str) (l : list str) (x : str) :
  l <> [] -> join sep (l ++ [x]) = join sep l ++ sep ++ x.
Proof.
  induction l as [|a [|b rest] IH]; intros Hl; [congruence | reflexivity |].
  change (join sep ((a :: b :: rest) ++ [x]))
    with (a ++ sep ++ join sep ((b :: rest) ++ [x])).
  rewrite IH by discriminate.
  change (join sep (a :: b :: rest)) with (a ++ sep ++ join sep (b :: rest)).
  rewrite <- !app_assoc. reflexivity.
Qed.

(** The name of a path made by joining a plain name to a directory is
    that name, also after the path went through [str]. *)
Lemma path_name_div (p : path) (name : str) :
  plain_name name -> path_name (Path (path_str (path_div p name))) = name.
Proof.
  intros H. unfold path_div. rewrite plain_not_absolute by exact H.
  rewrite path_parts_plain by exact H.
  unfold path_str, path_name, Path. cbn [anchored parts].
  destruct (parts p) as [|a rest] eqn:Ep.
  - rewrite app_nil_l. change (join [SLASH] [name]) with name.
    destruct (anchored p).
    + change (SLASH :: name) with ([] ++ SLASH :: name).
      rewrite path_parts_snoc by exact H. apply List.last_last.
    + rewrite path_parts_plain by exact H. reflexivity.
  - assert (Hj : join [SLASH] ((a :: rest) ++ [name])
                 = join [SLASH] (a :: rest) ++ SLASH :: name)
      by (rewrite join_snoc by discriminate; reflexivity).
    destruct (anchored p).
    + rewrite Hj, app_comm_cons, path_parts_snoc by exact H.
      apply List.last_last.
    + destruct ((a :: rest) ++ [name]) eqn:E; [discriminate |].
      cbv iota. rewrite Hj, path_parts_snoc by exact H. apply List.last_last.
Qed.

Lemma rsplit_rev_py (x after : str) :
  rsplit_rev DOT after (rev (x ++ pystr ".py")) = Some (x, pystr "py" ++ after).
Proof.
  rewrite rev_app_distr. cbn. rewrite rev_involutive. reflexivity.
Qed.

(** The stem of [x.py]. *)
Lemma path_stem_py (p : path) (x : str) :
  path_name p = x ++ pystr ".py" -> x <> [] -> path_stem p = x.
Proof.
  intros Hn Hx. unfold path_stem. rewrite Hn, rsplit_rev_py.
  destruct x; [congruence | reflexivity].
Qed.

Lemma normpath_step_plain (b : bool) (comps : list str) (name : str) :
  plain_name name -> normpath_step b comps name = comps ++ [name].
Proof.
  intros (Hs & Hn & Hd & Hdd). unfold normpath_step.
  rewrite (bool_decide_eq_false_2 (name = [])),
    (bool_decide_eq_false_2 (name = [DOT])),
    (bool_decide_eq_false_2 (name = [DOT; DOT])) by assumption.
  reflexivity.
Qed.

Lemma zip_arcname_plain (name : str) : plain_name name -> zip_arcname name = name.
Proof.
  intros H. unfold zip_arcname. rewrite split_on_plain by apply H.
  rewrite app_nil_l. cbn [fold_left].
  rewrite normpath_step_plain by exact H. reflexivity.
Qed.

Lemma plain_tests : plain_name (pystr "tests").
Proof.
  repeat split; try discriminate.
  repeat constructor; discriminate.
Qed.

Lemma zip_arcname_tests (name : str) :
  plain_name name ->
  zip_arcname (pystr "tests/" ++ name) = pystr "tests/" ++ name.
Proof.
  intros H. unfold zip_arcname.
  change (pystr "tests/" ++ name) with (pystr "tests" ++ SLASH :: name).
  rewrite split_on_app, (split_on_plain SLASH name) by apply H.
  rewrite (split_on_plain SLASH (pystr "tests")) by apply plain_tests.
  rewrite !app_nil_l.
  change ([pystr "tests"] ++ [name]) with [pystr "tests"; name].
  set (b := is_absolute _).
  change (fold_left (normpath_step b) [pystr "tests"; name] [])
    with (normpath_step b (normpath_step b [] (pystr "tests")) name).
  rewrite (normpath_step_plain _ _ _ plain_tests).
  rewrite normpath_step_plain by exact H. reflexivity.
Qed.

Lemma digits_of_uint_digits (d : Decimal.uint) :
  Forall (fun c => 48 <= c /\ c <= 57) (Json.digits_of_uint d).
Proof. induction d; simpl; constructor; auto; lia. Qed.

Lemma digits_of_uint_inj (d d' : Decimal.uint) :
  Json.digits_of_uint d = Json.digits_of_uint d' -> d = d'.
Proof.
  revert d'. induction d; destruct d'; simpl; intros E;
    try discriminate E; try reflexivity;
    injection E as E; f_equal; auto.
Qed.

Lemma nat_str_inj (n m : N) : Json.nat_str n = Json.nat_str m -> n = m.
Proof.
  intros E. apply Unsigned.to_uint_inj. apply digits_of_uint_inj. exact E.
Qed.

Lemma nat_str_no_slash (n : N) : Forall (fun c => c <> SLASH) (Json.nat_str n).
Proof.
  eapply List.Forall_impl; [| apply digits_of_uint_digits].
  unfold SLASH. intros c Hc; simpl in Hc. lia.
Qed.

Lemma numbered_name_plain (pre : str) (c : N) (idx : nat) :
  Forall (fun c => c <> SLASH) (c :: pre) -> c <> DOT ->
  plain_name ((c :: pre) ++ Json.nat_str (N.of_nat (S idx)) ++ pystr ".py").
Proof.
  intros Hpre Hc. split; [| repeat split].
  - apply Forall_app; split; [exact Hpre |].
    apply Forall_app; split; [apply nat_str_no_slash |].
    repeat constructor; discriminate.
  - discriminate.
  - intros E. injection E as E _. contradiction.
  - intros E. injection E as E _. contradiction.
Qed.

Lemma solution_file_name_plain (idx : nat) : plain_name (solution_file_name idx).
Proof.
  apply (numbered_name_plain (pystr "olution_") 115);
    [repeat constructor |]; discriminate.
Qed.

Lemma test_file_name_plain (idx : nat) : plain_name (test_file_name idx).
Proof.
  apply (numbered_name_plain (pystr "est_solution_") 116);
    [repeat constructor |]; discriminate.
Qed.

Lemma solution_file_name_inj (i j : nat) :
  solution_file_name i = solution_file_name j -> i = j.
Proof.
  unfold solution_file_name. intros E.
  apply app_inv_head, app_inv_tail, nat_str_inj in E. lia.
Qed.

Lemma test_file_name_inj (i j : nat) :
  test_file_name i = test_file_name j -> i = j.
Proof.
  unfold test_file_name. intros E.
  apply app_inv_head, app_inv_tail, nat_str_inj in E. lia.
Qed.

Lemma NoDup_map_injective {A B : Type} (f : A -> B) (l : list A) :
  (forall x y, f x = f y -> x = y) -> List.NoDup l -> List.NoDup (map f l).
Proof.
  intros Hf Hl. apply List.NoDup_map_NoDup_ForallPairs; [| exact Hl].
  intros x y _ _. apply Hf.
Qed.

(** The names of an archive differ from one another. *)
Lemma archive_names_NoDup (n : nat) : List.NoDup (archive_names n).
Proof.
  unfold archive_names. apply List.NoDup_app.
  - apply NoDup_map_injective; [apply solution_file_name_inj | apply List.seq_NoDup].
  - apply NoDup_map_injective; [| apply List.seq_NoDup].
    intros i j E. apply app_inv_head in E. apply test_file_name_inj, E.
  - intros a Ha Hb.
    apply List.in_map_iff in Ha as (i & <- & _).
    apply List.in_map_iff in Hb as (j & E & _).
    discriminate E.
Qed.

(** The stem of a solution file, and the test file named after it. *)
Lemma solution_path_stem (p : path) (idx : nat) :
  pystr "test_"
  ++ path_stem (Path (path_str (path_div p (solution_file_name idx))))
  ++ pystr ".py" = test_file_name idx.
Proof.
  rewrite (path_stem_py _ (pystr "solution_" ++ Json.nat_str (N.of_nat (S idx)))).
  - unfold test_file_name. rewrite <- !app_assoc. reflexivity.
  - rewrite path_name_div by apply solution_file_name_plain.
    unfold solution_file_name. rewrite <- !app_assoc. reflexivity.
  - discriminate.
Qed.

Section PackagingFacts.
Context {udb : UnicodeDB} {os : Platform}.

Lemma write_solutions_paths (work_dir : path) (solutions : list str) :
  forall (idx : nat) (w w' : world) (paths : list str),
  write_solutions work_dir idx solutions w = (Ok paths, w') ->
  paths = map (fun i => path_str (path_div work_dir (solution_file_name i)))
              (List.seq idx (length solutions)).
Proof.
  induction solutions as [|sol rest IH]; intros idx w w' paths E.
  - injection E as <- _. reflexivity.
  - cbn [write_solutions] in E. unfold seq at 1 in E. unfold on_files in E.
    destruct (write_text _ sol (w_fs w)) as [[[]|e] fs1]; [| discriminate E].
    unfold seq at 1 in E.
    destruct (write_solutions work_dir (S idx) rest _) as [[ps|e] w1] eqn:Er;
      [| discriminate E].
    injection E as <- _. cbn [length List.seq map]. f_equal.
    eapply IH, Er.
Qed.

Lemma build_test_files_paths (test_cases : list pyval) (out : path)
    (func_name : str) (solution_files : list str) :
  forall (fs fs' : filesystem) (test_paths : list str),
  build_test_files test_cases solution_files out func_name fs
  = (Ok test_paths, fs') ->
  test_paths
  = map (fun sol_path =>
           path_str (path_div out (pystr "test_" ++ path_stem (Path sol_path)
                                   ++ pystr ".py")))
        solution_files.
Proof.
  induction solution_files as [|sol rest IH]; intros fs fs' test_paths E.
  - injection E as <- _. reflexivity.
  - cbn [build_test_files] in E. cbv zeta in E.
    destruct (build_pytest_file _ _ _ _ fs) as [[[]|e] fs1]; [| discriminate E].
    destruct (build_test_files test_cases rest out func_name fs1)
      as [[ps|e] fs2] eqn:Er; [| discriminate E].
    injection E as <- _. cbn [map]. f_equal. eapply IH, Er.
Qed.

Lemma zip_write_all_names (fs : filesystem) (files : list (str * str)) :
  forall (entries entries' : list (str * file)),
  zip_write_all fs files entries = (Ok tt, entries') ->
  map fst entries'
  = map fst entries ++ map (fun af => zip_arcname (fst af)) files.
Proof.
  induction files as [|[arcname filename] rest IH]; intros entries entries' E.
  - injection E as <-. rewrite app_nil_r. reflexivity.
  - cbn [zip_write_all] in E.
    destruct (fs !! filename) as [f|]; [| discriminate E].
    rewrite (IH _ _ E), List.map_app, <- app_assoc. reflexivity.
Qed.

(** The names under which the files of [n] solutions go into the
    archive. *)
Lemma files_to_zip_names (work_dir tests_dir : path) (n : nat) :
  map (fun af => zip_arcname (fst af))
    (files_to_zip
       (map (fun i => path_str (path_div work_dir (solution_file_name i)))
            (List.seq 0 n))
       (map (fun sol_path =>
               path_str (path_div tests_dir
                 (pystr "test_" ++ path_stem (Path sol_path) ++ pystr ".py")))
            (map (fun i => path_str (path_div work_dir (solution_file_name i)))
                 (List.seq 0 n))))
  = archive_names n.
Proof.
  unfold files_to_zip, archive_names.
  rewrite List.map_app, !List.map_map. f_equal; apply List.map_ext; intros i;
    cbn [fst].
  - rewrite path_name_div by apply solution_file_name_plain.
    apply zip_arcname_plain, solution_file_name_plain.
  - rewrite solution_path_stem.
    rewrite path_name_div by apply test_file_name_plain.
    apply zip_arcname_tests, test_file_name_plain.
Qed.

(** C7. When packaging [n] solutions succeeds, the archive is at the
    returned path and the names of its entries are, in this order,
    [solution_1.py] to [solution_n.py] and [tests/test_solution_1.py] to
    [tests/test_solution_n.py]; no name occurs twice; for two solutions
    they are the four names of the specification. *)
Theorem build_package_entry_names (pdf_name : str) (solutions : list str)
    (test_cases : list pyval) (w w' : world) (zip_name : str) (zip_path : path) :
  build_package pdf_name solutions test_cases w = (Ok (zip_name, zip_path), w') ->
  exists entries : list (str * file),
    w_fs w' !! path_str zip_path = Some (Archive entries)
    /\ map fst entries = archive_names (length solutions)
    /\ List.NoDup (map fst entries)
    /\ (length solutions = 2%nat ->
        map fst entries
        = [pystr "solution_1.py"; pystr "solution_2.py";
           pystr "tests/test_solution_1.py"; pystr "tests/test_solution_2.py"]).
Proof.
  intros E. unfold build_package in E. rewrite seq_show in E. cbv zeta in E.
  unfold seq at 1 in E.
  destruct (write_solutions _ 0 solutions _) as [[sps|e] w1] eqn:Es;
    [| discriminate E].
  apply write_solutions_paths in Es. 
  unfold seq at 1 in E. unfold on_files at 1 in E.
  unfold create_test_suite_for_solutions in E.
  destruct (can_mkdir _); [| discriminate E].
  destruct (build_test_files _ sps _ _ (w_fs w1)) as [[tps|e] fs2] eqn:Et;
    [| discriminate E].
  apply build_test_files_paths in Et.
  unfold seq at 1 in E. unfold on_files, make_zipfile in E. cbn [w_fs] in E.
  destruct (can_write _); [| discriminate E].
  destruct (zip_write_all _ _ []) as [[[]|e] entries] eqn:Ez; [| discriminate E].
  apply zip_write_all_names in Ez. unfold ret in E.
  injection E as _ <- <-. cbn [w_fs].
  exists entries. rewrite lookup_insert_eq.
  assert (Hn : map fst entries = archive_names (length solutions)).
  { rewrite Ez, Et, Es. apply files_to_zip_names. }
  split; [reflexivity |]. split; [exact Hn |]. split.
  - rewrite Hn. apply archive_names_NoDup.
  - intros H2. rewrite Hn, H2. reflexivity.
Qed.

End PackagingFacts.

Lemma build_package_entry_names_witness :
  exists entries : list (str * file),
    w_fs (snd (@build_package Latin1.db Posix.os (pystr "My Exercise #1.pdf")
                 [Demo.solution_text; Demo.solution_text] [Demo.addition_case]
                 Demo.empty_world))
      !! pystr "/tmp/my_exercise_1pdf_suite.zip" = Some (Archive entries)
    /\ map fst entries = archive_names 2
    /\ List.NoDup (map fst entries)
    /\ (2%nat = 2%nat ->
        map fst entries
        = [pystr "solution_1.py"; pystr "solution_2.py";
           pystr "tests/test_solution_1.py"; pystr "tests/test_solution_2.py"]).
Proof.
  apply (@build_package_entry_names Latin1.db Posix.os
           (pystr "My Exercise #1.pdf")
           [Demo.solution_text; Demo.solution_text] [Demo.addition_case]
           Demo.empty_world _ (pystr "my_exercise_1pdf_suite.zip")
           (Path (pystr "/tmp/my_exercise_1pdf_suite.zip"))).
  vm_compute. reflexivity.
Defined.

(** ** Reading back what was written *)

Lemma iterencode_list_eq (ensure_ascii : bool) (level : nat) (x : pyval)
    (l : list pyval) :
  Json.iterencode ensure_ascii level (PList (x :: l))
  = emit_seq (emit_str (91 :: Json.newline_indent (S level)))
      (emit_seq (iterencode_list_items ensure_ascii level true (x :: l))
                (emit_str (Json.newline_indent level ++ [93]))).
Proof. reflexivity. Qed.

Lemma iterencode_dict_eq (ensure_ascii : bool) (level : nat)
    (kv : pyval * pyval) (d : list (pyval * pyval)) :
  Json.iterencode ensure_ascii level (PDict (kv :: d))
  = emit_seq (emit_str (123 :: Json.newline_indent (S level)))
      (emit_seq (iterencode_dict_items ensure_ascii level true (kv :: d))
                (emit_str (Json.newline_indent level ++ [125]))).
Proof. reflexivity. Qed.

Lemma skip_ws_indent (level : nat) (t : str) :
  Json.skip_ws (Json.newline_indent level ++ t) = Json.skip_ws t.
Proof.
  unfold Json.newline_indent, Json.skip_ws.
  change ((NL :: repeat 32 (2 * level)%nat) ++ t)
    with (NL :: (repeat 32 (2 * level)%nat ++ t)).
  change (dropwhile Json.is_ws (NL :: (repeat 32 (2 * level)%nat ++ t)))
    with (dropwhile Json.is_ws (repeat 32 (2 * level)%nat ++ t)).
  induction (2 * level)%nat as [|n IH]; [reflexivity | exact IH].
Qed.

Lemma skip_ws_id (c : N) (t : str) :
  Json.is_ws c = false -> Json.skip_ws (c :: t) = c :: t.
Proof. intros H. unfold Json.skip_ws. simpl. rewrite H. reflexivity. Qed.

Lemma scanstring_plain (c : N) (t : str) :
  c <> 34 -> c <> 92 -> 32 <= c ->
  Json.scanstring false (c :: t) = Json.cons_char c (Json.scanstring false t).
Proof.
  intros H1 H2 H3. cbn [Json.scanstring].
  destruct (N.eqb_spec c 34); [contradiction |].
  destruct (N.eqb_spec c 92); [contradiction |].
  destruct (N.ltb_spec c 32); [lia | reflexivity].
Qed.

Lemma scanstring_simple_escape (e ch : N) (t : str) :
  e <> 117 -> Json.backslash e = Some ch ->
  Json.scanstring false (92 :: e :: t)
  = Json.cons_char ch (Json.scanstring false t).
Proof.
  intros H1 H2. cbn [Json.scanstring].
  change (92 =? 34) with false. change (92 =? 92) with true. cbv iota.
  destruct (N.eqb_spec e 117); [contradiction |].
  rewrite andb_false_r, H2. reflexivity.
Qed.

Lemma scanstring_u (h1 h2 h3 h4 uni : N) (t : str) :
  Json.decode_u h1 h2 h3 h4 = Some uni ->
  Json.is_high_surrogate uni = false ->
  Json.scanstring false (92 :: 117 :: h1 :: h2 :: h3 :: h4 :: t)
  = Json.cons_char uni (Json.scanstring false t).
Proof.
  intros H1 H2. cbn [Json.scanstring].
  change (92 =? 34) with false. change (92 =? 92) with true.
  change (117 =? 117) with true. cbv iota.
  rewrite H1, H2. cbn [andb].
  repeat (match goal with
          | |- context [match ?x with _ => _ end] => is_var x; destruct x
          end; cbv beta iota; try reflexivity).
Qed.

Lemma scanstring_escape_char (c : N) (t : str) :
  Json.scanstring false (Json.escape_char c ++ t)
  = Json.cons_char c (Json.scanstring false t).
Proof.
  destruct (N.ltb_spec c 32) as [Hc | Hc].
  - destruct c as [|p];
      [| repeat (match goal with
                 | q : positive |- _ => destruct q as [q|q|]; try lia
                 end)];
      match goal with
      | |- context [Json.escape_char ?x] =>
          let e := eval vm_compute in (Json.escape_char x) in
          change (Json.escape_char x) with e
      end;
      first [ apply scanstring_u; reflexivity
            | apply scanstring_simple_escape; [discriminate | reflexivity] ].
  - unfold Json.escape_char, Json.escape_dct.
    destruct (N.eqb_spec c 92) as [-> | H92];
      [apply scanstring_simple_escape; [discriminate | reflexivity] |].
    destruct (N.eqb_spec c 34) as [-> | H34];
      [apply scanstring_simple_escape; [discriminate | reflexivity] |].
    destruct (N.eqb_spec c 8); [lia |].
    destruct (N.eqb_spec c 12); [lia |].
    destruct (N.eqb_spec c 10); [lia |].
    destruct (N.eqb_spec c 13); [lia |].
    destruct (N.eqb_spec c 9); [lia |].
    destruct (N.ltb_spec c 32); [lia |].
    apply scanstring_plain; assumption.
Qed.

(** [scanstring] reads back the text of [py_encode_basestring]. *)
Lemma scanstring_encode (s rest : str) :
  Json.scanstring false (concat (map Json.escape_char s) ++ 34 :: rest)
  = Ok (s, rest).
Proof.
  induction s as [|c s IH]; [reflexivity |].
  cbn [map concat]. rewrite <- app_assoc, scanstring_escape_char, IH.
  reflexivity.
Qed.

(** *** Integers *)

Lemma value_of_digits_acc (d : Decimal.uint) (acc : positive) :
  Json.value_of_digits (Npos acc) (Json.digits_of_uint d)
  = Npos (Pos.of_uint_acc d acc).
Proof.
  revert acc. induction d; intros acc; cbn [Json.digits_of_uint Json.value_of_digits Pos.of_uint_acc];
    [reflexivity | ..];
    match goal with
    | |- Json.value_of_digits ?a _ = N.pos (Pos.of_uint_acc _ ?b) =>
        replace a with (N.pos b) by lia
    end; apply IHd.
Qed.

Lemma value_of_digits_uint (d : Decimal.uint) :
  Json.value_of_digits 0 (Json.digits_of_uint d) = N.of_uint d.
Proof.
  induction d; cbn [Json.digits_of_uint Json.value_of_digits];
    [reflexivity | exact IHd | ..];
    match goal with
    | |- Json.value_of_digits ?a _ = _ =>
        let v := eval vm_compute in a in change a with v
    end; apply value_of_digits_acc.
Qed.

Lemma value_of_nat_str (n : N) : Json.value_of_digits 0 (Json.nat_str n) = n.
Proof.
  unfold Json.nat_str. rewrite value_of_digits_uint. apply Unsigned.of_to.
Qed.

Lemma read_digits_all (ds rest : str) :
  Forall (fun c => 48 <= c /\ c <= 57) ds ->
  match rest with [] => True | c :: _ => Json.is_digit c = false end ->
  Json.read_digits (ds ++ rest) = (ds, rest).
Proof.
  intros Hd Hr. induction Hd as [|c ds Hc _ IH].
  - destruct rest as [|c r]; [reflexivity |]. simpl. rewrite Hr. reflexivity.
  - change ((c :: ds) ++ rest) with (c :: (ds ++ rest)).
    cbn [Json.read_digits]. rewrite IH.
    unfold Json.is_digit.
    destruct (N.leb_spec 48 c); [| lia]. destruct (N.leb_spec c 57); [| lia].
    reflexivity.
Qed.

Lemma to_uint_leading_zero (n : N) (r : Decimal.uint) :
  N.to_uint n = Decimal.D0 r -> r = Decimal.Nil.
Proof.
  intros E.
  assert (Hn : N.to_uint n = Decimal.unorm (N.to_uint n))
    by (rewrite <- Unsigned.to_of, Unsigned.of_to; reflexivity).
  rewrite E, unorm_D0 in Hn.
  assert (Hl : r <> Decimal.Nil -> False).
  { intros Hr. pose proof (nb_digits_unorm r Hr) as Hl.
    rewrite <- Hn in Hl. simpl in Hl. lia. }
  destruct r; [reflexivity | exfalso; apply Hl; discriminate ..].
Qed.

Lemma nat_str_nonempty (n : N) : Json.nat_str n <> [].
Proof.
  unfold Json.nat_str.
  assert (Hn : N.to_uint n = Decimal.unorm (N.to_uint n))
    by (rewrite <- Unsigned.to_of, Unsigned.of_to; reflexivity).
  destruct (N.to_uint n); discriminate.
Qed.

Lemma nat_str_zero (n : N) (t : str) : Json.nat_str n = 48 :: t -> t = [].
Proof.
  unfold Json.nat_str. destruct (N.to_uint n) eqn:E; try discriminate.
  intros H. apply to_uint_leading_zero in E. subst. injection H as <-.
  reflexivity.
Qed.

Lemma float_tail_delimited (rest : str) :
  delimited rest -> Json.float_tail rest = false.
Proof.
  destruct rest as [|c r]; [reflexivity |]. intros [-> | ->]; reflexivity.
Qed.

Lemma not_digit_delimited (rest : str) :
  delimited rest ->
  match rest with [] => True | c :: _ => Json.is_digit c = false end.
Proof.
  destruct rest as [|c r]; [trivial |]. intros [-> | ->]; reflexivity.
Qed.

Lemma digit_cases (c : N) :
  48 <= c /\ c <= 57 ->
  c = 48 \/ c = 49 \/ c = 50 \/ c = 51 \/ c = 52 \/ c = 53 \/ c = 54
  \/ c = 55 \/ c = 56 \/ c = 57.
Proof. lia. Qed.

(** [NUMBER_RE] reads back the digits of [int.__repr__]. *)
Lemma scan_number_nat_str (negative : bool) (n : N) (rest : str) :
  delimited rest ->
  Json.scan_number false negative (Json.nat_str n ++ rest)
  = Ok (PInt (if negative then (- Z.of_N n)%Z else Z.of_N n), rest).
Proof.
  intros Hd.
  pose proof (digits_of_uint_digits (N.to_uint n)) as Hds.
  pose proof (nat_str_nonempty n) as Hne.
  pose proof (nat_str_zero n) as Hz.
  pose proof (value_of_nat_str n) as Hv.
  fold (Json.nat_str n) in Hds.
  destruct (Json.nat_str n) as [|c t] eqn:E; [congruence |].
  assert (Hr : Json.read_digits ((c :: t) ++ rest) = (c :: t, rest))
    by (apply read_digits_all; [exact Hds | apply not_digit_delimited, Hd]).
  unfold Json.scan_number.
  pose proof (List.Forall_inv Hds) as Hc. cbv beta in Hc.
  destruct (digit_cases c Hc) as [-> | Hc'].
  - rewrite (Hz t eq_refl) in *.
    change ([48] ++ rest) with (48 :: rest). cbv iota.
    rewrite float_tail_delimited by exact Hd.
    rewrite Hv. reflexivity.
  - assert (Hm : match (c :: t) ++ rest with
                 | 48 :: t0 => ([48], t0)
                 | _ => Json.read_digits ((c :: t) ++ rest)
                 end = (c :: t, rest)).
    { rewrite Hr.
      repeat (destruct Hc' as [-> | Hc']; [reflexivity |]). subst; reflexivity. }
    rewrite Hm, float_tail_delimited by exact Hd.
    rewrite Hv. reflexivity.
Qed.

Section ScanFacts.
Variable fuel : nat.
Variable rest : str.
Hypothesis Hrest : delimited rest.

Lemma scan_once_int (z : Z) :
  Json.scan_once Json.json_dialect (S fuel) (Json.int_str z ++ rest)
  = Ok (PInt z, rest).
Proof.
  destruct z as [|p|p].
  - pose proof (scan_number_nat_str false 0 rest Hrest) as H.
    destruct rest as [|c r]; [reflexivity |].
    destruct Hrest as [-> | ->]; reflexivity.
  - unfold Json.int_str.
    pose proof (scan_number_nat_str false (Z.to_N (Z.pos p)) rest Hrest) as H.
    pose proof (digits_of_uint_digits (N.to_uint (Z.to_N (Z.pos p)))) as Hds.
    pose proof (nat_str_nonempty (Z.to_N (Z.pos p))) as Hne.
    fold (Json.nat_str (Z.to_N (Z.pos p))) in Hds.
    destruct (Json.nat_str (Z.to_N (Z.pos p))) as [|c t] eqn:E; [congruence |].
    pose proof (List.Forall_inv Hds) as Hc. cbv beta in Hc.
    change ((c :: t) ++ rest) with (c :: (t ++ rest)) in *.
    cbn [Json.scan_once Json.json_dialect Json.python_source].
    replace (c =? 34) with false by (symmetry; apply N.eqb_neq; lia).
    replace (c =? 91) with false by (symmetry; apply N.eqb_neq; lia).
    replace (c =? 123) with false by (symmetry; apply N.eqb_neq; lia).
    replace (c =? 45) with false by (symmetry; apply N.eqb_neq; lia).
    replace (Json.is_digit c) with true
      by (unfold Json.is_digit; symmetry; apply andb_true_intro;
          split; apply N.leb_le; lia).
    rewrite H. reflexivity.
  - unfold Json.int_str.
    change ((45 :: Json.nat_str (N.pos p)) ++ rest)
      with (45 :: (Json.nat_str (N.pos p) ++ rest)).
    cbn [Json.scan_once Json.json_dialect Json.python_source].
    change (45 =? 34) with false. change (45 =? 91) with false.
    change (45 =? 123) with false. change (45 =? 45) with true. cbv iota.
    rewrite scan_number_nat_str by exact Hrest. reflexivity.
Qed.

Lemma scan_once_none :
  Json.scan_once Json.json_dialect (S fuel) (pystr "null" ++ rest)
  = Ok (PNone, rest).
Proof.
  destruct rest as [|c r]; [reflexivity |].
  destruct Hrest as [-> | ->]; reflexivity.
Qed.

Lemma scan_once_bool (b : bool) :
  Json.scan_once Json.json_dialect (S fuel)
    (pystr (if b then "true" else "false") ++ rest)
  = Ok (PBool b, rest).
Proof.
  destruct rest as [|c r]; [destruct b; reflexivity |].
  destruct Hrest as [-> | ->]; destruct b; reflexivity.
Qed.

End ScanFacts.

Lemma scan_once_str (fuel : nat) (s rest : str) :
  Json.scan_once Json.json_dialect (S fuel)
    (Json.encode_basestring false s ++ rest)
  = Ok (PStr s, rest).
Proof.
  unfold Json.encode_basestring.
  change (([34] ++ concat (map Json.escape_char s) ++ [34]) ++ rest)
    with (34 :: ((concat (map Json.escape_char s) ++ [34]) ++ rest)).
  rewrite <- app_assoc.
  change ([34] ++ rest) with (34 :: rest).
  cbn [Json.scan_once Json.json_dialect Json.python_source].
  change (34 =? 34) with true. cbv iota.
  rewrite scanstring_encode. reflexivity.
Qed.

(** *** The equations of the scanner *)

Lemma scan_array_eq (dl : Json.dialect) (f : nat) (s : str) :
  Json.scan_array dl (S f) s
  = Json.bind (Json.scan_once dl f s) (fun p =>
      match Json.skip_ws (snd p) with
      | 93 :: rest => Ok ([fst p], rest)
      | 44 :: rest =>
          Json.bind (Json.scan_array dl f (Json.skip_ws rest))
                    (fun q => Ok (fst p :: fst q, snd q))
      | _ => Raise (if Json.python_source dl then SyntaxError else JSONDecodeError)
      end).
Proof. reflexivity. Qed.

Lemma scan_object_eq (dl : Json.dialect) (f : nat) (t : str) :
  Json.scan_object dl (S f) (34 :: t)
  = Json.bind (Json.scanstring (Json.python_source dl) t) (fun k =>
      match Json.skip_ws (snd k) with
      | 58 :: t1 =>
          Json.bind (Json.scan_once dl f (Json.skip_ws t1)) (fun p =>
            match Json.skip_ws (snd p) with
            | 125 :: rest => Ok ([(fst k, fst p)], rest)
            | 44 :: rest =>
                Json.bind (Json.scan_object dl f (Json.skip_ws rest))
                          (fun q => Ok ((fst k, fst p) :: fst q, snd q))
            | _ => Raise (if Json.python_source dl then SyntaxError
                          else JSONDecodeError)
            end)
      | _ => Raise (if Json.python_source dl then SyntaxError else JSONDecodeError)
      end).
Proof. reflexivity. Qed.

Lemma scan_once_list_eq (dl : Json.dialect) (f : nat) (t : str) :
  Json.scan_once dl (S f) (91 :: t)
  = match Json.skip_ws t with
    | 93 :: rest => Ok (PList [], rest)
    | t' => Json.bind (Json.scan_array dl f t')
                      (fun p => Ok (PList (fst p), snd p))
    end.
Proof. reflexivity. Qed.

Lemma scan_once_dict_eq (dl : Json.dialect) (f : nat) (t : str) :
  Json.scan_once dl (S f) (123 :: t)
  = match Json.skip_ws t with
    | 125 :: rest => Ok (PDict [], rest)
    | t' => Json.bind (Json.scan_object dl f t')
                      (fun p => Ok (Json.dict_of_pairs (fst p), snd p))
    end.
Proof. reflexivity. Qed.

Lemma match_not_93 {T : Type} (A B : str -> T) (c : N) (r : str) :
  c <> 93 ->
  match c :: r with
  | 93 :: rest => A rest
  | t' => B t'
  end = B (c :: r).
Proof.
  intros H. cbv beta iota.
  repeat (match goal with
          | |- context [match ?x with _ => _ end] => is_var x; destruct x
          end; cbv beta iota; try reflexivity; try congruence).
Qed.

Lemma match_not_125 {T : Type} (A B : str -> T) (c : N) (r : str) :
  c <> 125 ->
  match c :: r with
  | 125 :: rest => A rest
  | t' => B t'
  end = B (c :: r).
Proof.
  intros H. cbv beta iota.
  repeat (match goal with
          | |- context [match ?x with _ => _ end] => is_var x; destruct x
          end; cbv beta iota; try reflexivity; try congruence).
Qed.

Lemma scan_once_list_items (dl : Json.dialect) (f : nat) (t : str) (c : N)
    (r : str) :
  Json.skip_ws t = c :: r -> c <> 93 ->
  Json.scan_once dl (S f) (91 :: t)
  = Json.bind (Json.scan_array dl f (c :: r))
              (fun p => Ok (PList (fst p), snd p)).
Proof.
  intros E H. rewrite scan_once_list_eq, E.
  apply (match_not_93 (fun rest => Ok (PList [], rest))
           (fun t' => Json.bind (Json.scan_array dl f t')
                                (fun p => Ok (PList (fst p), snd p)))).
  exact H.
Qed.

Lemma scan_once_dict_items (dl : Json.dialect) (f : nat) (t : str) (c : N)
    (r : str) :
  Json.skip_ws t = c :: r -> c <> 125 ->
  Json.scan_once dl (S f) (123 :: t)
  = Json.bind (Json.scan_object dl f (c :: r))
              (fun p => Ok (Json.dict_of_pairs (fst p), snd p)).
Proof.
  intros E H. rewrite scan_once_dict_eq, E.
  apply (match_not_125 (fun rest => Ok (PDict [], rest))
           (fun t' => Json.bind (Json.scan_object dl f t')
                                (fun p => Ok (Json.dict_of_pairs (fst p), snd p)))).
  exact H.
Qed.

Lemma list_items_cons (ensure_ascii : bool) (level : nat) (first : bool)
    (v : pyval) (rest : list pyval) :
  iterencode_list_items ensure_ascii level first (v :: rest)
  = emit_seq
      (emit_str (if first then [] else 44 :: Json.newline_indent (S level)))
      (emit_seq (Json.iterencode ensure_ascii (S level) v)
                (iterencode_list_items ensure_ascii level false rest)).
Proof. reflexivity. Qed.

Lemma dict_items_cons (ensure_ascii : bool) (level : nat) (first : bool)
    (k : str) (v : pyval) (rest : list (pyval * pyval)) :
  iterencode_dict_items ensure_ascii level first ((PStr k, v) :: rest)
  = emit_seq
      (emit_str ((if first then [] else 44 :: Json.newline_indent (S level))
                 ++ Json.encode_basestring ensure_ascii k ++ [58; 32]))
      (emit_seq (Json.iterencode ensure_ascii (S level) v)
                (iterencode_dict_items ensure_ascii level false rest)).
Proof. reflexivity. Qed.

Lemma starts_value_skip_ws (s t : str) :
  starts_value s -> Json.skip_ws (s ++ t) = s ++ t.
Proof.
  destruct s as [|c s]; [contradiction |]. intros (Hw & _).
  apply skip_ws_id, Hw.
Qed.

Lemma starts_value_length (s : str) : starts_value s -> (1 <= length s)%nat.
Proof. destruct s; [contradiction | simpl; lia]. Qed.

Lemma delimited_indent (level : nat) (t : str) :
  delimited (Json.newline_indent level ++ t).
Proof. right. reflexivity. Qed.

Lemma clean_indent (level : nat) : Forall clean_char (Json.newline_indent level).
Proof.
  unfold Json.newline_indent.
  constructor; [split; [discriminate | reflexivity] |].
  apply List.Forall_forall. intros c Hc. apply List.repeat_spec in Hc. subst.
  split; [discriminate | reflexivity].
Qed.

(** The items of a list are read back by [JSONArray]. *)
Lemma list_items_read_back (l : list pyval) :
  Forall reads_back l -> forallb json_native l = true -> l <> [] ->
  forall (level : nat) (first : bool), exists s : str,
    iterencode_list_items false level first l
    = ((if first then [] else 44 :: Json.newline_indent (S level)) ++ s, None)
    /\ starts_value s /\ Forall clean_char s
    /\ forall (fuel : nat) (tail : str),
         (length s < fuel)%nat ->
         Json.scan_array Json.json_dialect fuel
           (s ++ Json.newline_indent level ++ 93 :: tail)
         = Ok (l, tail).
Proof.
  induction 1 as [|x l Hx Hl IH]; intros Hn Hne level first; [congruence |].
  cbn [forallb] in Hn. apply andb_prop in Hn as [Hnx Hnl].
  destruct (Hx Hnx (S level)) as (sx & Ex & Hsx & Hcx & Hscan).
  rewrite list_items_cons, Ex.
  destruct l as [|y l'].
  - exists sx. split; [| split; [exact Hsx | split; [exact Hcx |]]].
    + unfold emit_seq, emit_str. cbn [fst snd iterencode_list_items].
      rewrite app_nil_r. reflexivity.
    + intros fuel tail Hf. destruct fuel as [|f]; [lia |].
      rewrite scan_array_eq, Hscan by (lia || apply delimited_indent).
      cbn [Json.bind fst snd]. rewrite skip_ws_indent. reflexivity.
  - destruct (IH Hnl ltac:(discriminate) level false)
      as (sr & Er & Hsr & Hcr & Hscanr).
    rewrite Er.
    exists (sx ++ 44 :: Json.newline_indent (S level) ++ sr).
    split; [| split; [| split]].
    + unfold emit_seq, emit_str. cbn [fst snd]. reflexivity.
    + destruct sx; [contradiction | exact Hsx].
    + apply Forall_app; split; [exact Hcx |].
      constructor; [split; [discriminate | reflexivity] |].
      apply Forall_app; split; [apply clean_indent | exact Hcr].
    + intros fuel tail Hf. rewrite length_app in Hf. cbn [length] in Hf.
      rewrite length_app in Hf.
      pose proof (starts_value_length _ Hsx).
      destruct fuel as [|f]; [lia |].
      rewrite <- app_assoc.
      rewrite scan_array_eq, Hscan by (lia || (left; reflexivity)).
      cbn [Json.bind fst snd].
      change ((44 :: Json.newline_indent (S level) ++ sr)
              ++ Json.newline_indent level ++ 93 :: tail)
        with (44 :: ((Json.newline_indent (S level) ++ sr)
                     ++ Json.newline_indent level ++ 93 :: tail)).
      rewrite skip_ws_id by reflexivity. cbv iota.
      rewrite <- app_assoc, skip_ws_indent.
      rewrite starts_value_skip_ws by exact Hsr.
      rewrite Hscanr by lia. reflexivity.
Qed.

Lemma clean_escape_char (c : N) :
  is_surrogate c = false -> Forall clean_char (Json.escape_char c).
Proof.
  intros Hs. destruct (N.ltb_spec c 32) as [Hc | Hc].
  - clear Hs. destruct c as [|p];
      [| repeat (match goal with
                 | q : positive |- _ => destruct q as [q|q|]; try lia
                 end)];
      repeat constructor; discriminate.
  - unfold Json.escape_char, Json.escape_dct.
    destruct (N.eqb_spec c 92) as [-> | H92];
      [repeat constructor; discriminate |].
    destruct (N.eqb_spec c 34) as [-> | H34];
      [repeat constructor; discriminate |].
    destruct (N.eqb_spec c 8); [lia |].
    destruct (N.eqb_spec c 12); [lia |].
    destruct (N.eqb_spec c 10); [lia |].
    destruct (N.eqb_spec c 13); [lia |].
    destruct (N.eqb_spec c 9); [lia |].
    destruct (N.ltb_spec c 32); [lia |].
    repeat constructor; [lia | exact Hs].
Qed.

Lemma clean_escaped (s : str) :
  existsb is_surrogate s = false ->
  Forall clean_char (concat (map Json.escape_char s)).
Proof.
  induction s as [|c s IH]; intros H; [constructor |].
  cbn [existsb] in H. apply orb_false_elim in H as [Hc Hs].
  cbn [map concat]. apply Forall_app; split;
    [apply clean_escape_char, Hc | apply IH, Hs].
Qed.

Lemma clean_digits (ds : str) :
  Forall (fun c => 48 <= c /\ c <= 57) ds -> Forall clean_char ds.
Proof.
  apply List.Forall_impl. intros c Hc. split; [lia |].
  unfold is_surrogate. destruct (N.leb_spec 55296 c); [lia | reflexivity].
Qed.

Lemma encode_basestring_app (s t : str) :
  Json.encode_basestring false s ++ t
  = 34 :: concat (map Json.escape_char s) ++ 34 :: t.
Proof.
  unfold Json.encode_basestring. rewrite <- !app_assoc. reflexivity.
Qed.

Lemma skip_ws_space (t : str) : Json.skip_ws (32 :: t) = Json.skip_ws t.
Proof. reflexivity. Qed.

(** The items of a dict are read back by [JSONObject]. *)
Lemma dict_items_read_back (d : list (pyval * pyval)) :
  Forall (fun kv => reads_back (fst kv) /\ reads_back (snd kv)) d ->
  forallb (fun kv =>
             match fst kv with
             | PStr k => negb (existsb is_surrogate k)
             | _ => false
             end && json_native (snd kv)) d = true ->
  d <> [] ->
  forall (level : nat) (first : bool),
  exists (s : str) (pairs : list (str * pyval)),
    iterencode_dict_items false level first d
    = ((if first then [] else 44 :: Json.newline_indent (S level)) ++ s, None)
    /\ starts_value s /\ Forall clean_char s
    /\ map (fun kv => (PStr (fst kv), snd kv)) pairs = d
    /\ forall (fuel : nat) (tail : str),
         (length s < fuel)%nat ->
         Json.scan_object Json.json_dialect fuel
           (s ++ Json.newline_indent level ++ 125 :: tail)
         = Ok (pairs, tail).
Proof.
  induction 1 as [|[k v] d [_ Hv] Hd IH]; intros Hn Hne level first;
    [congruence |].
  cbn [forallb fst snd] in Hn. apply andb_prop in Hn as [Hnkv Hnd].
  destruct k as [| | |k| | | |]; try discriminate Hnkv.
  apply andb_prop in Hnkv as [Hk Hnv]. apply negb_true_iff in Hk.
  cbn [snd] in Hv.
  destruct (Hv Hnv (S level)) as (sv & Ev & Hsv & Hcv & Hscan).
  rewrite dict_items_cons, Ev.
  pose proof (starts_value_length _ Hsv) as Hlv.
  assert (Hkey : forall t : str,
             Forall clean_char t ->
             Forall clean_char
               (34 :: concat (map Json.escape_char k) ++ 34 :: 58 :: 32 :: t)).
  { intros t Ht. constructor; [split; [discriminate | reflexivity] |].
    apply Forall_app; split; [apply clean_escaped, Hk |].
    repeat (constructor; [split; [discriminate | reflexivity] |]). exact Ht. }
  destruct d as [|kv' d'].
  - exists (34 :: concat (map Json.escape_char k) ++ 34 :: 58 :: 32 :: sv),
      [(k, v)].
    split; [| split; [| split; [| split]]].
    + unfold emit_seq, emit_str. cbn [fst snd iterencode_dict_items].
      f_equal. rewrite app_nil_r, <- !app_assoc, encode_basestring_app.
      reflexivity.
    + repeat split; discriminate.
    + apply Hkey, Hcv.
    + reflexivity.
    + intros fuel tail Hf. cbn [length] in Hf. rewrite length_app in Hf.
      cbn [length] in Hf.
      destruct fuel as [|f]; [lia |].
      change ((34 :: concat (map Json.escape_char k) ++ 34 :: 58 :: 32 :: sv)
              ++ Json.newline_indent level ++ 125 :: tail)
        with (34 :: ((concat (map Json.escape_char k) ++ 34 :: 58 :: 32 :: sv)
                     ++ Json.newline_indent level ++ 125 :: tail)).
      rewrite <- app_assoc.
      change ((34 :: 58 :: 32 :: sv) ++ Json.newline_indent level ++ 125 :: tail)
        with (34 :: 58 :: 32 :: (sv ++ Json.newline_indent level ++ 125 :: tail)).
      rewrite scan_object_eq.
      change (Json.python_source Json.json_dialect) with false.
      rewrite scanstring_encode. cbn [Json.bind fst snd].
      rewrite skip_ws_id by reflexivity. cbv iota.
      rewrite skip_ws_space, starts_value_skip_ws by exact Hsv.
      rewrite Hscan by (lia || apply delimited_indent).
      cbn [Json.bind fst snd]. rewrite skip_ws_indent. reflexivity.
  - destruct (IH Hnd ltac:(discriminate) level false)
      as (sr & pairs & Er & Hsr & Hcr & Hpairs & Hscanr).
    rewrite Er.
    exists (34 :: concat (map Json.escape_char k) ++ 34 :: 58 :: 32 ::
            (sv ++ 44 :: Json.newline_indent (S level) ++ sr)),
      ((k, v) :: pairs).
    split; [| split; [| split; [| split]]].
    + unfold emit_seq, emit_str. cbn [fst snd].
      f_equal. rewrite <- !app_assoc, encode_basestring_app.
      reflexivity.
    + repeat split; discriminate.
    + apply Hkey. apply Forall_app; split; [exact Hcv |].
      constructor; [split; [discriminate | reflexivity] |].
      apply Forall_app; split; [apply clean_indent | exact Hcr].
    + cbn [map fst snd]. rewrite Hpairs. reflexivity.
    + intros fuel tail Hf. cbn [length] in Hf. rewrite length_app in Hf.
      cbn [length] in Hf. rewrite length_app in Hf. cbn [length] in Hf.
      rewrite length_app in Hf.
      destruct fuel as [|f]; [lia |].
      change ((34 :: concat (map Json.escape_char k) ++ 34 :: 58 :: 32 ::
               (sv ++ 44 :: Json.newline_indent (S level) ++ sr))
              ++ Json.newline_indent level ++ 125 :: tail)
        with (34 :: ((concat (map Json.escape_char k) ++ 34 :: 58 :: 32 ::
                      (sv ++ 44 :: Json.newline_indent (S level) ++ sr))
                     ++ Json.newline_indent level ++ 125 :: tail)).
      rewrite <- app_assoc.
      change ((34 :: 58 :: 32 ::
               (sv ++ 44 :: Json.newline_indent (S level) ++ sr))
              ++ Json.newline_indent level ++ 125 :: tail)
        with (34 :: 58 :: 32 ::
              ((sv ++ 44 :: Json.newline_indent (S level) ++ sr)
               ++ Json.newline_indent level ++ 125 :: tail)).
      rewrite <- app_assoc.
      change ((44 :: Json.newline_indent (S level) ++ sr)
              ++ Json.newline_indent level ++ 125 :: tail)
        with (44 :: ((Json.newline_indent (S level) ++ sr)
                     ++ Json.newline_indent level ++ 125 :: tail)).
      rewrite <- app_assoc.
      rewrite scan_object_eq.
      change (Json.python_source Json.json_dialect) with false.
      rewrite scanstring_encode. cbn [Json.bind fst snd].
      rewrite skip_ws_id by reflexivity. cbv iota.
      rewrite skip_ws_space, starts_value_skip_ws by exact Hsv.
      rewrite Hscan by (lia || (left; reflexivity)).
      cbn [Json.bind fst snd].
      rewrite skip_ws_id by reflexivity. cbv iota.
      rewrite skip_ws_indent, starts_value_skip_ws by exact Hsr.
      rewrite Hscanr by lia. reflexivity.
Qed.

Lemma dict_set_fresh (k : str) (v : pyval) (acc : list (str * pyval)) :
  ~ List.In k (map fst acc) -> Json.dict_set k v acc = acc ++ [(k, v)].
Proof.
  induction acc as [|[k' v'] acc IH]; intros Hk; [reflexivity |].
  cbn [Json.dict_set]. destruct (decide (k' = k)) as [-> | Hne].
  - exfalso. apply Hk. left. reflexivity.
  - cbn [app]. rewrite IH; [reflexivity |].
    intros Hin. apply Hk. right. exact Hin.
Qed.

(** [dict(pairs)] keeps pairs whose keys differ as they are. *)
Lemma dict_of_distinct_pairs (pairs acc : list (str * pyval)) :
  List.NoDup (map fst (acc ++ pairs)) ->
  fold_left (fun d kv => Json.dict_set (fst kv) (snd kv) d) pairs acc
  = acc ++ pairs.
Proof.
  revert acc. induction pairs as [|[k v] pairs IH]; intros acc Hn.
  - rewrite app_nil_r. reflexivity.
  - cbn [fold_left fst snd]. rewrite dict_set_fresh.
    + rewrite IH; rewrite <- app_assoc; [reflexivity | exact Hn].
    + rewrite List.map_app in Hn. cbn [map fst] in Hn.
      apply List.NoDup_remove_2 in Hn. intros Hin. apply Hn.
      apply List.in_or_app. left. exact Hin.
Qed.

Lemma str_keys_NoDup (pairs : list (str * pyval)) :
  NoDup (map str_key (map (fun kv => (PStr (fst kv), snd kv)) pairs)) ->
  List.NoDup (map fst pairs).
Proof.
  rewrite List.map_map. cbn [str_key fst]. intros H.
  apply NoDup_ListNoDup in H.
  rewrite <- (List.map_map fst Some) in H.
  eapply List.NoDup_map_inv, H.
Qed.

Lemma universal_newlines_clean (s : str) :
  Forall clean_char s -> universal_newlines s = s.
Proof.
  induction 1 as [|c s [Hc _] _ IH]; [reflexivity |].
  assert (E : universal_newlines (c :: s) = c :: universal_newlines s).
  { cbn [universal_newlines].
    repeat (match goal with
            | |- context [match ?x with _ => _ end] => is_var x; destruct x
            end; cbv beta iota; try reflexivity; try congruence). }
  rewrite E, IH. reflexivity.
Qed.

Lemma clean_no_surrogate (s : str) :
  Forall clean_char s -> existsb is_surrogate s = false.
Proof.
  induction 1 as [|c s [_ Hc] _ IH]; [reflexivity |].
  cbn [existsb]. rewrite Hc, IH. reflexivity.
Qed.

Ltac clean_literal :=
  repeat (constructor; [split; [discriminate | reflexivity] |]); constructor.

(** Every value of JSON is read back from its text. *)
Lemma json_native_reads_back (d : pyval) : reads_back d.
Proof.
  induction d as [| b | z | s | l IH | l IH | d IH | what]
    using pyval_induction; intros Hn level; try discriminate Hn.
  - exists (pystr "null"). split; [reflexivity |].
    split; [repeat split; discriminate |]. split; [clean_literal |].
    intros [|f] rest Hf Hr; [cbn in Hf; lia |]. apply scan_once_none, Hr.
  - exists (pystr (if b then "true" else "false")).
    split; [destruct b; reflexivity |].
    split; [destruct b; repeat split; discriminate |].
    split; [destruct b; clean_literal |].
    intros [|f] rest Hf Hr; [destruct b; cbn in Hf; lia |].
    apply scan_once_bool, Hr.
  - exists (Json.int_str z). split; [reflexivity |].
    assert (Hd : forall n : N,
               starts_value (Json.nat_str n)
               /\ Forall clean_char (Json.nat_str n)).
    { intros n. pose proof (digits_of_uint_digits (N.to_uint n)) as Hds.
      pose proof (nat_str_nonempty n) as Hne.
      fold (Json.nat_str n) in Hds. split; [| apply clean_digits, Hds].
      destruct (Json.nat_str n) as [|c t]; [congruence |].
      pose proof (List.Forall_inv Hds) as Hc. cbv beta in Hc.
      unfold starts_value, Json.is_ws.
      repeat split; try lia.
      repeat (apply orb_false_intro); apply N.eqb_neq; lia. }
    split; [| split].
    + destruct z as [|p|p]; [apply (Hd 0) | apply (Hd (N.pos p)) |].
      repeat split; discriminate.
    + destruct z as [|p|p]; [apply (Hd 0) | apply (Hd (N.pos p)) |].
      constructor; [split; [discriminate | reflexivity] | apply (Hd (N.pos p))].
    + intros [|f] rest Hf Hr; [| apply scan_once_int, Hr].
      exfalso.
      assert (1 <= length (Json.int_str z))%nat; [| lia].
      destruct z as [|p|p]; try (apply starts_value_length, Hd).
      cbn [Json.int_str length]. lia.
  - cbn [json_native] in Hn. apply negb_true_iff in Hn.
    exists (Json.encode_basestring false s). split; [reflexivity |].
    split; [repeat split; discriminate |]. split.
    + unfold Json.encode_basestring.
      constructor; [split; [discriminate | reflexivity] |].
      apply Forall_app; split; [apply clean_escaped, Hn | clean_literal].
    + intros [|f] rest Hf Hr; [cbn in Hf; lia |]. apply scan_once_str.
  - cbn [json_native] in Hn. destruct l as [|x l].
    + exists (pystr "[]"). split; [reflexivity |].
      split; [repeat split; discriminate |]. split; [clean_literal |].
      intros [|f] rest Hf Hr; [cbn in Hf; lia | reflexivity].
    + destruct (list_items_read_back (x :: l) IH Hn ltac:(discriminate)
                  level true) as (s & Es & Hs & Hc & Hscan).
      rewrite iterencode_list_eq, Es.
      exists (91 :: Json.newline_indent (S level) ++ s
              ++ Json.newline_indent level ++ [93]).
      split; [reflexivity |]. split; [repeat split; discriminate |]. split.
      * constructor; [split; [discriminate | reflexivity] |].
        apply Forall_app; split; [apply clean_indent |].
        apply Forall_app; split; [exact Hc |].
        apply Forall_app; split; [apply clean_indent | clean_literal].
      * intros fuel rest Hf Hr. cbn [length] in Hf.
        rewrite !length_app in Hf. cbn [length] in Hf.
        destruct fuel as [|f]; [lia |].
        change ((91 :: Json.newline_indent (S level) ++ s
                 ++ Json.newline_indent level ++ [93]) ++ rest)
          with (91 :: ((Json.newline_indent (S level) ++ s
                        ++ Json.newline_indent level ++ [93]) ++ rest)).
        rewrite <- !app_assoc. change ([93] ++ rest) with (93 :: rest).
        destruct s as [|c s']; [contradiction |].
        rewrite (scan_once_list_items _ _ _ c
                   (s' ++ Json.newline_indent level ++ 93 :: rest));
          [| rewrite skip_ws_indent; apply (starts_value_skip_ws (c :: s')), Hs
           | apply Hs].
        change (c :: (s' ++ Json.newline_indent level ++ 93 :: rest))
          with ((c :: s') ++ Json.newline_indent level ++ 93 :: rest).
        rewrite Hscan by (cbn [length] in *; lia). reflexivity.
  - cbn [json_native] in Hn. apply andb_prop in Hn as [Hn Hk].
    apply bool_decide_eq_true_1 in Hk.
    destruct d as [|kv d].
    + exists (pystr "{}"). split; [reflexivity |].
      split; [repeat split; discriminate |]. split; [clean_literal |].
      intros [|f] rest Hf Hr; [cbn in Hf; lia | reflexivity].
    + destruct (dict_items_read_back (kv :: d) IH Hn ltac:(discriminate)
                  level true) as (s & pairs & Es & Hs & Hc & Hp & Hscan).
      rewrite iterencode_dict_eq, Es.
      exists (123 :: Json.newline_indent (S level) ++ s
              ++ Json.newline_indent level ++ [125]).
      split; [reflexivity |]. split; [repeat split; discriminate |]. split.
      * constructor; [split; [discriminate | reflexivity] |].
        apply Forall_app; split; [apply clean_indent |].
        apply Forall_app; split; [exact Hc |].
        apply Forall_app; split; [apply clean_indent | clean_literal].
      * intros fuel rest Hf Hr. cbn [length] in Hf.
        rewrite !length_app in Hf. cbn [length] in Hf.
        destruct fuel as [|f]; [lia |].
        change ((123 :: Json.newline_indent (S level) ++ s
                 ++ Json.newline_indent level ++ [125]) ++ rest)
          with (123 :: ((Json.newline_indent (S level) ++ s
                         ++ Json.newline_indent level ++ [125]) ++ rest)).
        rewrite <- !app_assoc. change ([125] ++ rest) with (125 :: rest).
        destruct s as [|c s']; [contradiction |].
        rewrite (scan_once_dict_items _ _ _ c
                   (s' ++ Json.newline_indent level ++ 125 :: rest));
          [| rewrite skip_ws_indent; apply (starts_value_skip_ws (c :: s')), Hs
           | apply Hs].
        change (c :: (s' ++ Json.newline_indent level ++ 125 :: rest))
          with ((c :: s') ++ Json.newline_indent level ++ 125 :: rest).
        rewrite Hscan by (cbn [length] in *; lia).
        cbn [Json.bind fst snd]. unfold Json.dict_of_pairs.
        rewrite <- Hp in Hk. apply str_keys_NoDup in Hk.
        rewrite (dict_of_distinct_pairs pairs []) by exact Hk.
        rewrite app_nil_l, Hp. reflexivity.
Qed.

Section JsonFiles.
Context {os : Platform}.


End JsonFiles.



(** * Further properties of the code *)

(** ** slugify *)

Lemma dropwhile_all (p : N -> bool) (s : str) :
  Forall (fun c => p c = true) s -> dropwhile p s = [].
Proof.
  induction 1 as [|c s Hc _ IH]; [reflexivity |]. simpl. rewrite Hc. exact IH.
Qed.

Lemma strip_all (p : N -> bool) (s : str) :
  Forall (fun c => p c = true) s -> strip p s = [].
Proof.
  intros H. unfold strip, rstrip, lstrip. rewrite (dropwhile_all p s H).
  reflexivity.
Qed.

Lemma length_dropwhile (p : N -> bool) (s : str) :
  (length (dropwhile p s) <= length s)%nat.
Proof.
  induction s as [|c s IH]; [reflexivity |]. simpl.
  destruct (p c); simpl; lia.
Qed.

Lemma length_strip (p : N -> bool) (s : str) :
  (length (strip p s) <= length s)%nat.
Proof.
  unfold strip, rstrip, lstrip. rewrite length_rev.
  etransitivity; [apply length_dropwhile |]. rewrite length_rev.
  apply length_dropwhile.
Qed.

Lemma length_sub_runs (cls : N -> bool) (c : N) (b : bool) (s : str) :
  (length (sub_runs cls [c] b s) <= length s)%nat.
Proof.
  revert b. induction s as [|x s IH]; intros b; [reflexivity |].
  simpl. destruct (cls x); [destruct b |]; simpl;
    match goal with
    | |- context [sub_runs cls [c] ?b' s] => specialize (IH b')
    end; lia.
Qed.

Section SlugifyMore.
Context {udb : UnicodeDB}.

Lemma slugify_stages_ascii (value : str) :
  Forall (fun c => is_ascii c = true)
    (sub_delete not_word
       (sub_runs space_or_hyphen [UNDERSCORE] false (ascii_ignore value))).
Proof.
  apply sub_delete_Forall, sub_runs_Forall;
    [repeat constructor | apply ascii_ignore_ascii].
Qed.

(** X1. A value without any ASCII letter or digit has the empty slug:
    what is not ASCII is dropped, the separators become underscores, the
    punctuation is deleted, and the underscores that are left are
    stripped. *)
Theorem slugify_no_alnum_empty (value : str) :
  Forall (fun c => is_ascii c = true -> ascii_isalnum c = false) value ->
  slugify value false = [].
Proof.
  intros H. unfold slugify. cbn [negb].
  rewrite lower_ascii by apply slugify_stages_ascii.
  apply strip_all.
  set (P := fun c : N => is_ascii c = true /\ ascii_isalnum c = false).
  assert (H1 : Forall P (ascii_ignore value)).
  { unfold ascii_ignore. apply List.Forall_forall. intros c Hc.
    apply list_elem_of_In, list_elem_of_filter in Hc as [Ha Hin].
    apply list_elem_of_In in Hin.
    rewrite List.Forall_forall in H. split; [exact Ha | exact (H c Hin Ha)]. }
  assert (H2 : Forall P (sub_delete not_word
                 (sub_runs space_or_hyphen [UNDERSCORE] false
                    (ascii_ignore value)))).
  { apply sub_delete_Forall, sub_runs_Forall; [| exact H1].
    repeat constructor. }
  pose proof (sub_delete_class not_word
                (sub_runs space_or_hyphen [UNDERSCORE] false
                   (ascii_ignore value))) as H3.
  rewrite List.Forall_forall in H2, H3.
  apply List.Forall_forall. intros c Hc.
  apply List.in_map_iff in Hc as (x & <- & Hx).
  destruct (H2 x Hx) as [Ha Hn]. specialize (H3 x Hx).
  unfold not_word, re_word in H3. rewrite Ha, Hn in H3.
  unfold is_underscore. cbn [orb negb] in H3.
  rewrite orb_diag in H3. apply negb_false_iff in H3.
  apply N.eqb_eq in H3. subst x. reflexivity.
Qed.

(** X2. The values that [slugify] leaves as they are, are exactly the
    slugs. *)
Theorem slugify_fixed_points (value : str) :
  slugify value false = value <-> is_slug value.
Proof.
  unfold is_slug. split.
  - intros E. rewrite <- E. apply slugify_ascii_shape.
  - intros (H1 & H2 & H3). apply slugify_fixed; assumption.
Qed.

(** X3. A slug is never longer than the value it is made from. *)
Theorem slugify_length (value : str) :
  (length (slugify value false) <= length value)%nat.
Proof.
  unfold slugify. cbn [negb].
  rewrite lower_ascii by apply slugify_stages_ascii.
  etransitivity; [apply length_strip |]. rewrite length_map.
  unfold sub_delete.
  etransitivity; [apply length_filter |].
  etransitivity; [apply length_sub_runs |].
  unfold ascii_ignore. apply length_filter.
Qed.

End SlugifyMore.

Lemma slugify_no_alnum_empty_witness :
  @slugify Latin1.db [45; 45; 32; 233; 33; 63; 95; 32] false = [].
Proof.
  apply (@slugify_no_alnum_empty Latin1.db).
  repeat constructor; intros; try reflexivity; discriminate.
Defined.

(** ** parse_problem_text *)

Section ParseMore.
Context {udb : UnicodeDB}.

Lemma dict_append_keys (key line : str) (d : list (str * list str)) :
  map fst (dict_append key line d) = map fst d.
Proof.
  induction d as [|[k v] d IH]; [reflexivity |]. cbn [dict_append].
  destruct (decide (k = key)); cbn [map fst]; [reflexivity |].
  rewrite IH. reflexivity.
Qed.

Lemma parse_line_keys (st : str * list (str * list str)) (raw_line : str) :
  map fst (snd (parse_line st raw_line)) = map fst (snd st).
Proof.
  destruct st as [cur sections]. unfold parse_line.
  destruct (strip re_space raw_line) as [|c l]; [reflexivity |].
  destruct (first_match SECTION_PATTERNS (c :: l)) as [[name rest]|];
    cbn [snd]; apply dict_append_keys.
Qed.

Lemma fold_parse_line_keys (lines : list str)
    (st : str * list (str * list str)) :
  map fst (snd (fold_left parse_line lines st)) = map fst (snd st).
Proof.
  revert st. induction lines as [|l lines IH]; intros st; [reflexivity |].
  cbn [fold_left]. rewrite IH. apply parse_line_keys.
Qed.

Lemma normalize_keys (sections : list (str * list str)) :
  sublist (map fst (normalize sections)) (map fst sections).
Proof.
  induction sections as [|[k [|l ls]] rest IH]; cbn [normalize map fst].
  - constructor.
  - apply sublist_cons. exact IH.
  - apply sublist_skip. exact IH.
Qed.

(** X4. The keys of the result are section names, each at most once and
    in the order in which [SECTION_PATTERNS] declares them, whatever the
    order of the headers in the text. *)
Theorem parse_problem_text_keys (text : str) :
  sublist (map fst (parse_problem_text text))
    [pystr "statement"; pystr "input"; pystr "output"; pystr "constraints";
     pystr "examples"].
Proof.
  unfold parse_problem_text.
  change [pystr "statement"; pystr "input"; pystr "output";
          pystr "constraints"; pystr "examples"]
    with (map fst (snd (pystr "statement",
                        map (fun kp : str * regex => (fst kp, @nil str))
                            SECTION_PATTERNS))).
  unfold accumulate. rewrite <- (fold_parse_line_keys (splitlines text)).
  apply normalize_keys.
Qed.

Lemma strip_strip (p : N -> bool) (s : str) : strip p (strip p s) = strip p s.
Proof.
  apply strip_id; intros c Hc; [eapply head_strip | eapply last_strip];
    exact Hc.
Qed.

(** X5. No value of the result begins or ends with white space. *)
Theorem parse_problem_text_values_stripped (text : str) :
  Forall (fun kv => strip re_space (snd kv) = snd kv)
         (parse_problem_text text).
Proof.
  unfold parse_problem_text.
  induction (accumulate text) as [|[k [|l ls]] rest IH]; cbn [normalize].
  - constructor.
  - exact IH.
  - constructor; [apply strip_strip | exact IH].
Qed.

Lemma fold_parse_line_plain (lines : list str) :
  forall (acc : list str) (others : list (str * list str)),
  (forall raw, In raw lines ->
     first_match SECTION_PATTERNS (strip re_space raw) = None) ->
  fold_left parse_line lines
    (pystr "statement", (pystr "statement", acc) :: others)
  = (pystr "statement",
     (pystr "statement",
      acc ++ List.filter (fun line => negb (bool_decide (line = [])))
               (map (strip re_space) lines)) :: others).
Proof.
  induction lines as [|raw lines IH]; intros acc others H.
  - cbn [fold_left map List.filter]. rewrite app_nil_r. reflexivity.
  - cbn [fold_left map List.filter].
    assert (Hraw := H raw (or_introl eq_refl)).
    assert (E : parse_line (pystr "statement",
                            (pystr "statement", acc) :: others) raw
                = (pystr "statement",
                   (pystr "statement",
                    acc ++ (if negb (bool_decide (strip re_space raw = []))
                            then [strip re_space raw] else [])) :: others)).
    { unfold parse_line. destruct (strip re_space raw) as [|c l] eqn:Es.
      - rewrite app_nil_r. reflexivity.
      - rewrite Hraw. cbn [dict_append].
        destruct (decide (pystr "statement" = pystr "statement"));
          [| congruence].
        rewrite bool_decide_eq_false_2 by discriminate. reflexivity. }
    rewrite E, IH by (intros r Hr; apply H; right; exact Hr).
    rewrite <- app_assoc.
    destruct (negb (bool_decide (strip re_space raw = []))); reflexivity.
Qed.

(** X6. A text in which no line begins with a header word goes to
    "statement" as a whole: its lines that are not blank, stripped and
    joined; and a text of blank lines only gives the empty dict. *)
Theorem parse_problem_text_no_header (text : str) :
  (forall raw, In raw (splitlines text) ->
     first_match SECTION_PATTERNS (strip re_space raw) = None) ->
  parse_problem_text text
  = match content_lines text with
    | [] => []
    | lines => [(pystr "statement", strip re_space (join [NL] lines))]
    end.
Proof.
  intros H. unfold parse_problem_text, accumulate, content_lines.
  change (map (fun kp : str * regex => (fst kp, @nil str)) SECTION_PATTERNS)
    with [(pystr "statement", @nil str); (pystr "input", []);
          (pystr "output", []); (pystr "constraints", []);
          (pystr "examples", [])].
  rewrite (fold_parse_line_plain (splitlines text) [] _ H).
  cbn [snd]. rewrite app_nil_l.
  destruct (List.filter _ _); reflexivity.
Qed.

End ParseMore.

Lemma parse_problem_text_no_header_witness :
  @parse_problem_text Latin1.db
    (pystr "  Add the two numbers." ++ [NL; NL] ++ pystr "Inputs are small. ")
  = [(pystr "statement",
      pystr "Add the two numbers." ++ [NL] ++ pystr "Inputs are small.")].
Proof.
  apply (@parse_problem_text_no_header Latin1.db
           (pystr "  Add the two numbers." ++ [NL; NL]
            ++ pystr "Inputs are small. ")).
  intros raw Hin. vm_compute in Hin.
  destruct Hin as [<- | [<- | [<- | []]]]; vm_compute; reflexivity.
Defined.

(** ** write_json *)

Section JsonFilesMore.
Context {os : Platform}.




End JsonFilesMore.




(** ** make_zipfile *)

Section ZipMore.
Context {os : Platform}.

Lemma zip_write_all_present (fs : filesystem) (files : list (str * str)) :
  forall acc : list (str * file),
  Forall (fun af => is_Some (fs !! snd af)) files ->
  exists entries : list (str * file),
    zip_write_all fs files acc = (Ok tt, acc ++ entries)
    /\ map fst entries = map (fun af => zip_arcname (fst af)) files
    /\ Forall2 (fun e af => fs !! snd af = Some (snd e)) entries files.
Proof.
  induction files as [|[arcname filename] files IH]; intros acc H.
  - exists []. rewrite app_nil_r. repeat split. constructor.
  - inversion H as [|? ? [f Hf] Hrest]; subst. cbn [snd] in Hf.
    destruct (IH (acc ++ [(zip_arcname arcname, f)]) Hrest)
      as (entries & E & Hn & Hc).
    exists ((zip_arcname arcname, f) :: entries).
    cbn [zip_write_all]. rewrite Hf, E, <- app_assoc.
    split; [reflexivity |]. split.
    + cbn [map fst]. rewrite Hn. reflexivity.
    + constructor; [exact Hf | exact Hc].
Qed.



End ZipMore.

Lemma split_on_no_sep (sep : N) (s : str) :
  forall cur : str,
  Forall (fun c => c <> sep) cur ->
  Forall (Forall (fun c => c <> sep)) (split_on sep cur s).
Proof.
  induction s as [|c s IH]; intros cur Hcur; cbn [split_on].
  - constructor; [exact Hcur | constructor].
  - destruct (N.eqb_spec c sep) as [-> | Hne].
    + constructor; [exact Hcur | apply IH; constructor].
    + apply IH. apply Forall_app; split; [exact Hcur |].
      constructor; [exact Hne | constructor].
Qed.

Lemma Forall_removelast {A : Type} (P : A -> Prop) (l : list A) :
  Forall P l -> Forall P (removelast l).
Proof.
  induction 1 as [|x l Hx Hl IH]; [constructor |].
  cbn [removelast]. destruct l; [constructor |].
  constructor; [exact Hx | exact IH].
Qed.

Lemma normpath_step_components (b : bool) (comps : list str) (comp : str) :
  Forall (fun c => c <> SLASH) comp ->
  Forall (fun p : str => p <> [] /\ Forall (fun c => c <> SLASH) p) comps ->
  Forall (fun p : str => p <> [] /\ Forall (fun c => c <> SLASH) p)
         (normpath_step b comps comp).
Proof.
  intros Hc H. unfold normpath_step.
  destruct (bool_decide (comp = [])) eqn:E; [exact H |].
  apply bool_decide_eq_false_1 in E.
  destruct (bool_decide (comp = [DOT])); [exact H |]. cbn [orb].
  destruct (_ || _ || _).
  - apply Forall_app; split; [exact H |].
    constructor; [split; assumption | constructor].
  - apply Forall_removelast, H.
Qed.

(** X12. The name of an entry never begins with a slash: an entry cannot
    be given an absolute name. *)
Theorem zip_arcname_relative (arcname : str) :
  head (zip_arcname arcname) <> Some SLASH.
Proof.
  unfold zip_arcname.
  assert (H : Forall (fun p : str => p <> [] /\ Forall (fun c => c <> SLASH) p)
                (fold_left (normpath_step (is_absolute arcname))
                           (split_on SLASH [] arcname) [])).
  { pose proof (split_on_no_sep SLASH arcname [] ltac:(constructor)) as Hs.
    generalize (@nil str) (List.Forall_nil (fun p : str =>
                  p <> [] /\ Forall (fun c => c <> SLASH) p)).
    induction Hs as [|comp comps Hcomp _ IH]; intros acc Hacc; [exact Hacc |].
    cbn [fold_left]. apply IH, normpath_step_components; assumption. }
  destruct (fold_left _ _ _) as [|p comps].
  - destruct (is_absolute arcname); discriminate.
  - inversion H as [|? ? [Hne Hp] _]; subst.
    destruct p as [|c p]; [congruence |].
    inversion Hp; subst.
    destruct comps; cbn; congruence.
Qed.



(** ** build_pytest_file and create_test_suite_for_solutions *)

Lemma param_lines_not_dict (test_cases : list pyval) :
  existsb (fun case => negb (is_dict case)) test_cases = true ->
  param_lines test_cases = Raise AttributeError.
Proof.
  induction test_cases as [|case rest IH]; intros H; [discriminate H |].
  cbn [existsb] in H. cbn [param_lines].
  destruct case; try reflexivity.
  cbn [is_dict negb orb] in H. cbn [case_get Json.bind].
  rewrite (IH H). reflexivity.
Qed.

Lemma iterencode_tuple_eq (ensure_ascii : bool) (level : nat) (x : pyval)
    (l : list pyval) :
  Json.iterencode ensure_ascii level (PTuple (x :: l))
  = emit_seq (emit_str (91 :: Json.newline_indent (S level)))
      (emit_seq (iterencode_list_items ensure_ascii level true (x :: l))
                (emit_str (Json.newline_indent level ++ [93]))).
Proof. reflexivity. Qed.

Lemma emit_seq_error (a b : emit) (e : exc) :
  snd (emit_seq a b) = Some e -> snd a = Some e \/ snd b = Some e.
Proof.
  destruct a as [s [x|]]; cbn; intros H; [left | right]; exact H.
Qed.

Lemma list_items_error (ensure_ascii : bool) (l : list pyval) :
  Forall (fun v => forall level e,
            snd (Json.iterencode ensure_ascii level v) = Some e ->
            e = TypeError) l ->
  forall level first e,
    snd (iterencode_list_items ensure_ascii level first l) = Some e ->
    e = TypeError.
Proof.
  induction 1 as [|x l Hx _ IH]; intros level first e H; [discriminate H |].
  rewrite list_items_cons in H.
  apply emit_seq_error in H as [H | H]; [discriminate H |].
  apply emit_seq_error in H as [H | H]; [eapply Hx, H | eapply IH, H].
Qed.

Lemma dict_items_error (ensure_ascii : bool) (d : list (pyval * pyval)) :
  Forall (fun kv =>
            (forall level e,
               snd (Json.iterencode ensure_ascii level (fst kv)) = Some e ->
               e = TypeError)
            /\ (forall level e,
                  snd (Json.iterencode ensure_ascii level (snd kv)) = Some e ->
                  e = TypeError)) d ->
  forall level first e,
    snd (iterencode_dict_items ensure_ascii level first d) = Some e ->
    e = TypeError.
Proof.
  induction 1 as [|[k v] d [_ Hv] _ IH]; intros level first e H;
    [discriminate H |].
  cbn [snd] in Hv.
  assert (E : iterencode_dict_items ensure_ascii level first ((k, v) :: d)
              = match Json.encode_key ensure_ascii k with
                | Raise e => emit_raise e
                | Ok key =>
                    emit_seq
                      (emit_str ((if first then []
                                  else 44 :: Json.newline_indent (S level))
                                 ++ key ++ [58; 32]))
                      (emit_seq (Json.iterencode ensure_ascii (S level) v)
                         (iterencode_dict_items ensure_ascii level false d))
                end) by reflexivity.
  rewrite E in H. clear E.
  destruct (Json.encode_key ensure_ascii k) as [key | e'] eqn:Ek.
  - apply emit_seq_error in H as [H | H]; [discriminate H |].
    apply emit_seq_error in H as [H | H]; [eapply Hv, H | eapply IH, H].
  - cbn in H. injection H as <-.
    destruct k as [| [|] | | | | | |]; cbn in Ek; congruence.
Qed.

(** The encoder raises nothing but TypeError. *)
Lemma iterencode_error (ensure_ascii : bool) (v : pyval) :
  forall level e,
    snd (Json.iterencode ensure_ascii level v) = Some e -> e = TypeError.
Proof.
  induction v as [| b | z | s | l IH | l IH | d IH | what]
    using pyval_induction; intros level e H.
  - discriminate H.
  - destruct b; discriminate H.
  - discriminate H.
  - discriminate H.
  - destruct l as [|x l]; [discriminate H |].
    rewrite iterencode_list_eq in H.
    apply emit_seq_error in H as [H | H]; [discriminate H |].
    apply emit_seq_error in H as [H | H]; [| discriminate H].
    eapply list_items_error; [exact IH | exact H].
  - destruct l as [|x l]; [discriminate H |].
    rewrite iterencode_tuple_eq in H.
    apply emit_seq_error in H as [H | H]; [discriminate H |].
    apply emit_seq_error in H as [H | H]; [| discriminate H].
    eapply list_items_error; [exact IH | exact H].
  - destruct d as [|kv d]; [discriminate H |].
    rewrite iterencode_dict_eq in H.
    apply emit_seq_error in H as [H | H]; [discriminate H |].
    apply emit_seq_error in H as [H | H]; [| discriminate H].
    eapply dict_items_error; [exact IH | exact H].
  - cbn in H. congruence.
Qed.

Section TestBuilderMore.
Context {os : Platform}.

(** X13. A test case that is not a dict has no [get]: the call raises
    AttributeError while the cases are collected, before the file is
    opened, so nothing is written. *)
Theorem build_pytest_file_not_dict (test_cases : list pyval)
    (module_name output_path func_name : str) (fs : filesystem) :
  existsb (fun case => negb (is_dict case)) test_cases = true ->
  build_pytest_file test_cases module_name output_path func_name fs
  = (Raise AttributeError, fs).
Proof.
  intros H. unfold build_pytest_file.
  rewrite (param_lines_not_dict _ H). reflexivity.
Qed.


Lemma build_pytest_file_written (test_cases : list pyval)
    (module_name output_path func_name : str) (fs fs' : filesystem) :
  build_pytest_file test_cases module_name output_path func_name fs
  = (Ok tt, fs') ->
  exists s : str, fs' = <[output_path := Text s]> fs.
Proof.
  unfold build_pytest_file, write_text.
  destruct (param_lines test_cases); [| discriminate].
  destruct (can_write output_path); [| discriminate].
  destruct (existsb is_surrogate (test_file_header module_name func_name));
    [discriminate |].
  destruct (Json.dumps true (PList a)); [| discriminate].
  destruct (existsb is_surrogate _); [discriminate |].
  intros E. injection E as <-. eexists. reflexivity.
Qed.

Lemma build_test_files_written (test_cases : list pyval) (out : path)
    (func_name : str) (solution_files : list str) :
  forall (fs fs' : filesystem) (test_paths : list str),
  build_test_files test_cases solution_files out func_name fs
  = (Ok test_paths, fs') ->
  Forall (fun p => is_Some (fs' !! p)) test_paths
  /\ (forall p, is_Some (fs !! p) -> is_Some (fs' !! p)).
Proof.
  induction solution_files as [|sol rest IH]; intros fs fs' test_paths E.
  - injection E as <- <-. split; [constructor | auto].
  - cbn [build_test_files] in E. cbv zeta in E.
    destruct (build_pytest_file _ _ _ _ fs) as [[[]|e] fs1] eqn:Eb;
      [| discriminate E].
    destruct (build_test_files test_cases rest out func_name fs1)
      as [[ps|e] fs2] eqn:Er; [| discriminate E].
    injection E as <- <-.
    apply build_pytest_file_written in Eb as [s ->].
    destruct (IH _ _ _ Er) as [Hps Hmono].
    split.
    + constructor; [| exact Hps].
      apply Hmono. rewrite lookup_insert_eq. eexists. reflexivity.
    + intros p Hp. apply Hmono.
      destruct (decide (p = path_str (path_div out
                  (pystr "test_" ++ path_stem (Path sol) ++ pystr ".py"))))
        as [-> | Hne].
      * rewrite lookup_insert_eq. eexists. reflexivity.
      * rewrite lookup_insert_ne by congruence. exact Hp.
Qed.

(** X15. When it returns, [create_test_suite_for_solutions] returns one
    path for each solution file, in their order: the file
    [test_<stem>.py] of the output directory; each of these files
    exists afterwards, and no file that was there has gone. *)
Theorem create_test_suite_paths (test_cases : list pyval)
    (solution_files : list str) (output_dir func_name : str)
    (fs fs' : filesystem) (test_paths : list str) :
  create_test_suite_for_solutions test_cases solution_files output_dir
    func_name fs = (Ok test_paths, fs') ->
  test_paths
  = map (fun sol_path =>
           path_str (path_div (Path output_dir)
                       (pystr "test_" ++ path_stem (Path sol_path)
                        ++ pystr ".py")))
        solution_files
  /\ Forall (fun p => is_Some (fs' !! p)) test_paths
  /\ (forall p, is_Some (fs !! p) -> is_Some (fs' !! p)).
Proof.
  unfold create_test_suite_for_solutions. cbv zeta.
  destruct (can_mkdir _); [| discriminate].
  intros E. split; [eapply build_test_files_paths, E |].
  eapply build_test_files_written, E.
Qed.

(** X16. With a test case that is not a dict, the suite of at least one
    solution raises AttributeError and writes nothing; with no solution
    file the cases are never looked at, and the empty list is
    returned. *)
Theorem create_test_suite_not_dict (test_cases : list pyval)
    (solution_files : list str) (output_dir func_name : str)
    (fs : filesystem) :
  existsb (fun case => negb (is_dict case)) test_cases = true ->
  can_mkdir (path_str (Path output_dir)) = true ->
  create_test_suite_for_solutions test_cases solution_files output_dir
    func_name fs
  = (match solution_files with
     | [] => Ok []
     | _ => Raise AttributeError
     end, fs).
Proof.
  intros H Hm. unfold create_test_suite_for_solutions. cbv zeta. rewrite Hm.
  destruct solution_files as [|sol rest]; [reflexivity |].
  cbn [build_test_files]. cbv zeta. unfold build_pytest_file.
  rewrite (param_lines_not_dict _ H). reflexivity.
Qed.

End TestBuilderMore.

Lemma build_pytest_file_not_dict_witness :
  @build_pytest_file Posix.os [Demo.addition_case; PList [PInt 1; PInt 2]]
    (pystr "solution_1") (pystr "/tmp/tests/test_solution_1.py")
    (pystr "solve") ∅
  = (Raise AttributeError, ∅).
Proof.
  apply (@build_pytest_file_not_dict Posix.os). reflexivity.
Defined.


Lemma create_test_suite_paths_witness :
  exists fs' : filesystem,
    @create_test_suite_for_solutions Posix.os [Demo.addition_case]
      [pystr "/tmp/solution_1.py"; pystr "/work/alt.solution.py"]
      (pystr "/tmp/tests") (pystr "solve") ∅
    = (Ok [pystr "/tmp/tests/test_solution_1.py";
           pystr "/tmp/tests/test_alt.solution.py"], fs')
    /\ Forall (fun p => is_Some (fs' !! p))
         [pystr "/tmp/tests/test_solution_1.py";
          pystr "/tmp/tests/test_alt.solution.py"].
Proof.
  eexists. split; [vm_compute; reflexivity |].
  eapply (@create_test_suite_paths Posix.os [Demo.addition_case]
            [pystr "/tmp/solution_1.py"; pystr "/work/alt.solution.py"]
            (pystr "/tmp/tests") (pystr "solve") ∅).
  vm_compute. reflexivity.
Defined.

Lemma create_test_suite_not_dict_witness :
  @create_test_suite_for_solutions Posix.os [PNone]
    [pystr "/tmp/solution_1.py"] (pystr "/tmp/tests") (pystr "solve") ∅
  = (Raise AttributeError, ∅).
Proof.
  apply (@create_test_suite_not_dict Posix.os [PNone]
           [pystr "/tmp/solution_1.py"]); reflexivity.
Defined.

(** ** app.py *)

Section AppMore.
Context {udb : UnicodeDB} {os : Platform} {core : CoreModules}.

(** X17. Unless "Generate" is pressed with both files uploaded, a run
    only shows the page: it writes no file and calls neither the
    generator nor the validator; when the button was pressed, the last
    thing shown is the request to select both files. *)
Theorem app_without_uploads (inp : inputs) (w : world) :
  generate_button inp && uploads_complete inp = false ->
  app inp w
  = (Ok tt,
     add_events w
       (page_events (api_key inp)
        ++ if generate_button inp
           then [StError (pystr "You must select a PDF and a code template before continuing.")]
           else [])).
Proof.
  intros H. unfold app, uploads_complete, page_events in *.
  rewrite !seq_show, !add_events_app.
  assert (Hfin : forall (es : list event) (e : event),
             show e (add_events w es) = (Ok tt, add_events w (es ++ [e])))
    by (intros; rewrite show_eq, add_events_app; reflexivity).
  destruct (api_key inp) as [|c key].
  - unfold seq at 1. rewrite seq_show. unfold ret at 1.
    rewrite add_events_app.
    destruct (generate_button inp); cbn [andb] in H.
    + destruct (pdf_file inp) as [pdf|];
        [destruct (template_file inp) as [template|] |];
        try discriminate H; rewrite Hfin; reflexivity.
    + unfold ret. rewrite app_nil_r. reflexivity.
  - unfold seq at 1. unfold ret at 1.
    destruct (generate_button inp); cbn [andb] in H.
    + destruct (pdf_file inp) as [pdf|];
        [destruct (template_file inp) as [template|] |];
        try discriminate H; rewrite Hfin, app_nil_r; reflexivity.
    + unfold ret. rewrite !app_nil_r. reflexivity.
Qed.

End AppMore.

Lemma app_without_uploads_witness :
  @app Latin1.db Posix.os (Demo.core 2 [])
    {| pdf_file := Some Demo.pdf; template_file := None;
       num_solutions := 2; max_tests := 10; api_key := pystr "sk-1";
       generate_button := true |} Demo.empty_world
  = (Ok tt,
     add_events Demo.empty_world
       (page_events (pystr "sk-1")
        ++ [StError (pystr "You must select a PDF and a code template before continuing.")])).
Proof.
  apply (@app_without_uploads Latin1.db Posix.os (Demo.core 2 [])). reflexivity.
Defined.

Section PipelineMore.
Context {udb : UnicodeDB} {os : Platform} {core : CoreModules}.

(** X18. A PDF that cannot be read stops the run with the error of the
    reader, uncaught, right after the first spinner; the uploaded file
    has been stored in the temporary directory and stays there. *)
Theorem generate_extraction_error (inp : inputs) (mock_mode : bool)
    (pdf template : upload) (e : exc) (w : world) :
  let pdf_path := path_str (path_div (Path gettempdir) (up_name pdf)) in
  can_write pdf_path = true ->
  pdf_get_text (Text (up_data pdf)) = Raise e ->
  generate inp mock_mode pdf template w
  = (Raise e,
     {| w_fs := <[pdf_path := Text (up_data pdf)]> (w_fs w);
        w_events :=
          w_events w
          ++ [StSpinner (pystr "Extracting and analyzing the statement"
                         ++ [ELLIPSIS])] |}).
Proof.
  intros pdf_path Hw Hp. subst pdf_path.
  unfold generate. cbv zeta. rewrite seq_show.
  unfold seq at 1. unfold on_files, write_bytes. rewrite Hw.
  cbn [w_fs w_events add_events].
  unfold seq at 1. unfold read_files, extract_and_parse, extract_pdf_to_text.
  cbn [w_fs]. rewrite lookup_insert_eq, Hp. reflexivity.
Qed.

(** X19. No error of the generator is caught. When [generate_solutions]
    raises, the run ends with that error after the template has been
    shown, and no solution heading follows; when [generate_test_cases]
    raises, the run ends with that error after the solutions have been
    shown. In both cases the only file written is the uploaded PDF. *)
Theorem generate_generator_error (inp : inputs) (mock_mode : bool)
    (pdf template : upload) (pages : list str) (template_code : str)
    (e : exc) (w : world) :
  let pdf_path := path_str (path_div (Path gettempdir) (up_name pdf)) in
  let problem_data := parse_problem_text (join [NL] pages) in
  let stored :=
    {| w_fs := <[pdf_path := Text (up_data pdf)]> (w_fs w);
       w_events := w_events w |} in
  can_write pdf_path = true ->
  pdf_get_text (Text (up_data pdf)) = Ok pages ->
  utf8_decode (up_data template) = Ok template_code ->
  (generate_solutions problem_data template_code (num_solutions inp)
     (LLMClient (api_key inp) mock_mode) = Raise e ->
   generate inp mock_mode pdf template w
   = (Raise e,
      add_events stored
        ([StSpinner (pystr "Extracting and analyzing the statement"
                     ++ [ELLIPSIS]);
          StSubheader (pystr "Extracted Statement")]
         ++ flat_map section_events problem_data
         ++ [StSubheader (pystr "Code Template");
             StCode template_code (pystr "python");
             StSpinner (pystr "Generating solutions" ++ [ELLIPSIS]);
             Called (CallGenerateSolutions (num_solutions inp))])))
  /\ (forall (sol : str) (more : list str),
        generate_solutions problem_data template_code (num_solutions inp)
          (LLMClient (api_key inp) mock_mode) = Ok (sol :: more) ->
        generate_test_cases problem_data sol (max_tests inp)
          (LLMClient (api_key inp) mock_mode) = Raise e ->
        generate inp mock_mode pdf template w
        = (Raise e,
           add_events stored
             (events_before_tests problem_data template_code
                (num_solutions inp) (sol :: more)
              ++ [Called (CallGenerateTestCases sol (max_tests inp))]))).
Proof.
  intros pdf_path problem_data stored Hw Hp Hd.
  subst pdf_path problem_data stored. split.
  - intros Hg. unfold generate. cbv zeta. rewrite seq_show.
    unfold seq at 1. unfold on_files, write_bytes. rewrite Hw.
    cbn [w_fs w_events add_events].
    unfold seq at 1. unfold read_files, extract_and_parse, extract_pdf_to_text.
    cbn [w_fs]. rewrite lookup_insert_eq, Hp. cbn [Json.bind].
    rewrite seq_show.
    unfold seq at 1. rewrite section_loop_shows.
    rewrite Hd, seq_of_result_ok.
    rewrite !seq_show.
    rewrite Hg. unfold seq at 1. unfold of_result.
    rewrite !add_events_app. unfold add_events. cbn [w_fs w_events].
    rewrite <- !app_assoc. reflexivity.
  - intros sol more Hg Ht.
    run_until_tests Hw Hp Hd Hg.
    unfold seq at 1. unfold ret at 1. cbv beta iota.
    rewrite seq_show. rewrite Ht. unfold seq at 1. unfold of_result.
    rewrite !add_events_app. unfold add_events, events_before_tests.
    cbn [w_fs w_events]. rewrite <- !app_assoc. reflexivity.
Qed.

Lemma path_name_div_plain (p : path) (name : str) :
  plain_name name -> path_name (path_div p name) = name.
Proof.
  intros H. unfold path_div. rewrite plain_not_absolute by exact H.
  rewrite path_parts_plain by exact H.
  unfold path_name. cbn [parts]. apply List.last_last.
Qed.

Lemma suite_name_plain (slug : str) :
  Forall (fun c => slug_char c = true) slug ->
  plain_name (slug ++ pystr "_suite.zip").
Proof.
  intros H. split; [| repeat split].
  - apply Forall_app; split; [| repeat constructor; discriminate].
    eapply List.Forall_impl; [| exact H]. intros c Hc ->. discriminate Hc.
  - destruct slug; discriminate.
  - destruct slug as [|c [|d slug]]; discriminate.
  - destruct slug as [|c [|d [|x slug]]]; discriminate.
Qed.

(** X20. When the package has been built, the download that follows
    offers exactly the archive that was written, under the name
    [<slug of the PDF name>_suite.zip]; this name has no directory part,
    so the archive lies in the temporary directory itself whatever the
    name of the upload was. *)
Theorem package_download (pdf_name : str) (solutions : list str)
    (test_cases : list pyval) (w w' : world) (zip_name : str)
    (zip_path : path) :
  build_package pdf_name solutions test_cases w = (Ok (zip_name, zip_path), w') ->
  zip_name = slugify pdf_name false ++ pystr "_suite.zip"
  /\ zip_path = path_div (Path gettempdir) zip_name
  /\ path_name zip_path = zip_name
  /\ exists entries : list (str * file),
       w_fs w' !! path_str zip_path = Some (Archive entries)
       /\ offer_download zip_name zip_path w'
          = (Ok tt,
             add_events w'
               [StSubheader (pystr "Download Test Suite");
                StDownloadButton (pystr "Download ZIP") (Archive entries)
                  zip_name (pystr "application/zip")]).
Proof.
  intros E. unfold build_package in E. rewrite seq_show in E. cbv zeta in E.
  unfold seq at 1 in E.
  destruct (write_solutions _ 0 solutions _) as [[sps|e] w1]; [| discriminate E].
  unfold seq at 1 in E. unfold on_files at 1 in E.
  destruct (create_test_suite_for_solutions _ _ _ _ _) as [[tps|e] fs2];
    [| discriminate E].
  unfold seq at 1 in E. unfold on_files, make_zipfile in E. cbn [w_fs] in E.
  destruct (can_write _); [| discriminate E].
  destruct (zip_write_all _ _ []) as [[[]|e] entries]; [| discriminate E].
  unfold ret in E. injection E as <- <- <-.
  split; [reflexivity |]. split; [reflexivity |]. split.
  - apply path_name_div_plain, suite_name_plain, slugify_ascii_shape.
  - exists entries. cbn [w_fs]. rewrite lookup_insert_eq.
    split; [reflexivity |].
    unfold offer_download. rewrite seq_show.
    unfold seq at 1. unfold read_files. cbn [w_fs add_events].
    rewrite lookup_insert_eq. rewrite show_eq, add_events_app. reflexivity.
Qed.

End PipelineMore.

Lemma generate_extraction_error_witness :
  @generate Latin1.db pdf_checking (Demo.core 2 []) Demo.inp true
    {| up_name := pystr "notes.pdf"; up_data := pystr "plain text" |}
    Demo.template Demo.empty_world
  = (Raise (ExternalError (pystr "not a PDF")),
     {| w_fs := {[ pystr "/tmp/notes.pdf" := Text (pystr "plain text") ]};
        w_events := [StSpinner (pystr "Extracting and analyzing the statement"
                                ++ [ELLIPSIS])] |}).
Proof.
  rewrite (@generate_extraction_error Latin1.db pdf_checking (Demo.core 2 [])
             Demo.inp true
             {| up_name := pystr "notes.pdf"; up_data := pystr "plain text" |}
             Demo.template (ExternalError (pystr "not a PDF"))
             Demo.empty_world eq_refl eq_refl).
  vm_compute. reflexivity.
Defined.

Lemma generate_generator_error_witness :
  fst (@generate Latin1.db Posix.os
         (failing_generator (Raise (ExternalError (pystr "rate limit"))) (Ok []))
         Demo.inp true Demo.pdf Demo.template Demo.empty_world)
  = Raise (ExternalError (pystr "rate limit"))
  /\ fst (@generate Latin1.db Posix.os
            (failing_generator (Ok [Demo.solution_text])
               (Raise (ExternalError (pystr "rate limit"))))
            Demo.inp true Demo.pdf Demo.template Demo.empty_world)
     = Raise (ExternalError (pystr "rate limit")).
Proof.
  split.
  - pose proof (@generate_generator_error Latin1.db Posix.os
                  (failing_generator (Raise (ExternalError (pystr "rate limit")))
                     (Ok []))
                  Demo.inp true Demo.pdf Demo.template
                  [pystr "Statement" ++ [NL] ++ pystr "Add two numbers."]
                  (pystr "def solve(a, b): ...")
                  (ExternalError (pystr "rate limit")) Demo.empty_world
                  eq_refl eq_refl eq_refl) as [H _].
    rewrite (H eq_refl). reflexivity.
  - pose proof (@generate_generator_error Latin1.db Posix.os
                  (failing_generator (Ok [Demo.solution_text])
                     (Raise (ExternalError (pystr "rate limit"))))
                  Demo.inp true Demo.pdf Demo.template
                  [pystr "Statement" ++ [NL] ++ pystr "Add two numbers."]
                  (pystr "def solve(a, b): ...")
                  (ExternalError (pystr "rate limit")) Demo.empty_world
                  eq_refl eq_refl eq_refl) as [_ H].
    rewrite (H Demo.solution_text [] eq_refl eq_refl). reflexivity.
Defined.

Lemma package_download_witness :
  exists entries : list (str * file),
    map fst entries = archive_names 2
    /\ snd (@offer_download (pystr "my_exercise_1pdf_suite.zip")
              (Path (pystr "/tmp/my_exercise_1pdf_suite.zip"))
              (snd (@build_package Latin1.db Posix.os
                      (pystr "My Exercise #1.pdf")
                      [Demo.solution_text; Demo.solution_text]
                      [Demo.addition_case] Demo.empty_world)))
       = add_events
           (snd (@build_package Latin1.db Posix.os (pystr "My Exercise #1.pdf")
                   [Demo.solution_text; Demo.solution_text]
                   [Demo.addition_case] Demo.empty_world))
           [StSubheader (pystr "Download Test Suite");
            StDownloadButton (pystr "Download ZIP") (Archive entries)
              (pystr "my_exercise_1pdf_suite.zip") (pystr "application/zip")].
Proof.
  destruct (@package_download Latin1.db Posix.os (pystr "My Exercise #1.pdf")
              [Demo.solution_text; Demo.solution_text] [Demo.addition_case]
              Demo.empty_world
              (snd (@build_package Latin1.db Posix.os
                      (pystr "My Exercise #1.pdf")
                      [Demo.solution_text; Demo.solution_text]
                      [Demo.addition_case] Demo.empty_world))
              (pystr "my_exercise_1pdf_suite.zip")
              (Path (pystr "/tmp/my_exercise_1pdf_suite.zip")))
    as (_ & _ & _ & entries & Hl & Ho); [vm_compute; reflexivity |].
  exists entries. split.
  - vm_compute in Hl. injection Hl as <-. vm_compute. reflexivity.
  - rewrite Ho. reflexivity.
Defined.

(** ** The table of a generated test file, read as Python *)

Lemma hex_value_digit (d : N) :
  d < 16 -> Json.hex_value (Json.hex_digit d) = Some d.
Proof.
  intros H. destruct d as [|p]; [reflexivity |].
  repeat (match goal with
          | q : positive |- _ => destruct q as [q|q|]; try lia
          end); reflexivity.
Qed.

Lemma hex_digit_clean (d : N) : d < 16 -> clean_char (Json.hex_digit d).
Proof.
  intros H. destruct d as [|p]; [split; [discriminate | reflexivity] |].
  repeat (match goal with
          | q : positive |- _ => destruct q as [q|q|]; try lia
          end); split; (discriminate || reflexivity).
Qed.

Lemma hex_digits_value (c : N) :
  c < 65536 ->
  c / 4096 mod 16 * 4096 + c / 256 mod 16 * 256 + c / 16 mod 16 * 16 + c mod 16
  = c.
Proof.
  intros H.
  pose proof (N.div_mod c 16 ltac:(lia)) as H1.
  pose proof (N.div_mod (c / 16) 16 ltac:(lia)) as H2.
  pose proof (N.div_mod (c / 16 / 16) 16 ltac:(lia)) as H3.
  rewrite !N.Div0.div_div in H2, H3. rewrite N.Div0.div_div in H3.
  change (16 * 16) with 256 in *. change (256 * 16) with 4096 in *.
  assert (H4 : c / 4096 < 16) by (apply N.Div0.div_lt_upper_bound; lia).
  rewrite (N.mod_small (c / 4096) 16) in * by exact H4.
  lia.
Qed.

Lemma decode_escape_u (c : N) :
  c < 65536 ->
  Json.decode_u (Json.hex_digit (c / 4096 mod 16))
    (Json.hex_digit (c / 256 mod 16)) (Json.hex_digit (c / 16 mod 16))
    (Json.hex_digit (c mod 16)) = Some c.
Proof.
  intros H. unfold Json.decode_u.
  rewrite !hex_value_digit by (apply N.mod_lt; lia).
  f_equal. apply hex_digits_value, H.
Qed.

Lemma clean_escape_u (c : N) : Forall clean_char (Json.escape_u c).
Proof.
  unfold Json.escape_u.
  repeat (constructor; [first [ apply hex_digit_clean, N.mod_lt; lia
                              | split; [discriminate | reflexivity] ] |]).
  constructor.
Qed.

Lemma py_scanstring_plain (c : N) (t : str) :
  c <> 34 -> c <> 92 -> 32 <= c ->
  Json.scanstring true (c :: t) = Json.cons_char c (Json.scanstring true t).
Proof.
  intros H1 H2 H3. cbn [Json.scanstring].
  destruct (N.eqb_spec c 34); [contradiction |].
  destruct (N.eqb_spec c 92); [contradiction |].
  destruct (N.ltb_spec c 32); [lia | reflexivity].
Qed.

Lemma py_scanstring_simple_escape (e ch : N) (t : str) :
  e <> 117 -> e <> 47 -> Json.backslash e = Some ch ->
  Json.scanstring true (92 :: e :: t)
  = Json.cons_char ch (Json.scanstring true t).
Proof.
  intros H1 H2 H3. cbn [Json.scanstring].
  change (92 =? 34) with false. change (92 =? 92) with true. cbv iota.
  destruct (N.eqb_spec e 117); [contradiction |].
  destruct (N.eqb_spec e 47); [contradiction |].
  cbn [andb]. rewrite H3. reflexivity.
Qed.

(** The interpreter never joins two [\u] escapes into one character. *)
Lemma py_scanstring_u (h1 h2 h3 h4 uni : N) (t : str) :
  Json.decode_u h1 h2 h3 h4 = Some uni ->
  Json.scanstring true (92 :: 117 :: h1 :: h2 :: h3 :: h4 :: t)
  = Json.cons_char uni (Json.scanstring true t).
Proof.
  intros H1. cbn [Json.scanstring].
  change (92 =? 34) with false. change (92 =? 92) with true.
  change (117 =? 117) with true. cbv iota.
  rewrite H1. cbn [negb]. rewrite andb_false_r.
  repeat (match goal with
          | |- context [match ?x with _ => _ end] => is_var x; destruct x
          end; cbv beta iota; try reflexivity).
Qed.

Lemma py_scanstring_escape_char (c : N) (t : str) :
  c < 65536 ->
  Json.scanstring true (Json.escape_char_ascii c ++ t)
  = Json.cons_char c (Json.scanstring true t).
Proof.
  intros Hb. destruct (N.ltb_spec c 32) as [Hc | Hc].
  - clear Hb. destruct c as [|p];
      [| repeat (match goal with
                 | q : positive |- _ => destruct q as [q|q|]; try lia
                 end)];
      match goal with
      | |- context [Json.escape_char_ascii ?x] =>
          let e := eval vm_compute in (Json.escape_char_ascii x) in
          change (Json.escape_char_ascii x) with e
      end;
      first [ apply py_scanstring_u; reflexivity
            | apply py_scanstring_simple_escape;
              [discriminate | discriminate | reflexivity] ].
  - unfold Json.escape_char_ascii, Json.escape_dct.
    destruct (N.eqb_spec c 92) as [-> | H92];
      [apply py_scanstring_simple_escape;
       [discriminate | discriminate | reflexivity] |].
    destruct (N.eqb_spec c 34) as [-> | H34];
      [apply py_scanstring_simple_escape;
       [discriminate | discriminate | reflexivity] |].
    destruct (N.eqb_spec c 8); [lia |].
    destruct (N.eqb_spec c 12); [lia |].
    destruct (N.eqb_spec c 10); [lia |].
    destruct (N.eqb_spec c 13); [lia |].
    destruct (N.eqb_spec c 9); [lia |].
    destruct (N.ltb_spec c 32); [lia |].
    destruct (N.leb_spec 32 c); [| lia]. cbn [andb].
    destruct (N.leb_spec c 126).
    + apply py_scanstring_plain; assumption.
    + destruct (N.ltb_spec c 65536); [| lia].
      apply py_scanstring_u, decode_escape_u, Hb.
Qed.

Lemma clean_escape_char_ascii (c : N) :
  c < 65536 -> Forall clean_char (Json.escape_char_ascii c).
Proof.
  intros Hb. unfold Json.escape_char_ascii.
  destruct (Json.escape_dct c) as [e|] eqn:Ed.
  - unfold Json.escape_dct in Ed.
    repeat match type of Ed with
           | (if ?b then _ else _) = _ =>
               destruct b; [injection Ed as <-;
                            first [apply clean_escape_u | clean_literal] |]
           end.
    discriminate Ed.
  - destruct (N.leb_spec 32 c); cbn [andb].
    + destruct (N.leb_spec c 126).
      * constructor; [| constructor]. split; [lia |].
        unfold is_surrogate. destruct (N.leb_spec 55296 c); [lia | reflexivity].
      * destruct (N.ltb_spec c 65536); [apply clean_escape_u | lia].
    + destruct (N.ltb_spec c 65536); [apply clean_escape_u | lia].
Qed.

Lemma py_scanstring_encode (s rest : str) :
  forallb is_bmp s = true ->
  Json.scanstring true (concat (map Json.escape_char_ascii s) ++ 34 :: rest)
  = Ok (s, rest)
  /\ Forall clean_char (concat (map Json.escape_char_ascii s)).
Proof.
  induction s as [|c s IH]; intros H; [split; [reflexivity | constructor] |].
  cbn [forallb] in H. apply andb_prop in H as [Hc Hs].
  apply N.ltb_lt in Hc. destruct (IH Hs) as [E Hclean]. split.
  - cbn [map concat]. rewrite <- app_assoc, py_scanstring_escape_char, E
      by exact Hc. reflexivity.
  - cbn [map concat]. apply Forall_app; split;
      [apply clean_escape_char_ascii, Hc | exact Hclean].
Qed.

Lemma py_scan_number_nat_str (negative : bool) (n : N) (rest : str) :
  delimited rest ->
  Json.scan_number true negative (Json.nat_str n ++ rest)
  = Ok (PInt (if negative then (- Z.of_N n)%Z else Z.of_N n), rest).
Proof.
  intros Hd.
  pose proof (digits_of_uint_digits (N.to_uint n)) as Hds.
  pose proof (nat_str_nonempty n) as Hne.
  pose proof (nat_str_zero n) as Hz.
  pose proof (value_of_nat_str n) as Hv.
  fold (Json.nat_str n) in Hds.
  destruct (Json.nat_str n) as [|c t] eqn:E; [congruence |].
  assert (Hr : Json.read_digits ((c :: t) ++ rest) = (c :: t, rest))
    by (apply read_digits_all; [exact Hds | apply not_digit_delimited, Hd]).
  unfold Json.scan_number.
  pose proof (List.Forall_inv Hds) as Hc. cbv beta in Hc.
  destruct (digit_cases c Hc) as [-> | Hc'].
  - rewrite (Hz t eq_refl) in *.
    change ([48] ++ rest) with (48 :: rest). cbv iota.
    rewrite float_tail_delimited by exact Hd.
    rewrite Hv. reflexivity.
  - assert (Hm : match (c :: t) ++ rest with
                 | 48 :: t0 => ([48], t0)
                 | _ => Json.read_digits ((c :: t) ++ rest)
                 end = (c :: t, rest)).
    { rewrite Hr.
      repeat (destruct Hc' as [-> | Hc']; [reflexivity |]). subst; reflexivity. }
    rewrite Hm, float_tail_delimited by exact Hd.
    rewrite Hv. reflexivity.
Qed.

Lemma scan_once_string_eq (dl : Json.dialect) (f : nat) (t : str) :
  Json.scan_once dl (S f) (34 :: t)
  = Json.bind (Json.scanstring (Json.python_source dl) t)
              (fun p => Ok (PStr (fst p), snd p)).
Proof. reflexivity. Qed.

Lemma scan_once_minus_eq (dl : Json.dialect) (f : nat) (t : str) :
  Json.scan_once dl (S f) (45 :: t)
  = Json.scan_number (Json.python_source dl) true t.
Proof. reflexivity. Qed.

Lemma scan_once_digit_eq (dl : Json.dialect) (f : nat) (c : N) (t : str) :
  48 <= c /\ c <= 57 ->
  Json.scan_once dl (S f) (c :: t)
  = Json.scan_number (Json.python_source dl) false (c :: t).
Proof.
  intros Hc. cbn [Json.scan_once].
  replace (c =? 34) with false by (symmetry; apply N.eqb_neq; lia).
  replace (c =? 91) with false by (symmetry; apply N.eqb_neq; lia).
  replace (c =? 123) with false by (symmetry; apply N.eqb_neq; lia).
  replace (c =? 45) with false by (symmetry; apply N.eqb_neq; lia).
  replace (Json.is_digit c) with true
    by (unfold Json.is_digit; symmetry; apply andb_true_intro;
        split; apply N.leb_le; lia).
  reflexivity.
Qed.

Section PythonTable.
Variable env : list (str * pyval).

Lemma py_scan_once_int (fuel : nat) (z : Z) (rest : str) :
  delimited rest ->
  Json.scan_once (python_dialect env) (S fuel) (Json.int_str z ++ rest)
  = Ok (PInt z, rest).
Proof.
  intros Hrest.
  assert (Hnat : forall n : N,
             Json.scan_once (python_dialect env) (S fuel)
               (Json.nat_str n ++ rest) = Ok (PInt (Z.of_N n), rest)).
  { intros n.
    pose proof (py_scan_number_nat_str false n rest Hrest) as H.
    pose proof (digits_of_uint_digits (N.to_uint n)) as Hds.
    pose proof (nat_str_nonempty n) as Hne.
    fold (Json.nat_str n) in Hds.
    destruct (Json.nat_str n) as [|c t] eqn:E; [congruence |].
    pose proof (List.Forall_inv Hds) as Hc. cbv beta in Hc.
    change ((c :: t) ++ rest) with (c :: (t ++ rest)) in *.
    rewrite scan_once_digit_eq by exact Hc. exact H. }
  destruct z as [|p|p].
  - apply (Hnat 0).
  - apply (Hnat (N.pos p)).
  - unfold Json.int_str.
    change ((45 :: Json.nat_str (N.pos p)) ++ rest)
      with (45 :: (Json.nat_str (N.pos p) ++ rest)).
    rewrite scan_once_minus_eq.
    change (Json.python_source (python_dialect env)) with true.
    rewrite py_scan_number_nat_str by exact Hrest. reflexivity.
Qed.

Lemma py_list_items_evaluate (l : list pyval) :
  Forall (evaluates_back env) l -> forallb py_plain l = true -> l <> [] ->
  forall (level : nat) (first : bool), exists s : str,
    iterencode_list_items true level first l
    = ((if first then [] else 44 :: Json.newline_indent (S level)) ++ s, None)
    /\ starts_value s /\ Forall clean_char s
    /\ forall (fuel : nat) (tail : str),
         (length s < fuel)%nat ->
         Json.scan_array (python_dialect env) fuel
           (s ++ Json.newline_indent level ++ 93 :: tail)
         = Ok (map as_lists l, tail).
Proof.
  induction 1 as [|x l Hx Hl IH]; intros Hn Hne level first; [congruence |].
  cbn [forallb] in Hn. apply andb_prop in Hn as [Hnx Hnl].
  destruct (Hx Hnx (S level)) as (sx & Ex & Hsx & Hcx & Hscan).
  rewrite list_items_cons, Ex.
  destruct l as [|y l'].
  - exists sx. split; [| split; [exact Hsx | split; [exact Hcx |]]].
    + unfold emit_seq, emit_str. cbn [fst snd iterencode_list_items].
      rewrite app_nil_r. reflexivity.
    + intros fuel tail Hf. destruct fuel as [|f]; [lia |].
      rewrite scan_array_eq, Hscan by (lia || apply delimited_indent).
      cbn [Json.bind fst snd]. rewrite skip_ws_indent. reflexivity.
  - destruct (IH Hnl ltac:(discriminate) level false)
      as (sr & Er & Hsr & Hcr & Hscanr).
    rewrite Er.
    exists (sx ++ 44 :: Json.newline_indent (S level) ++ sr).
    split; [| split; [| split]].
    + unfold emit_seq, emit_str. cbn [fst snd]. reflexivity.
    + destruct sx; [contradiction | exact Hsx].
    + apply Forall_app; split; [exact Hcx |].
      constructor; [split; [discriminate | reflexivity] |].
      apply Forall_app; split; [apply clean_indent | exact Hcr].
    + intros fuel tail Hf. rewrite length_app in Hf. cbn [length] in Hf.
      rewrite length_app in Hf.
      pose proof (starts_value_length _ Hsx).
      destruct fuel as [|f]; [lia |].
      rewrite <- app_assoc.
      rewrite scan_array_eq, Hscan by (lia || (left; reflexivity)).
      cbn [Json.bind fst snd].
      change ((44 :: Json.newline_indent (S level) ++ sr)
              ++ Json.newline_indent level ++ 93 :: tail)
        with (44 :: ((Json.newline_indent (S level) ++ sr)
                     ++ Json.newline_indent level ++ 93 :: tail)).
      rewrite skip_ws_id by reflexivity. cbv iota.
      rewrite <- app_assoc, skip_ws_indent.
      rewrite starts_value_skip_ws by exact Hsr.
      rewrite Hscanr by lia. reflexivity.
Qed.

Lemma py_encode_basestring_app (s t : str) :
  Json.encode_basestring true s ++ t
  = 34 :: concat (map Json.escape_char_ascii s) ++ 34 :: t.
Proof.
  unfold Json.encode_basestring. rewrite <- !app_assoc. reflexivity.
Qed.

Lemma py_dict_items_evaluate (d : list (pyval * pyval)) :
  Forall (fun kv => evaluates_back env (fst kv)
                    /\ evaluates_back env (snd kv)) d ->
  forallb (fun kv =>
             match fst kv with
             | PStr k => forallb is_bmp k
             | _ => false
             end && py_plain (snd kv)) d = true ->
  d <> [] ->
  forall (level : nat) (first : bool),
  exists (s : str) (pairs : list (str * pyval)),
    iterencode_dict_items true level first d
    = ((if first then [] else 44 :: Json.newline_indent (S level)) ++ s, None)
    /\ starts_value s /\ Forall clean_char s
    /\ map (fun kv => (PStr (fst kv), snd kv)) pairs
       = map (fun kv => (fst kv, as_lists (snd kv))) d
    /\ forall (fuel : nat) (tail : str),
         (length s < fuel)%nat ->
         Json.scan_object (python_dialect env) fuel
           (s ++ Json.newline_indent level ++ 125 :: tail)
         = Ok (pairs, tail).
Proof.
  induction 1 as [|[k v] d [_ Hv] Hd IH]; intros Hn Hne level first;
    [congruence |].
  cbn [forallb fst snd] in Hn. apply andb_prop in Hn as [Hnkv Hnd].
  destruct k as [| | |k| | | |]; try discriminate Hnkv.
  apply andb_prop in Hnkv as [Hk Hnv].
  cbn [snd] in Hv.
  destruct (Hv Hnv (S level)) as (sv & Ev & Hsv & Hcv & Hscan).
  rewrite dict_items_cons, Ev.
  pose proof (starts_value_length _ Hsv) as Hlv.
  destruct (py_scanstring_encode k [] Hk) as [_ Hkclean].
  assert (Hkey : forall t : str,
             Forall clean_char t ->
             Forall clean_char
               (34 :: concat (map Json.escape_char_ascii k)
                ++ 34 :: 58 :: 32 :: t)).
  { intros t Ht. constructor; [split; [discriminate | reflexivity] |].
    apply Forall_app; split; [exact Hkclean |].
    repeat (constructor; [split; [discriminate | reflexivity] |]). exact Ht. }
  destruct d as [|kv' d'].
  - exists (34 :: concat (map Json.escape_char_ascii k) ++ 34 :: 58 :: 32 :: sv),
      [(k, as_lists v)].
    split; [| split; [| split; [| split]]].
    + unfold emit_seq, emit_str. cbn [fst snd iterencode_dict_items].
      f_equal. rewrite app_nil_r, <- !app_assoc, py_encode_basestring_app.
      reflexivity.
    + repeat split; discriminate.
    + apply Hkey, Hcv.
    + reflexivity.
    + intros fuel tail Hf. cbn [length] in Hf. rewrite length_app in Hf.
      cbn [length] in Hf.
      destruct fuel as [|f]; [lia |].
      change ((34 :: concat (map Json.escape_char_ascii k)
               ++ 34 :: 58 :: 32 :: sv)
              ++ Json.newline_indent level ++ 125 :: tail)
        with (34 :: ((concat (map Json.escape_char_ascii k)
                      ++ 34 :: 58 :: 32 :: sv)
                     ++ Json.newline_indent level ++ 125 :: tail)).
      rewrite <- app_assoc.
      change ((34 :: 58 :: 32 :: sv) ++ Json.newline_indent level ++ 125 :: tail)
        with (34 :: 58 :: 32 :: (sv ++ Json.newline_indent level ++ 125 :: tail)).
      rewrite scan_object_eq.
      change (Json.python_source (python_dialect env)) with true.
      rewrite (proj1 (py_scanstring_encode k _ Hk)). cbn [Json.bind fst snd].
      rewrite skip_ws_id by reflexivity. cbv iota.
      rewrite skip_ws_space, starts_value_skip_ws by exact Hsv.
      rewrite Hscan by (lia || apply delimited_indent).
      cbn [Json.bind fst snd]. rewrite skip_ws_indent. reflexivity.
  - destruct (IH Hnd ltac:(discriminate) level false)
      as (sr & pairs & Er & Hsr & Hcr & Hpairs & Hscanr).
    rewrite Er.
    exists (34 :: concat (map Json.escape_char_ascii k) ++ 34 :: 58 :: 32 ::
            (sv ++ 44 :: Json.newline_indent (S level) ++ sr)),
      ((k, as_lists v) :: pairs).
    split; [| split; [| split; [| split]]].
    + unfold emit_seq, emit_str. cbn [fst snd].
      f_equal. rewrite <- !app_assoc, py_encode_basestring_app.
      reflexivity.
    + repeat split; discriminate.
    + apply Hkey. apply Forall_app; split; [exact Hcv |].
      constructor; [split; [discriminate | reflexivity] |].
      apply Forall_app; split; [apply clean_indent | exact Hcr].
    + cbn [map fst snd]. rewrite Hpairs. reflexivity.
    + intros fuel tail Hf. cbn [length] in Hf. rewrite length_app in Hf.
      cbn [length] in Hf. rewrite length_app in Hf. cbn [length] in Hf.
      rewrite length_app in Hf.
      destruct fuel as [|f]; [lia |].
      change ((34 :: concat (map Json.escape_char_ascii k) ++ 34 :: 58 :: 32 ::
               (sv ++ 44 :: Json.newline_indent (S level) ++ sr))
              ++ Json.newline_indent level ++ 125 :: tail)
        with (34 :: ((concat (map Json.escape_char_ascii k) ++ 34 :: 58 :: 32 ::
                      (sv ++ 44 :: Json.newline_indent (S level) ++ sr))
                     ++ Json.newline_indent level ++ 125 :: tail)).
      rewrite <- app_assoc.
      change ((34 :: 58 :: 32 ::
               (sv ++ 44 :: Json.newline_indent (S level) ++ sr))
              ++ Json.newline_indent level ++ 125 :: tail)
        with (34 :: 58 :: 32 ::
              ((sv ++ 44 :: Json.newline_indent (S level) ++ sr)
               ++ Json.newline_indent level ++ 125 :: tail)).
      rewrite <- app_assoc.
      change ((44 :: Json.newline_indent (S level) ++ sr)
              ++ Json.newline_indent level ++ 125 :: tail)
        with (44 :: ((Json.newline_indent (S level) ++ sr)
                     ++ Json.newline_indent level ++ 125 :: tail)).
      rewrite <- app_assoc.
      rewrite scan_object_eq.
      change (Json.python_source (python_dialect env)) with true.
      rewrite (proj1 (py_scanstring_encode k _ Hk)). cbn [Json.bind fst snd].
      rewrite skip_ws_id by reflexivity. cbv iota.
      rewrite skip_ws_space, starts_value_skip_ws by exact Hsv.
      rewrite Hscan by (lia || (left; reflexivity)).
      cbn [Json.bind fst snd].
      rewrite skip_ws_id by reflexivity. cbv iota.
      rewrite skip_ws_indent, starts_value_skip_ws by exact Hsr.
      rewrite Hscanr by lia. reflexivity.
Qed.

Lemma py_str_keys_NoDup (d : list (pyval * pyval))
    (pairs : list (str * pyval)) :
  map (fun kv => (PStr (fst kv), snd kv)) pairs
  = map (fun kv => (fst kv, as_lists (snd kv))) d ->
  NoDup (map str_key d) -> List.NoDup (map fst pairs).
Proof.
  intros E H. apply str_keys_NoDup. rewrite E, List.map_map.
  cbn [str_key fst]. exact H.
Qed.

End PythonTable.

(** Every plain value is evaluated back from its text. *)
Lemma py_plain_evaluates_back (env : list (str * pyval)) (v : pyval) :
  evaluates_back env v.
Proof.
  induction v as [| b | z | s | l IH | l IH | d IH | what]
    using pyval_induction; intros Hn level; try discriminate Hn.
  - exists (Json.int_str z). split; [reflexivity |].
    assert (Hd : forall n : N,
               starts_value (Json.nat_str n)
               /\ Forall clean_char (Json.nat_str n)).
    { intros n. pose proof (digits_of_uint_digits (N.to_uint n)) as Hds.
      pose proof (nat_str_nonempty n) as Hne.
      fold (Json.nat_str n) in Hds. split; [| apply clean_digits, Hds].
      destruct (Json.nat_str n) as [|c t]; [congruence |].
      pose proof (List.Forall_inv Hds) as Hc. cbv beta in Hc.
      unfold starts_value, Json.is_ws.
      repeat split; try lia.
      repeat (apply orb_false_intro); apply N.eqb_neq; lia. }
    split; [| split].
    + destruct z as [|p|p]; [apply (Hd 0) | apply (Hd (N.pos p)) |].
      repeat split; discriminate.
    + destruct z as [|p|p]; [apply (Hd 0) | apply (Hd (N.pos p)) |].
      constructor; [split; [discriminate | reflexivity] | apply (Hd (N.pos p))].
    + intros [|f] rest Hf Hr; [| apply py_scan_once_int, Hr].
      exfalso.
      assert (1 <= length (Json.int_str z))%nat; [| lia].
      destruct z as [|p|p]; try (apply starts_value_length, Hd).
      cbn [Json.int_str length]. lia.
  - cbn [py_plain] in Hn.
    destruct (py_scanstring_encode s [] Hn) as [_ Hclean].
    exists (Json.encode_basestring true s). split; [reflexivity |].
    split; [repeat split; discriminate |]. split.
    + unfold Json.encode_basestring.
      constructor; [split; [discriminate | reflexivity] |].
      apply Forall_app; split; [exact Hclean | clean_literal].
    + intros [|f] rest Hf Hr; [cbn in Hf; lia |].
      rewrite py_encode_basestring_app, scan_once_string_eq.
      change (Json.python_source (python_dialect env)) with true.
      rewrite (proj1 (py_scanstring_encode s rest Hn)). reflexivity.
  - cbn [py_plain] in Hn. destruct l as [|x l].
    + exists (pystr "[]"). split; [reflexivity |].
      split; [repeat split; discriminate |]. split; [clean_literal |].
      intros [|f] rest Hf Hr; [cbn in Hf; lia | reflexivity].
    + destruct (py_list_items_evaluate env (x :: l) IH Hn ltac:(discriminate)
                  level true) as (s & Es & Hs & Hc & Hscan).
      rewrite iterencode_list_eq, Es.
      exists (91 :: Json.newline_indent (S level) ++ s
              ++ Json.newline_indent level ++ [93]).
      split; [reflexivity |]. split; [repeat split; discriminate |]. split.
      * constructor; [split; [discriminate | reflexivity] |].
        apply Forall_app; split; [apply clean_indent |].
        apply Forall_app; split; [exact Hc |].
        apply Forall_app; split; [apply clean_indent | clean_literal].
      * intros fuel rest Hf Hr. cbn [length] in Hf.
        rewrite !length_app in Hf. cbn [length] in Hf.
        destruct fuel as [|f]; [lia |].
        change ((91 :: Json.newline_indent (S level) ++ s
                 ++ Json.newline_indent level ++ [93]) ++ rest)
          with (91 :: ((Json.newline_indent (S level) ++ s
                        ++ Json.newline_indent level ++ [93]) ++ rest)).
        rewrite <- !app_assoc. change ([93] ++ rest) with (93 :: rest).
        destruct s as [|c s']; [contradiction |].
        rewrite (scan_once_list_items _ _ _ c
                   (s' ++ Json.newline_indent level ++ 93 :: rest));
          [| rewrite skip_ws_indent; apply (starts_value_skip_ws (c :: s')), Hs
           | apply Hs].
        change (c :: (s' ++ Json.newline_indent level ++ 93 :: rest))
          with ((c :: s') ++ Json.newline_indent level ++ 93 :: rest).
        rewrite Hscan by (cbn [length] in *; lia). reflexivity.
  - cbn [py_plain] in Hn. destruct l as [|x l].
    + exists (pystr "[]"). split; [reflexivity |].
      split; [repeat split; discriminate |]. split; [clean_literal |].
      intros [|f] rest Hf Hr; [cbn in Hf; lia | reflexivity].
    + destruct (py_list_items_evaluate env (x :: l) IH Hn ltac:(discriminate)
                  level true) as (s & Es & Hs & Hc & Hscan).
      rewrite iterencode_tuple_eq, Es.
      exists (91 :: Json.newline_indent (S level) ++ s
              ++ Json.newline_indent level ++ [93]).
      split; [reflexivity |]. split; [repeat split; discriminate |]. split.
      * constructor; [split; [discriminate | reflexivity] |].
        apply Forall_app; split; [apply clean_indent |].
        apply Forall_app; split; [exact Hc |].
        apply Forall_app; split; [apply clean_indent | clean_literal].
      * intros fuel rest Hf Hr. cbn [length] in Hf.
        rewrite !length_app in Hf. cbn [length] in Hf.
        destruct fuel as [|f]; [lia |].
        change ((91 :: Json.newline_indent (S level) ++ s
                 ++ Json.newline_indent level ++ [93]) ++ rest)
          with (91 :: ((Json.newline_indent (S level) ++ s
                        ++ Json.newline_indent level ++ [93]) ++ rest)).
        rewrite <- !app_assoc. change ([93] ++ rest) with (93 :: rest).
        destruct s as [|c s']; [contradiction |].
        rewrite (scan_once_list_items _ _ _ c
                   (s' ++ Json.newline_indent level ++ 93 :: rest));
          [| rewrite skip_ws_indent; apply (starts_value_skip_ws (c :: s')), Hs
           | apply Hs].
        change (c :: (s' ++ Json.newline_indent level ++ 93 :: rest))
          with ((c :: s') ++ Json.newline_indent level ++ 93 :: rest).
        rewrite Hscan by (cbn [length] in *; lia). reflexivity.
  - cbn [py_plain] in Hn. apply andb_prop in Hn as [Hn Hk].
    apply bool_decide_eq_true_1 in Hk.
    destruct d as [|kv d].
    + exists (pystr "{}"). split; [reflexivity |].
      split; [repeat split; discriminate |]. split; [clean_literal |].
      intros [|f] rest Hf Hr; [cbn in Hf; lia | reflexivity].
    + destruct (py_dict_items_evaluate env (kv :: d) IH Hn ltac:(discriminate)
                  level true) as (s & pairs & Es & Hs & Hc & Hp & Hscan).
      rewrite iterencode_dict_eq, Es.
      exists (123 :: Json.newline_indent (S level) ++ s
              ++ Json.newline_indent level ++ [125]).
      split; [reflexivity |]. split; [repeat split; discriminate |]. split.
      * constructor; [split; [discriminate | reflexivity] |].
        apply Forall_app; split; [apply clean_indent |].
        apply Forall_app; split; [exact Hc |].
        apply Forall_app; split; [apply clean_indent | clean_literal].
      * intros fuel rest Hf Hr. cbn [length] in Hf.
        rewrite !length_app in Hf. cbn [length] in Hf.
        destruct fuel as [|f]; [lia |].
        change ((123 :: Json.newline_indent (S level) ++ s
                 ++ Json.newline_indent level ++ [125]) ++ rest)
          with (123 :: ((Json.newline_indent (S level) ++ s
                         ++ Json.newline_indent level ++ [125]) ++ rest)).
        rewrite <- !app_assoc. change ([125] ++ rest) with (125 :: rest).
        destruct s as [|c s']; [contradiction |].
        rewrite (scan_once_dict_items _ _ _ c
                   (s' ++ Json.newline_indent level ++ 125 :: rest));
          [| rewrite skip_ws_indent; apply (starts_value_skip_ws (c :: s')), Hs
           | apply Hs].
        change (c :: (s' ++ Json.newline_indent level ++ 125 :: rest))
          with ((c :: s') ++ Json.newline_indent level ++ 125 :: rest).
        rewrite Hscan by (cbn [length] in *; lia).
        cbn [Json.bind fst snd]. unfold Json.dict_of_pairs.
        pose proof (py_str_keys_NoDup _ _ Hp Hk) as Hnd.
        rewrite (dict_of_distinct_pairs pairs []) by exact Hnd.
        rewrite app_nil_l, Hp. reflexivity.
Qed.

Lemma strip_prefix_app (p s : str) : strip_prefix p (p ++ s) = Some s.
Proof.
  induction p as [|c p IH]; [destruct s; reflexivity |].
  cbn [List.app strip_prefix]. rewrite N.eqb_refl. exact IH.
Qed.

Lemma strip_suffix_app (p s : str) : strip_suffix p (s ++ p) = Some s.
Proof.
  unfold strip_suffix. rewrite rev_app_distr, strip_prefix_app, rev_involutive.
  reflexivity.
Qed.

Lemma param_lines_cases (cases : list (pyval * pyval)) :
  param_lines (map (fun c => case_of (fst c) (snd c)) cases)
  = Ok (map (fun c => PTuple [fst c; snd c]) cases).
Proof.
  induction cases as [|[i e] cases IH]; [reflexivity |].
  cbn [map param_lines fst snd]. rewrite IH. reflexivity.
Qed.

Lemma header_no_surrogate (module_name func_name : str) :
  existsb is_surrogate module_name = false ->
  existsb is_surrogate func_name = false ->
  existsb is_surrogate (test_file_header module_name func_name) = false.
Proof.
  intros Hm Hf. unfold test_file_header.
  rewrite !existsb_app, Hm, Hf. reflexivity.
Qed.

Lemma footer_no_surrogate (func_name : str) :
  existsb is_surrogate func_name = false ->
  existsb is_surrogate (test_file_footer func_name) = false.
Proof.
  intros Hf. unfold test_file_footer.
  rewrite !existsb_app, Hf. reflexivity.
Qed.

Section GeneratedFile.
Context {os : Platform}.


End GeneratedFile.


(** ** extract_and_parse: pages and lines *)

Lemma splitlines_from_page_break (a b : str) :
  forall (after_cr : bool) (cur : str),
  (after_cr = true -> cur = []) ->
  exists extra : list str,
    (extra = [] \/ extra = [[]])
    /\ splitlines_from after_cr cur (a ++ NL :: b)
       = splitlines_from after_cr cur a ++ extra ++ splitlines b.
Proof.
  induction a as [|c a IH]; intros after_cr cur Hinv.
  - cbn [List.app splitlines_from]. change (NL =? 10) with true.
    destruct after_cr; cbn [andb].
    + rewrite (Hinv eq_refl). exists []. split; [left; reflexivity |].
      reflexivity.
    + change (is_linebreak NL) with true. change (NL =? 13) with false.
      cbv iota. destruct cur as [|x cur].
      * exists [[]]. split; [right; reflexivity | reflexivity].
      * exists []. split; [left; reflexivity | reflexivity].
  - cbn [List.app splitlines_from].
    destruct ((c =? 10) && after_cr) eqn:E1.
    + apply IH. discriminate.
    + destruct (is_linebreak c).
      * destruct (IH (c =? 13) [] ltac:(reflexivity)) as (extra & He & ->).
        exists extra. split; [exact He | reflexivity].
      * apply IH. discriminate.
Qed.

Section PagesMore.
Context {udb : UnicodeDB} {os : Platform}.

Lemma parse_line_blank (st : str * list (str * list str)) :
  parse_line st [] = st.
Proof. destruct st. reflexivity. Qed.

Lemma fold_parse_line_extra (l1 l2 extra : list str)
    (st : str * list (str * list str)) :
  extra = [] \/ extra = [[]] ->
  fold_left parse_line (l1 ++ extra ++ l2) st
  = fold_left parse_line (l1 ++ l2) st.
Proof.
  intros [-> | ->]; [reflexivity |].
  rewrite !fold_left_app. cbn [fold_left]. rewrite parse_line_blank.
  reflexivity.
Qed.

Lemma fold_parse_line_pages (pages : list str) :
  forall st : str * list (str * list str),
  fold_left parse_line (splitlines (join [NL] pages)) st
  = fold_left parse_line (flat_map splitlines pages) st.
Proof.
  induction pages as [|page [|next pages] IH]; intros st.
  - reflexivity.
  - cbn [join flat_map]. rewrite app_nil_r. reflexivity.
  - change (join [NL] (page :: next :: pages))
      with (page ++ NL :: join [NL] (next :: pages)).
    unfold splitlines at 1.
    destruct (splitlines_from_page_break page (join [NL] (next :: pages))
                false [] ltac:(discriminate)) as (extra & He & ->).
    rewrite (fold_parse_line_extra _ _ _ _ He).
    change (flat_map splitlines (page :: next :: pages))
      with (splitlines page ++ flat_map splitlines (next :: pages)).
    rewrite !fold_left_app. apply IH.
Qed.

(** X22. The pages of the PDF are parsed as one text, page after page:
    a page break is a line break and nothing more, so the section that
    is open at the end of a page goes on at the top of the next, and a
    header that begins a page is recognised. *)
Theorem extract_and_parse_pages (pdf_path : str) (fs : filesystem)
    (f : file) (pages : list str) :
  fs !! pdf_path = Some f ->
  pdf_get_text f = Ok pages ->
  extract_and_parse pdf_path fs
  = Ok (normalize
          (snd (fold_left parse_line (flat_map splitlines pages)
                  (pystr "statement", initial_sections)))).
Proof.
  intros Hf Hp. unfold extract_and_parse, extract_pdf_to_text.
  rewrite Hf, Hp. cbn [Json.bind].
  unfold parse_problem_text, accumulate, initial_sections.
  rewrite fold_parse_line_pages. reflexivity.
Qed.

End PagesMore.

Lemma extract_and_parse_pages_witness :
  @extract_and_parse Latin1.db Posix.os (pystr "/tmp/a.pdf")
    {[ pystr "/tmp/a.pdf" :=
         Text (pystr "Problem" ++ [NL] ++ pystr "Add." ++ [12]
               ++ pystr "Input" ++ [NL] ++ pystr "Two numbers") ]}
  = Ok [(pystr "statement", pystr "Add.");
        (pystr "input", pystr "Two numbers")].
Proof.
  rewrite (@extract_and_parse_pages Latin1.db Posix.os (pystr "/tmp/a.pdf") _
             (Text (pystr "Problem" ++ [NL] ++ pystr "Add." ++ [12]
                    ++ pystr "Input" ++ [NL] ++ pystr "Two numbers"))
             [pystr "Problem" ++ [NL] ++ pystr "Add.";
              pystr "Input" ++ [NL] ++ pystr "Two numbers"]).
  - vm_compute. reflexivity.
  - vm_compute. reflexivity.
  - vm_compute. reflexivity.
Defined.

(** ** Nothing is ever deleted *)

Lemma keeps_files_ret {A : Type} (a : A) : keeps_files (ret a).
Proof. intros w p H. exact H. Qed.

Lemma keeps_files_raise {A : Type} (e : exc) : keeps_files (@raise A e).
Proof. intros w p H. exact H. Qed.

Lemma keeps_files_show (e : event) : keeps_files (show e).
Proof. intros w p H. exact H. Qed.

Lemma keeps_files_of_result {A : Type} (r : result A) :
  keeps_files (of_result r).
Proof. intros w p H. exact H. Qed.

Lemma keeps_files_read_files {A : Type} (f : filesystem -> result A) :
  keeps_files (read_files f).
Proof. intros w p H. exact H. Qed.

Lemma keeps_files_seq {A B : Type} (m : prog A) (k : A -> prog B) :
  keeps_files m -> (forall a, keeps_files (k a)) -> keeps_files (seq m k).
Proof.
  intros Hm Hk w p H. unfold seq. specialize (Hm w p H).
  destruct (m w) as [[a|e] w1]; cbn [snd] in *; [apply Hk, Hm | exact Hm].
Qed.

Lemma keeps_files_for_each {A : Type} (l : list A) (body : A -> prog unit) :
  (forall x, keeps_files (body x)) -> keeps_files (for_each l body).
Proof.
  intros Hb. induction l as [|x l IH]; cbn [for_each].
  - apply keeps_files_ret.
  - apply keeps_files_seq; [apply Hb | intros _; exact IH].
Qed.

Lemma keeps_files_for_enumerate {A : Type} (l : list A)
    (body : nat -> A -> prog unit) :
  (forall idx x, keeps_files (body idx x)) ->
  forall idx, keeps_files (for_enumerate idx l body).
Proof.
  intros Hb. induction l as [|x l IH]; intros idx; cbn [for_enumerate].
  - apply keeps_files_ret.
  - apply keeps_files_seq; [apply Hb | intros _; apply IH].
Qed.

Lemma keeps_files_on_files {A : Type}
    (f : filesystem -> result A * filesystem) :
  keeps_paths f -> keeps_files (on_files f).
Proof.
  intros Hf w p H. unfold on_files. specialize (Hf (w_fs w) p H).
  destruct (f (w_fs w)) as [r fs']. exact Hf.
Qed.

Lemma is_Some_insert (fs : filesystem) (path p : str) (f : file) :
  is_Some (fs !! p) -> is_Some (<[path := f]> fs !! p).
Proof.
  intros H. destruct (decide (p = path)) as [-> | Hne].
  - rewrite lookup_insert_eq. eexists. reflexivity.
  - rewrite lookup_insert_ne by congruence. exact H.
Qed.

Section KeepsFiles.
Context {udb : UnicodeDB} {os : Platform} {core : CoreModules}.

Lemma keeps_paths_write_text (path s : str) : keeps_paths (write_text path s).
Proof.
  intros fs p H. unfold write_text.
  destruct (can_write path); [apply is_Some_insert |]; exact H.
Qed.

Lemma keeps_paths_write_bytes (path data : str) :
  keeps_paths (write_bytes path data).
Proof.
  intros fs p H. unfold write_bytes.
  destruct (can_write path); [apply is_Some_insert |]; exact H.
Qed.

Lemma keeps_paths_build_pytest_file (test_cases : list pyval)
    (module_name output_path func_name : str) :
  keeps_paths (build_pytest_file test_cases module_name output_path func_name).
Proof.
  intros fs p H. unfold build_pytest_file.
  destruct (param_lines test_cases); [| exact H].
  pose proof (keeps_paths_write_text output_path
                (test_file_header module_name func_name) fs p H) as H1.
  destruct (write_text output_path _ fs) as [[[]|e] fs1]; [| exact H1].
  destruct (Json.dumps true (PList a)); [| exact H1].
  apply keeps_paths_write_text, H.
Qed.

Lemma keeps_paths_build_test_files (test_cases : list pyval)
    (solution_files : list str) (out : path) (func_name : str) :
  keeps_paths (build_test_files test_cases solution_files out func_name).
Proof.
  induction solution_files as [|sol rest IH]; intros fs p H; [exact H |].
  cbn [build_test_files]. cbv zeta.
  pose proof (keeps_paths_build_pytest_file test_cases (path_stem (Path sol))
                (path_str (path_div out (pystr "test_" ++ path_stem (Path sol)
                                         ++ pystr ".py")))
                func_name fs p H) as H1.
  destruct (build_pytest_file _ _ _ _ fs) as [[[]|e] fs1]; [| exact H1].
  specialize (IH fs1 p H1).
  destruct (build_test_files test_cases rest out func_name fs1)
    as [[ps|e] fs2]; exact IH.
Qed.

Lemma keeps_paths_create_test_suite (test_cases : list pyval)
    (solution_files : list str) (output_dir func_name : str) :
  keeps_paths (create_test_suite_for_solutions test_cases solution_files
                 output_dir func_name).
Proof.
  intros fs p H. unfold create_test_suite_for_solutions. cbv zeta.
  destruct (can_mkdir _); [apply keeps_paths_build_test_files |]; exact H.
Qed.

Lemma keeps_paths_make_zipfile (files : list (str * str)) (output_path : str) :
  keeps_paths (make_zipfile files output_path).
Proof.
  intros fs p H. unfold make_zipfile.
  destruct (can_write output_path); [| exact H].
  destruct (zip_write_all fs files []) as [r entries].
  apply is_Some_insert, H.
Qed.

Lemma keeps_files_write_solutions (work_dir : path) (solutions : list str) :
  forall idx, keeps_files (write_solutions work_dir idx solutions).
Proof.
  induction solutions as [|sol rest IH]; intros idx; cbn [write_solutions].
  - apply keeps_files_ret.
  - cbv zeta. apply keeps_files_seq;
      [apply keeps_files_on_files, keeps_paths_write_text |].
    intros _. apply keeps_files_seq; [apply IH |].
    intros paths. apply keeps_files_ret.
Qed.

Lemma keeps_files_build_package (pdf_name : str) (solutions : list str)
    (test_cases : list pyval) :
  keeps_files (build_package pdf_name solutions test_cases).
Proof.
  unfold build_package.
  apply keeps_files_seq; [apply keeps_files_show |]. intros _. cbv zeta.
  apply keeps_files_seq; [apply keeps_files_write_solutions |]. intros sps.
  apply keeps_files_seq;
    [apply keeps_files_on_files, keeps_paths_create_test_suite |].
  intros tps.
  apply keeps_files_seq;
    [apply keeps_files_on_files, keeps_paths_make_zipfile |].
  intros _. apply keeps_files_ret.
Qed.

Lemma keeps_files_offer_download (zip_name : str) (zip_path : path) :
  keeps_files (offer_download zip_name zip_path).
Proof.
  unfold offer_download.
  apply keeps_files_seq; [apply keeps_files_show |]. intros _.
  apply keeps_files_seq; [apply keeps_files_read_files |]. intros data.
  apply keeps_files_show.
Qed.

Lemma keeps_files_show_validation (results : list (str * pyval)) :
  keeps_files (show_validation results).
Proof.
  unfold show_validation.
  apply keeps_files_seq; [apply keeps_files_show |]. intros _.
  apply keeps_files_seq.
  - apply keeps_files_for_each. intros kv.
    destruct (bool_decide _); [apply keeps_files_ret |].
    apply keeps_files_seq; [apply keeps_files_show |]. intros _.
    apply keeps_files_seq; [apply keeps_files_of_result |]. intros passes.
    apply keeps_files_seq; [apply keeps_files_of_result |]. intros fails.
    apply keeps_files_seq; [apply keeps_files_show |]. intros _.
    apply keeps_files_seq; [apply keeps_files_show |]. intros _.
    apply keeps_files_seq; [apply keeps_files_of_result |]. intros details.
    apply keeps_files_for_each. intros detail. apply keeps_files_show.
  - intros _. destruct (List.find _ results) as [kv|];
      [| apply keeps_files_ret].
    apply keeps_files_seq; [apply keeps_files_show |]. intros _.
    apply keeps_files_seq; [apply keeps_files_of_result |]. intros diffs.
    apply keeps_files_for_each. intros diff. apply keeps_files_show.
Qed.

Lemma keeps_files_generate (inp : inputs) (mock_mode : bool)
    (pdf template : upload) :
  keeps_files (generate inp mock_mode pdf template).
Proof.
  unfold generate.
  apply keeps_files_seq; [apply keeps_files_show |]. intros _. cbv zeta.
  apply keeps_files_seq;
    [apply keeps_files_on_files, keeps_paths_write_bytes |]. intros _.
  apply keeps_files_seq; [apply keeps_files_read_files |]. intros problem_data.
  apply keeps_files_seq; [apply keeps_files_show |]. intros _.
  apply keeps_files_seq.
  { apply keeps_files_for_each. intros kv.
    destruct (snd kv); [apply keeps_files_ret | apply keeps_files_show]. }
  intros _.
  apply keeps_files_seq; [apply keeps_files_of_result |]. intros template_code.
  apply keeps_files_seq; [apply keeps_files_show |]. intros _.
  apply keeps_files_seq; [apply keeps_files_show |]. intros _.
  apply keeps_files_seq; [apply keeps_files_show |]. intros _.
  apply keeps_files_seq; [apply keeps_files_show |]. intros _.
  apply keeps_files_seq; [apply keeps_files_of_result |]. intros solutions.
  apply keeps_files_seq; [apply keeps_files_show |]. intros _.
  apply keeps_files_seq.
  { apply keeps_files_for_enumerate. intros idx sol.
    apply keeps_files_seq; [apply keeps_files_show |]. intros _.
    apply keeps_files_show. }
  intros _.
  apply keeps_files_seq; [apply keeps_files_show |]. intros _.
  apply keeps_files_seq.
  { destruct solutions; [apply keeps_files_raise | apply keeps_files_ret]. }
  intros first_solution.
  apply keeps_files_seq; [apply keeps_files_show |]. intros _.
  apply keeps_files_seq; [apply keeps_files_of_result |]. intros test_cases.
  apply keeps_files_seq; [apply keeps_files_show |]. intros _.
  apply keeps_files_seq.
  { destruct test_cases; [apply keeps_files_show |].
    apply keeps_files_for_each. intros tc. apply keeps_files_show. }
  intros _.
  apply keeps_files_seq.
  { destruct test_cases; [apply keeps_files_ret |].
    apply keeps_files_seq; [apply keeps_files_show |]. intros _.
    apply keeps_files_seq; [apply keeps_files_show |]. intros _.
    apply keeps_files_seq; [apply keeps_files_of_result |]. intros results.
    apply keeps_files_show_validation. }
  intros _.
  destruct test_cases; [apply keeps_files_ret |].
  apply keeps_files_seq; [apply keeps_files_build_package |]. intros package.
  apply keeps_files_offer_download.
Qed.


End KeepsFiles.

